(** * hapax8: a CHIP-8 interpreter in Go, embedded in Rocq

    The repository holds two revisions of the interpreter.  The later
    one, [src/unnamed/part_000], has the display buffer, the font, the
    draw instruction and the timer countdown; it is embedded at the top
    level.  The earlier one, [src/main.go], is embedded in [Module
    MainGo] and related to the later one at the end.

    The Go program keeps the whole machine in one struct [Chip8] and
    mutates it through pointer-receiver methods.  The embedding passes the
    struct explicitly: every method becomes a function from a machine to
    an [outcome].  Unsigned Go integers ([uint8], [uint16]) are modelled
    as [Z] with the wrap-around written out at each arithmetic operation;
    slices and arrays are lists indexed through stdpp's lookup and insert,
    and an index outside the list is the Go run-time panic.

    Writes to standard output ([fmt.Println]) are not part of the machine
    state and are left out; of the SDL painting, the sequence of
    [FillRect] calls is kept. *)

From Stdlib Require Import ZArith Lia List Bool.
From stdpp Require Import base option list.
Import ListNotations.

Local Open Scope Z_scope.

(** ** Outcomes of a method call *)

(** [Ok a]: the call returned; [Panic]: a Go run-time panic (index out of
    range, or an explicit [panic]); [Exit]: the process ended through
    [os.Exit]; [OutOfFuel]: the model of a loop ran out of iterations
    (shown below never to happen). *)
Inductive outcome (A : Type) : Type :=
  | Ok (a : A)
  | Panic
  | Exit
  | OutOfFuel.

Arguments Ok {A} a.
Arguments Panic {A}.
Arguments Exit {A}.
Arguments OutOfFuel {A}.

Definition obind {A B : Type} (m : outcome A) (k : A -> outcome B) : outcome B :=
  match m with
  | Ok a => k a
  | Panic => Panic
  | Exit => Exit
  | OutOfFuel => OutOfFuel
  end.

Notation "'do' x <- m ; k" := (obind m (fun x => k))
  (at level 10, x name, m at level 100, k at level 200).

(** Indexing a slice or an array: [s[i]] panics when [i] is out of range. *)
Definition at_index (s : list Z) (i : Z) : outcome Z :=
  match s !! Z.to_nat i with
  | Some b => Ok b
  | None => Panic
  end.

(** [s[i] = b]: in-place store, panics when [i] is out of range. *)
Definition store_at (s : list Z) (i : Z) (b : Z) : outcome (list Z) :=
  if (Z.to_nat i <? length s)%nat then Ok (<[Z.to_nat i := b]> s) else Panic.

(** ** Constants *)

Definition progStart : Z := 0x200.
Definition memSize : Z := 4096.
Definition FONTSET_SIZE : Z := 80.
Definition FONT_OFFSET : Z := 0x50.

Definition fontSet : list Z :=
  [ 0xF0; 0x90; 0x90; 0x90; 0xF0;
    0x20; 0x60; 0x20; 0x20; 0x70;
    0xF0; 0x10; 0xF0; 0x80; 0xF0;
    0xF0; 0x10; 0xF0; 0x10; 0xF0;
    0x90; 0x90; 0xF0; 0x10; 0x10;
    0xF0; 0x80; 0xF0; 0x10; 0xF0;
    0xF0; 0x80; 0xF0; 0x90; 0xF0;
    0xF0; 0x10; 0x20; 0x40; 0x40;
    0xF0; 0x90; 0xF0; 0x90; 0xF0;
    0xF0; 0x90; 0xF0; 0x10; 0xF0;
    0xF0; 0x90; 0xF0; 0x90; 0x90;
    0xE0; 0x90; 0xE0; 0x90; 0xE0;
    0xF0; 0x80; 0x80; 0x80; 0xF0;
    0xE0; 0x90; 0x90; 0x90; 0xE0;
    0xF0; 0x80; 0xF0; 0x80; 0xF0;
    0xF0; 0x80; 0xF0; 0x80; 0x80 ].

(** ** The machine state: [type Chip8 struct] *)

Record Chip8 : Type := mkChip8 {
  inst : Z;             (* uint16 *)
  memory : list Z;      (* []uint8 *)
  v : list Z;           (* [16]uint8, register block *)
  index : Z;            (* uint16, index reg *)
  pc : Z;               (* uint16, program counter *)
  gfx : list Z;         (* []uint8, pixel array for graphics *)
  delayTimer : Z;       (* uint8 *)
  soundTimer : Z;       (* uint8 *)
  stack : list Z;       (* [16]uint16 *)
  sp : Z                (* uint16 *)
}.

Definition with_inst (c : Chip8) (i : Z) : Chip8 :=
  mkChip8 i (memory c) (v c) (index c) (pc c) (gfx c)
          (delayTimer c) (soundTimer c) (stack c) (sp c).
Definition with_memory (c : Chip8) (m : list Z) : Chip8 :=
  mkChip8 (inst c) m (v c) (index c) (pc c) (gfx c)
          (delayTimer c) (soundTimer c) (stack c) (sp c).
Definition with_v (c : Chip8) (r : list Z) : Chip8 :=
  mkChip8 (inst c) (memory c) r (index c) (pc c) (gfx c)
          (delayTimer c) (soundTimer c) (stack c) (sp c).
Definition with_index (c : Chip8) (i : Z) : Chip8 :=
  mkChip8 (inst c) (memory c) (v c) i (pc c) (gfx c)
          (delayTimer c) (soundTimer c) (stack c) (sp c).
Definition with_pc (c : Chip8) (p : Z) : Chip8 :=
  mkChip8 (inst c) (memory c) (v c) (index c) p (gfx c)
          (delayTimer c) (soundTimer c) (stack c) (sp c).
Definition with_gfx (c : Chip8) (g : list Z) : Chip8 :=
  mkChip8 (inst c) (memory c) (v c) (index c) (pc c) g
          (delayTimer c) (soundTimer c) (stack c) (sp c).
Definition with_delayTimer (c : Chip8) (t : Z) : Chip8 :=
  mkChip8 (inst c) (memory c) (v c) (index c) (pc c) (gfx c)
          t (soundTimer c) (stack c) (sp c).
Definition with_soundTimer (c : Chip8) (t : Z) : Chip8 :=
  mkChip8 (inst c) (memory c) (v c) (index c) (pc c) (gfx c)
          (delayTimer c) t (stack c) (sp c).
Definition with_sp (c : Chip8) (s : Z) : Chip8 :=
  mkChip8 (inst c) (memory c) (v c) (index c) (pc c) (gfx c)
          (delayTimer c) (soundTimer c) (stack c) s.

(** [new(Chip8)]: the zero value of the struct; both slices are nil. *)
Definition new_Chip8 : Chip8 :=
  mkChip8 0 [] (replicate 16 0) 0 0 [] 0 0 (replicate 16 0) 0.

(** ** Initialisation and loading *)

(** The loop [for i, d := range fontSet { c.memory[FONT_OFFSET+i] = d }]. *)
Fixpoint copy_font (font : list Z) (i : Z) (mem : list Z) : outcome (list Z) :=
  match font with
  | [] => Ok mem
  | d :: rest =>
      do mem' <- store_at mem (FONT_OFFSET + i) d;
      copy_font rest (i + 1) mem'
  end.

(** [func (c *Chip8) Init()] *)
Definition Init (c : Chip8) : outcome Chip8 :=
  let c := with_inst c 0 in
  let c := with_index c 0 in
  let c := with_pc c progStart in
  let c := with_sp c 0 in
  let c := with_delayTimer c 0 in
  let c := with_soundTimer c 0 in
  let c := with_memory c (replicate (Z.to_nat memSize) 0) in
  let c := with_gfx c (replicate (Z.to_nat (64 * 32)) 0) in
  do mem <- copy_font fontSet 0 (memory c);
  Ok (with_memory c mem).

(** [func (c *Chip8) LoadProgram(prog string)].  The file system is
    outside the model: [bytes] is the content of the file named [prog].
    [progFile.Read(c.memory[progStart:])] copies at most as many bytes as
    the destination holds; reading an empty file into a non-empty
    destination reports [io.EOF], which the method turns into a panic, and
    so does slicing a memory shorter than [progStart]. *)
Definition LoadProgram (bytes : list Z) (c : Chip8) : outcome Chip8 :=
  if (length (memory c) <? Z.to_nat progStart)%nat then Panic
  else
    let room := (length (memory c) - Z.to_nat progStart)%nat in
    let n := Nat.min (length bytes) room in
    match bytes, room with
    | [], S _ => Panic
    | _, _ =>
        Ok (with_memory c
              (take (Z.to_nat progStart) (memory c)
                 ++ take n bytes
                 ++ drop (Z.to_nat progStart + n) (memory c)))
    end.

(** [func NewChip(bin string) *Chip8] *)
Definition NewChip (bytes : list Z) : outcome Chip8 :=
  do c <- Init new_Chip8;
  LoadProgram bytes c.

(** ** Decoding *)

(** [bits.RotateLeft16(x, k)] of the Go standard library:
    [s := uint(k) & 15; return x<<s | x>>(16-s)] on [uint16]. *)
Definition RotateLeft16 (x k : Z) : Z :=
  let s := Z.land k 15 in
  Z.lor (Z.shiftl x s mod 65536) (Z.shiftr x (16 - s)).

(** [func (c *Chip8) Decode()] *)
Definition Decode (c : Chip8) : outcome Chip8 :=
  do hi <- at_index (memory c) (pc c);
  let topByte := RotateLeft16 hi 8 in
  do lo <- at_index (memory c) ((pc c + 1) mod 65536);
  let bottomByte := lo in
  Ok (with_inst c (Z.lor topByte bottomByte)).

Definition topNibble (i : Z) : Z := Z.shiftr (Z.land i 0xF000) 12.
Definition bottomNibble (i : Z) : Z := Z.land i 0x000F.
Definition bottomByte (i : Z) : Z := Z.land i 0x00FF.
Definition targetAddr (i : Z) : Z := Z.land i 0x0FFF.

(** [func (c *Chip8) SetIndex()] *)
Definition SetIndex (c : Chip8) : Chip8 := with_index c (Z.land (inst c) 0x0FFF).

(** [func (c *Chip8) SetPC(newaddr uint16)] *)
Definition SetPC (c : Chip8) (newaddr : Z) : Chip8 := with_pc c newaddr.

(** [func (c *Chip8) IncPC()]: [c.pc += 2] on a [uint16]. *)
Definition IncPC (c : Chip8) : Chip8 := with_pc c ((pc c + 2) mod 65536).

(** [func (c *Chip8) GetImm(numDigs int) uint8]; the conversion to
    [uint8] keeps the low eight bits. *)
Definition GetImm (c : Chip8) (numDigs : Z) : outcome Z :=
  match numDigs with
  | 1 => Ok (Z.land (inst c) 0x000F mod 256)
  | 2 => Ok (Z.land (inst c) 0x00FF mod 256)
  | 3 => Ok (Z.land (inst c) 0x0FFF mod 256)
  | _ => Panic
  end.

(** In Go [&] and [>>] have the same precedence and associate to the
    left: [c.inst & 0x0F00 >> 8] is [(c.inst & 0x0F00) >> 8]. *)
Definition GetXReg (c : Chip8) : Z := Z.shiftr (Z.land (inst c) 0x0F00) 8.
Definition GetYReg (c : Chip8) : Z := Z.shiftr (Z.land (inst c) 0x00F0) 4.

(** [c.v[x] = b] *)
Definition set_v (c : Chip8) (x b : Z) : outcome Chip8 :=
  do r <- store_at (v c) x b; Ok (with_v c r).

(** ** The register-register instructions *)

(** [func (c *Chip8) Math8()].  [xVal] and [yVal] are [uint8], so is
    [add := xVal + yVal]: the sum is reduced modulo 256 before it is
    compared with 255. *)
Definition Math8 (c : Chip8) : outcome Chip8 :=
  let x := GetXReg c in
  let y := GetYReg c in
  do xVal <- at_index (v c) x;
  do yVal <- at_index (v c) y;
  match bottomNibble (inst c) with
  | 0x0 => set_v c x yVal
  | 0x1 => set_v c x (Z.lor xVal yVal)
  | 0x2 => set_v c x (Z.land xVal yVal)
  | 0x3 => set_v c x (Z.lxor xVal yVal)
  | 0x4 =>
      let add := (xVal + yVal) mod 256 in
      do c1 <- (if 255 <? add then set_v c 0xF 1 else Ok c);
      set_v c1 x (Z.land add 0xFF mod 256)
  | 0x5 => set_v c x ((xVal - yVal) mod 256)
  | 0x6 => set_v c x (Z.shiftr xVal 1)
  | 0x7 => set_v c x ((yVal - xVal) mod 256)
  | 0xE => set_v c x (Z.shiftl xVal 1 mod 256)
  | _ => Ok c
  end.

(** ** One fetch-decode-execute cycle *)

(** The loop of the draw instruction,
    [for i := spriteAddr; i < bound; i++ { c.gfx[64*x+y+j] = c.memory[i]; j++ }],
    with [i] a [uint16] and [x], [y], [j] of type [uint8] (so the index
    [64*x+y+j] is computed modulo 256).  [fuel] bounds the number of
    iterations. *)
Fixpoint draw_loop (fuel : nat) (mem : list Z) (bound x y : Z)
    (i j : Z) (g : list Z) : outcome (list Z) :=
  if i <? bound then
    match fuel with
    | O => OutOfFuel
    | S fuel' =>
        do b <- at_index mem i;
        do g' <- store_at g ((64 * x + y + j) mod 256) b;
        draw_loop fuel' mem bound x y ((i + 1) mod 65536) ((j + 1) mod 256) g'
    end
  else Ok g.

(** The element of [gfx] that the loop writes at step [j]. *)
Definition gfx_target (x y j : Z) : nat := Z.to_nat ((64 * x + y + j) mod 256).

(** The body of [case 0xD] up to the loop's end.  The bound
    [uint16(spriteLength+uint8(spriteAddr))] is a [uint8] sum, at most
    255, so 256 iterations are enough. *)
Definition draw (c : Chip8) : outcome Chip8 :=
  do x <- at_index (v c) (GetXReg c);
  do y <- at_index (v c) (GetYReg c);
  do n <- GetImm c 1;
  let spriteAddr := index c in
  let spriteLength := n in
  let bound := (spriteLength + spriteAddr mod 256) mod 256 in
  do g <- draw_loop 256 (memory c) bound x y spriteAddr 0 (gfx c);
  Ok (with_gfx c g).

(** The two [if] statements that close [Execute]. *)
Definition dec_timers (c : Chip8) : Chip8 :=
  let c := if 0 <? delayTimer c
           then with_delayTimer c ((delayTimer c - 1) mod 256) else c in
  if 0 <? soundTimer c
  then with_soundTimer c ((soundTimer c - 1) mod 256) else c.

(** [clear(c.gfx)]: every element of the slice becomes zero. *)
Definition clear (g : list Z) : list Z := replicate (length g) 0.

(** The [switch top] statement of [Execute]. *)
Definition dispatch (c : Chip8) : outcome Chip8 :=
  let top := topNibble (inst c) in
  let x := GetXReg c in
  let y := GetYReg c in
  match top with
  | 0x0 =>
      let c1 :=
        match bottomNibble (inst c) with
        | 0x0 => with_gfx c (clear (gfx c))   (* CLR *)
        | 0xE => c                            (* RET: prints "ret" *)
        | _ => c
        end in
      Ok (IncPC c1)
  | 0x1 => Ok (SetPC c (targetAddr (inst c)))   (* JUMP *)
  | 0x2 => Ok (SetPC c (targetAddr (inst c)))   (* CALL *)
  | 0x3 =>                                      (* SKE *)
      do imm <- GetImm c 2;
      let c1 := IncPC c in
      do vx <- at_index (v c1) x;
      Ok (if imm =? vx then IncPC c1 else c1)
  | 0x4 =>                                      (* SKNE *)
      do imm <- GetImm c 2;
      let c1 := IncPC c in
      do vx <- at_index (v c1) x;
      Ok (if negb (imm =? vx) then IncPC c1 else c1)
  | 0x5 =>                                      (* SKRE *)
      let c1 := IncPC c in
      do vx <- at_index (v c1) x;
      do vy <- at_index (v c1) y;
      Ok (if vx =? vy then IncPC c1 else c1)
  | 0x6 =>                                      (* LOAD *)
      do imm <- GetImm c 2;
      do c1 <- set_v c x imm;
      Ok (IncPC c1)
  | 0x7 =>                                      (* ADD *)
      do imm <- GetImm c 2;
      do vx <- at_index (v c) x;
      do c1 <- set_v c x ((vx + imm) mod 256);
      Ok (IncPC c1)
  | 0x8 =>
      do c1 <- Math8 c;
      Ok (IncPC c1)
  | 0x9 =>                                      (* SKNRE *)
      let c1 := IncPC c in
      do vx <- at_index (v c1) x;
      do vy <- at_index (v c1) y;
      Ok (if negb (vx =? vy) then IncPC c1 else c1)
  | 0xA =>                                      (* LOADI *)
      Ok (IncPC (SetIndex c))
  | 0xD =>
      do c1 <- draw c;
      Ok (IncPC c1)
  | 0xF =>
      let bottom := bottomByte (inst c) in
      match bottom with
      | 0x55 =>                                 (* STOR *)
          do vx <- at_index (v c) x;
          do m <- store_at (memory c) (index c) vx;
          Ok (IncPC (with_memory c m))
      | 0x65 =>                                 (* READ *)
          do b <- at_index (memory c) (index c);
          do c1 <- set_v c x b;
          Ok (IncPC c1)
      | _ => Ok c
      end
  | _ => Ok c
  end.

(** [func (c *Chip8) Execute()] *)
Definition Execute (c : Chip8) : outcome Chip8 :=
  do c1 <- Decode c;
  if inst c1 =? 0x0 then Ok c1
  else
    do c2 <- dispatch c1;
    Ok (dec_timers c2).

(** [n] cycles in a row, as the test functions and the run loop do. *)
Fixpoint run (n : nat) (c : Chip8) : outcome Chip8 :=
  match n with
  | O => Ok c
  | S n' => do c' <- Execute c; run n' c'
  end.

(** ** The revision in [main.go]

    The repository also holds an earlier revision of the same program,
    [main.go], without the display code: [gfx] is an array that no
    instruction writes, class 0xD has no case, the timers are never
    decremented, and the zero word ends the process.  [Decode], the field
    accessors and [Math8] are the same text in both revisions. *)
Module MainGo.

(** [new(Chip8)]: here [gfx] is the array [[64 * 32]uint8]. *)
Definition new_Chip8 : Chip8 :=
  mkChip8 0 [] (replicate 16 0) 0 0 (replicate (Z.to_nat (64 * 32)) 0)
          0 0 (replicate 16 0) 0.

(** [func (c *Chip8) Init()] *)
Definition Init (c : Chip8) : Chip8 :=
  let c := with_inst c 0 in
  let c := with_index c 0 in
  let c := with_pc c progStart in
  let c := with_sp c 0 in
  let c := with_delayTimer c 0 in
  let c := with_soundTimer c 0 in
  with_memory c (replicate (Z.to_nat memSize) 0).

(** [func (c *Chip8) GetImm(numDigs int) uint8] *)
Definition GetImm (c : Chip8) (numDigs : Z) : outcome Z :=
  match numDigs with
  | 2 => Ok (Z.land (inst c) 0x00FF mod 256)
  | 3 => Ok (Z.land (inst c) 0x0FFF mod 256)
  | _ => Panic
  end.

(** The [switch top] statement of [Execute]. *)
Definition dispatch (c : Chip8) : outcome Chip8 :=
  let top := topNibble (inst c) in
  let x := GetXReg c in
  let y := GetYReg c in
  match top with
  | 0x0 =>
      let c1 :=
        match bottomNibble (inst c) with
        | 0x0 => c                            (* CLR: prints "clear screen" *)
        | 0xE => c                            (* RET: prints "ret" *)
        | _ => c
        end in
      Ok (IncPC c1)
  | 0x1 => Ok (SetPC c (targetAddr (inst c)))   (* JUMP *)
  | 0x2 => Ok (SetPC c (targetAddr (inst c)))   (* CALL *)
  | 0x3 =>                                      (* SKE *)
      do imm <- GetImm c 2;
      let c1 := IncPC c in
      do vx <- at_index (v c1) x;
      Ok (if imm =? vx then IncPC c1 else c1)
  | 0x4 =>                                      (* SKNE *)
      do imm <- GetImm c 2;
      let c1 := IncPC c in
      do vx <- at_index (v c1) x;
      Ok (if negb (imm =? vx) then IncPC c1 else c1)
  | 0x5 =>                                      (* SKRE *)
      let c1 := IncPC c in
      do vx <- at_index (v c1) x;
      do vy <- at_index (v c1) y;
      Ok (if vx =? vy then IncPC c1 else c1)
  | 0x6 =>                                      (* LOAD *)
      do imm <- GetImm c 2;
      do c1 <- set_v c x imm;
      Ok (IncPC c1)
  | 0x7 =>                                      (* ADD *)
      do imm <- GetImm c 2;
      do vx <- at_index (v c) x;
      do c1 <- set_v c x ((vx + imm) mod 256);
      Ok (IncPC c1)
  | 0x8 =>
      do c1 <- Math8 c;
      Ok (IncPC c1)
  | 0x9 =>                                      (* SKNRE *)
      let c1 := IncPC c in
      do vx <- at_index (v c1) x;
      do vy <- at_index (v c1) y;
      Ok (if negb (vx =? vy) then IncPC c1 else c1)
  | 0xA =>                                      (* LOADI *)
      Ok (IncPC (SetIndex c))
  | 0xF =>
      let bottom := bottomByte (inst c) in
      match bottom with
      | 0x55 =>                                 (* STOR *)
          do vx <- at_index (v c) x;
          do m <- store_at (memory c) (index c) vx;
          Ok (IncPC (with_memory c m))
      | 0x65 =>                                 (* READ *)
          do b <- at_index (memory c) (index c);
          do c1 <- set_v c x b;
          Ok (IncPC c1)
      | _ => Ok c
      end
  | _ => Ok c
  end.

(** [func (c *Chip8) Execute()]; the zero word calls [os.Exit(0)]. *)
Definition Execute (c : Chip8) : outcome Chip8 :=
  do c1 <- Decode c;
  if inst c1 =? 0x0 then Exit
  else dispatch c1.

End MainGo.

(** ** Well-formed machines *)

(** The Go types fix the length of the two arrays and the range of every
    integer field; [Init] fixes the length of the two slices, and no
    method changes it afterwards.  [wfb] checks all of that. *)
Definition is_u8 (b : Z) : bool := (0 <=? b) && (b <? 256).
Definition is_u16 (w : Z) : bool := (0 <=? w) && (w <? 65536).

Definition wfb (c : Chip8) : bool :=
  is_u16 (inst c)
  && (length (memory c) =? Z.to_nat memSize)%nat && forallb is_u8 (memory c)
  && (length (v c) =? 16)%nat && forallb is_u8 (v c)
  && is_u16 (index c)
  && is_u16 (pc c)
  && (length (gfx c) =? Z.to_nat (64 * 32))%nat && forallb is_u8 (gfx c)
  && is_u8 (delayTimer c)
  && is_u8 (soundTimer c)
  && (length (stack c) =? 16)%nat && forallb is_u16 (stack c)
  && is_u16 (sp c).

Definition wf (c : Chip8) : Prop := wfb c = true.

(** What holds between the machine before and after any case of the
    dispatch: the instruction word, the two timers, the stack and the
    stack pointer are not written, and the index register only receives a
    12-bit address. *)
Definition same_control (c e : Chip8) : Prop :=
  inst e = inst c
  /\ delayTimer e = delayTimer c /\ soundTimer e = soundTimer c
  /\ stack e = stack c /\ sp e = sp c
  /\ (index e = index c \/ index e = targetAddr (inst c)).

(** ** The draw instruction as the specification words it

    A second definition of the draw, written after the draw-sprite
    contract of the specification and compared with [draw] below: the
    display is a grid of 64 by 32 cells, one element of [gfx] per cell,
    each 0 (unlit) or 1 (lit), stored row after row. *)
Module DrawSpec.

Definition width : Z := 64.
Definition height : Z := 32.

Definition cell (col row : Z) : nat :=
  Z.to_nat (width * (row mod height) + col mod width).

(** XOR one lit sprite bit into a cell; the flag records a lit cell
    going unlit. *)
Definition plot (st : list Z * bool) (col row : Z) : list Z * bool :=
  let '(g, hit) := st in
  match g !! cell col row with
  | Some old => (<[cell col row := Z.lxor old 1]> g, hit || (old =? 1))
  | None => (g, hit)
  end.

(** The eight bits of one sprite row, most significant first. *)
Fixpoint draw_bits (cols : nat) (byte x y : Z) (col : Z)
    (st : list Z * bool) : list Z * bool :=
  match cols with
  | O => st
  | S cols' =>
      let st' := if Z.testbit byte (7 - col) then plot st (x + col) y else st in
      draw_bits cols' byte x y (col + 1) st'
  end.

Fixpoint draw_rows (rows : nat) (mem : list Z) (addr x y : Z) (row : Z)
    (st : list Z * bool) : option (list Z * bool) :=
  match rows with
  | O => Some st
  | S rows' =>
      match mem !! Z.to_nat (addr + row) with
      | Some byte =>
          draw_rows rows' mem addr x y (row + 1)
                    (draw_bits 8 byte x (y + row) 0 st)
      | None => None
      end
  end.

(** The display and the value of vF after drawing [n] rows from
    [memory[index]] at ([vx], [vy]). *)
Definition draw (mem g : list Z) (idx vx vy n : Z) : option (list Z * Z) :=
  match draw_rows (Z.to_nat n) mem idx vx vy 0 (g, false) with
  | Some (g', hit) => Some (g', if hit then 1 else 0)
  | None => None
  end.

End DrawSpec.

(** The skip conditions of the opcode table, by instruction class. *)
Definition skip_condition (class vx vy imm : Z) : bool :=
  match class with
  | 0x3 => vx =? imm
  | 0x4 => negb (vx =? imm)
  | 0x5 => vx =? vy
  | 0x9 => negb (vx =? vy)
  | _ => false
  end.

(** Every case of [Math8] writes one value to v[x]; [alu_result] is that
    value, for the sub-field [sub] and the old values [a] of v[x] and [b]
    of v[y].  The sub-fields without a case write nothing. *)
Definition alu_result (sub a b : Z) : option Z :=
  match sub with
  | 0x0 => Some b
  | 0x1 => Some (Z.lor a b)
  | 0x2 => Some (Z.land a b)
  | 0x3 => Some (Z.lxor a b)
  | 0x4 => Some ((a + b) mod 256)
  | 0x5 => Some ((a - b) mod 256)
  | 0x6 => Some (Z.shiftr a 1)
  | 0x7 => Some ((b - a) mod 256)
  | 0xE => Some (Z.shiftl a 1 mod 256)
  | _ => None
  end.

(** ** Machines used as concrete inputs *)

(** The result of [NewChip], or the zero machine if it fails. *)
Definition chip_of (bytes : list Z) : Chip8 :=
  match NewChip bytes with
  | Ok c => c
  | _ => new_Chip8
  end.

Definition after (n : nat) (c : Chip8) : Chip8 :=
  match run n c with
  | Ok c' => c'
  | _ => new_Chip8
  end.

(** The store scenario of the specification, with a read appended:
    v0 := 0xAB; index := 0x00A; memory[index] := v0; v0 := memory[index]. *)
Definition prog_store_read : list Z := [0x60; 0xAB; 0xA0; 0x0A; 0xF0; 0x55; 0xF0; 0x65].

(** About to execute the store, and the word it decodes. *)
Definition c_store : Chip8 := after 2 (chip_of prog_store_read).
Definition d_store : Chip8 := with_inst c_store 0xF055.

(** About to execute the read. *)
Definition c_read : Chip8 := after 3 (chip_of prog_store_read).
Definition d_read : Chip8 := with_inst c_read 0xF065.

(** v0 := 7; skip if v0 == 7.  About to execute the skip. *)
Definition c_skip : Chip8 := after 1 (chip_of [0x60; 0x07; 0x30; 0x07]).
Definition d_skip : Chip8 := with_inst c_skip 0x3007.

(** A call to 0x208, where a return stands. *)
Definition c_call : Chip8 := chip_of [0x22; 0x08; 0; 0; 0; 0; 0; 0; 0x00; 0xEE].
Definition d_call : Chip8 := with_inst c_call 0x2208.

(** v0 := 200; v1 := 100; v0 += v1.  About to execute the addition. *)
Definition c_add : Chip8 := after 2 (chip_of [0x60; 0xC8; 0x61; 0x64; 0x80; 0x14]).

(** v0 := 3; v0 >>= 1.  About to execute the shift. *)
Definition c_shr : Chip8 := after 1 (chip_of [0x60; 0x03; 0x80; 0x06]).
Definition d_shr : Chip8 := with_inst c_shr 0x8006.

(** v0 := 0x81; v0 <<= 1.  About to execute the shift. *)
Definition c_shl : Chip8 := after 1 (chip_of [0x60; 0x81; 0x80; 0x0E]).

(** A machine with both timers running, about to execute v0 := 0.  The
    timers are set by hand: no instruction starts them, so no run from
    [NewChip] reaches this machine (lemma [c_timer_not_reached]). *)
Definition c_timer : Chip8 :=
  with_soundTimer (with_delayTimer (chip_of [0x60; 0x00]) 5) 3.
Definition d_timer : Chip8 := with_inst c_timer 0x6000.

(** A word of class 0xB, which has no case. *)
Definition c_nocase : Chip8 := chip_of [0xB1; 0x23].

(** index := 0x50 (the glyph of 0); draw 5 rows at (v0, v1) = (0, 0).
    About to execute the draw. *)
Definition c_glyph : Chip8 := after 1 (chip_of [0xA0; 0x50; 0xD0; 0x15]).
Definition d_glyph : Chip8 := with_inst c_glyph 0xD015.

(** v0 := 1; index := 0; memory[0] := v0; draw 1 row from memory[0] at
    (v1, v1) = (0, 0), which sets gfx[0] to 1; index := 0x50.  About to
    draw the first row of the glyph of 0, the byte 0xF0, over it. *)
Definition c_redraw : Chip8 :=
  after 5 (chip_of [0x60; 0x01; 0xA0; 0x00; 0xF0; 0x55; 0xD1; 0x11;
                    0xA0; 0x50; 0xD1; 0x11]).

(** Further machines, each about to execute the word [d_] decodes. *)

(** v10 := 0x42. *)
Definition c_load : Chip8 := chip_of [0x6A; 0x42].
Definition d_load : Chip8 := with_inst c_load 0x6A42.

(** v0 := 0xF0; v0 += 0x20. *)
Definition c_addi : Chip8 := after 1 (chip_of [0x60; 0xF0; 0x70; 0x20]).
Definition d_addi : Chip8 := with_inst c_addi 0x7020.

(** v0 := 0x0C; v1 := 0x0A; v0 ^= v1. *)
Definition c_xor : Chip8 := after 2 (chip_of [0x60; 0x0C; 0x61; 0x0A; 0x80; 0x13]).
Definition d_xor : Chip8 := with_inst c_xor 0x8013.

(** A word of class 0x8 whose sub-field 0x8 has no case. *)
Definition c_alu8 : Chip8 := chip_of [0x80; 0x18].
Definition d_alu8 : Chip8 := with_inst c_alu8 0x8018.

(** Jump to 0x234. *)
Definition c_jump : Chip8 := chip_of [0x12; 0x34].
Definition d_jump : Chip8 := with_inst c_jump 0x1234.

(** Jump to 0xFFF, the last byte of the memory; about to fetch there. *)
Definition c_end : Chip8 := after 1 (chip_of [0x1F; 0xFF]).

(** index := 0x123. *)
Definition c_loadi : Chip8 := chip_of [0xA1; 0x23].
Definition d_loadi : Chip8 := with_inst c_loadi 0xA123.

(** index := 0x50; draw 5 rows; clear the screen. *)
Definition prog_draw_clear : list Z := [0xA0; 0x50; 0xD0; 0x15; 0x00; 0xE0].
Definition c_clear : Chip8 := after 2 (chip_of prog_draw_clear).
Definition d_clear : Chip8 := with_inst c_clear 0x00E0.

(** v0 := 1, followed by the zero word. *)
Definition c_zero : Chip8 := after 1 (chip_of [0x60; 0x01]).
Definition d_zero : Chip8 := with_inst c_zero 0x0000.

(** index := 0x50; draw 5 rows twice.  About to draw the second time. *)
Definition c_glyph2 : Chip8 := after 2 (chip_of [0xA0; 0x50; 0xD0; 0x15; 0xD0; 0x15]).
Definition d_glyph2 : Chip8 := with_inst c_glyph2 0xD015.

(** index := 0x206, the sprite stored after the code; draw 1 row. *)
Definition c_sprite : Chip8 := after 1 (chip_of [0xA2; 0x06; 0xD0; 0x11; 0x00; 0x00; 0xFF]).
Definition d_sprite : Chip8 := with_inst c_sprite 0xD011.

(** index := 0x50; draw 5 rows twice.  About to draw the first time. *)
Definition c_glyph1 : Chip8 := after 1 (chip_of [0xA0; 0x50; 0xD0; 0x15; 0xD0; 0x15]).
Definition d_glyph1 : Chip8 := with_inst c_glyph1 0xD015.

(** ** Presentation: [drawMemory] and [drawLetter]

    The two methods paint through SDL.  The embedding keeps what they
    compute: the sequence of [surface.FillRect] calls, each a rectangle
    and a colour.  ([sdl.MapRGBA], which packs the colour for the
    surface's pixel format, and [window.UpdateSurface] belong to the
    library and are left out.) *)
Module Sdl.

(** [sdl.Rect], four [int32] fields. *)
Record Rect : Type := mkRect { X : Z; Y : Z; W : Z; H : Z }.

(** [sdl.Color], four [uint8] fields. *)
Record Color : Type := mkColor { R : Z; G : Z; B : Z; A : Z }.

End Sdl.

(** The conversion [int32(n)] of an [int]. *)
Definition int32 (n : Z) : Z := (n + 2 ^ 31) mod 2 ^ 32 - 2 ^ 31.

(** [bits.Reverse8(x)] of the Go standard library: the value of [x] with
    its bits in reversed order. *)
Definition Reverse8 (x : Z) : Z :=
  fold_right
    (fun k acc => Z.lor acc (if Z.testbit x k then Z.shiftl 1 (7 - k) else 0))
    0 [0; 1; 2; 3; 4; 5; 6; 7].

(** [pixelVal := (data & (1 << j)) >> j] on [uint8]. *)
Definition pixelVal (data j : Z) : Z :=
  Z.shiftr (Z.land data (Z.shiftl 1 j mod 256)) j.

Definition white : Sdl.Color := Sdl.mkColor 255 255 255 255.
Definition black : Sdl.Color := Sdl.mkColor 0 0 0 0.

(** The inner loop of both methods, [for j := 0; j < 8; j++], for the
    byte [b] of one row; [rect_of j] is the rectangle the method builds
    for column [j]. *)
Definition pixel_row (rect_of : Z -> Sdl.Rect) (b : Z) : list (Sdl.Rect * Sdl.Color) :=
  let data := Reverse8 b in
  map (fun j => (rect_of j, if pixelVal data j =? 1 then white else black))
      [0; 1; 2; 3; 4; 5; 6; 7].

(** The outer loop of [drawMemory], from row [i] on. *)
Fixpoint drawMemory_rows (i : Z) (g : list Z) : list (Sdl.Rect * Sdl.Color) :=
  match g with
  | [] => []
  | b :: g' =>
      pixel_row (fun j => Sdl.mkRect (int32 (j * 10)) (int32 (i * 10)) 10 10) b
        ++ drawMemory_rows (i + 1) g'
  end.

(** [func (c *Chip8) drawMemory(surface, window)] *)
Definition drawMemory (c : Chip8) : list (Sdl.Rect * Sdl.Color) :=
  drawMemory_rows 0 (gfx c).

(** Indexing with an [int]: a negative index panics as well. *)
Definition at_int (s : list Z) (i : Z) : outcome Z :=
  if i <? 0 then Panic else at_index s i.

(** The outer loop of [drawLetter], [k] rows from row [i] on. *)
Fixpoint drawLetter_rows (k : nat) (i : Z) (mem : list Z) (offset x y : Z)
    : outcome (list (Sdl.Rect * Sdl.Color)) :=
  match k with
  | O => Ok []
  | S k' =>
      do b <- at_int mem (offset + i);
      let row :=
        pixel_row (fun j => Sdl.mkRect (int32 (j * 10 + x)) (int32 (i * 10 + y)) 10 10) b in
      do rest <- drawLetter_rows k' (i + 1) mem offset x y;
      Ok (row ++ rest)
  end.

(** [func (c *Chip8) drawLetter(surface, window, offset, x, y int)] *)
Definition drawLetter (c : Chip8) (offset x y : Z) : outcome (list (Sdl.Rect * Sdl.Color)) :=
  drawLetter_rows 5 0 (memory c) offset x y.

(** * Basic facts *)

Section Outcomes.

Lemma at_index_Ok (s : list Z) (i b : Z) :
  at_index s i = Ok b <-> s !! Z.to_nat i = Some b.
Proof.
  unfold at_index. destruct (s !! Z.to_nat i) as [b'|]; split; intros H;
    try discriminate; inversion H; reflexivity.
Qed.

Lemma at_index_in_range (s : list Z) (i : Z) :
  (Z.to_nat i < length s)%nat -> exists b, at_index s i = Ok b.
Proof.
  intros Hlt. destruct (lookup_lt_is_Some_2 s (Z.to_nat i) Hlt) as [b Hb].
  exists b. now apply at_index_Ok.
Qed.

Lemma at_index_out_of_range (s : list Z) (i : Z) :
  (length s <= Z.to_nat i)%nat -> at_index s i = Panic.
Proof.
  intros Hge. unfold at_index. now rewrite (lookup_ge_None_2 s _ Hge).
Qed.

Lemma store_at_in_range (s : list Z) (i b : Z) :
  (Z.to_nat i < length s)%nat -> store_at s i b = Ok (<[Z.to_nat i := b]> s).
Proof.
  intros Hlt. unfold store_at.
  destruct (Nat.ltb_spec (Z.to_nat i) (length s)); [reflexivity | lia].
Qed.

Lemma store_at_out_of_range (s : list Z) (i b : Z) :
  (length s <= Z.to_nat i)%nat -> store_at s i b = Panic.
Proof.
  intros Hge. unfold store_at.
  destruct (Nat.ltb_spec (Z.to_nat i) (length s)); [lia | reflexivity].
Qed.

Lemma obind_Ok {A B : Type} (m : outcome A) (k : A -> outcome B) (b : B) :
  obind m k = Ok b -> exists a, m = Ok a /\ k a = Ok b.
Proof. destruct m; simpl; intros H; try discriminate. eauto. Qed.

End Outcomes.

(** ** The bit fields of an instruction word *)

Section Fields.

Lemma topNibble_div (i : Z) : topNibble i = (i / 4096) mod 16.
Proof.
  unfold topNibble. rewrite Z.shiftr_land.
  change (Z.shiftr 0xF000 12) with (Z.ones 4).
  rewrite Z.land_ones by lia. rewrite Z.shiftr_div_pow2 by lia. reflexivity.
Qed.

Lemma xreg_div (i : Z) : Z.shiftr (Z.land i 0x0F00) 8 = (i / 256) mod 16.
Proof.
  rewrite Z.shiftr_land. change (Z.shiftr 0x0F00 8) with (Z.ones 4).
  rewrite Z.land_ones by lia. rewrite Z.shiftr_div_pow2 by lia. reflexivity.
Qed.

Lemma yreg_div (i : Z) : Z.shiftr (Z.land i 0x00F0) 4 = (i / 16) mod 16.
Proof.
  rewrite Z.shiftr_land. change (Z.shiftr 0x00F0 4) with (Z.ones 4).
  rewrite Z.land_ones by lia. rewrite Z.shiftr_div_pow2 by lia. reflexivity.
Qed.

Lemma bottomNibble_mod (i : Z) : bottomNibble i = i mod 16.
Proof. unfold bottomNibble. change 0x000F with (Z.ones 4). now rewrite Z.land_ones by lia. Qed.

Lemma bottomByte_mod (i : Z) : bottomByte i = i mod 256.
Proof. unfold bottomByte. change 0x00FF with (Z.ones 8). now rewrite Z.land_ones by lia. Qed.

Lemma targetAddr_mod (i : Z) : targetAddr i = i mod 4096.
Proof. unfold targetAddr. change 0x0FFF with (Z.ones 12). now rewrite Z.land_ones by lia. Qed.

Lemma GetXReg_range (c : Chip8) : 0 <= GetXReg c < 16.
Proof. unfold GetXReg. rewrite xreg_div. apply Z.mod_pos_bound. lia. Qed.

Lemma GetYReg_range (c : Chip8) : 0 <= GetYReg c < 16.
Proof. unfold GetYReg. rewrite yreg_div. apply Z.mod_pos_bound. lia. Qed.

Lemma bottomNibble_range (i : Z) : 0 <= bottomNibble i < 16.
Proof. rewrite bottomNibble_mod. apply Z.mod_pos_bound. lia. Qed.

Lemma targetAddr_range (i : Z) : 0 <= targetAddr i < 4096.
Proof. rewrite targetAddr_mod. apply Z.mod_pos_bound. lia. Qed.

Lemma GetImm_1 (c : Chip8) : GetImm c 1 = Ok (bottomNibble (inst c)).
Proof.
  unfold GetImm. f_equal. fold (bottomNibble (inst c)).
  pose proof (bottomNibble_range (inst c)). apply Z.mod_small. lia.
Qed.

Lemma GetImm_2 (c : Chip8) : GetImm c 2 = Ok (bottomByte (inst c)).
Proof.
  unfold GetImm. f_equal. fold (bottomByte (inst c)).
  rewrite bottomByte_mod. apply Z.mod_small. apply Z.mod_pos_bound. lia.
Qed.

End Fields.

(** ** What well-formedness gives *)

Section WellFormed.

Lemma forallb_lookup (p : Z -> bool) (l : list Z) (k : nat) (b : Z) :
  forallb p l = true -> l !! k = Some b -> p b = true.
Proof.
  intros Hall Hk. rewrite forallb_forall in Hall. apply Hall.
  apply list_elem_of_In. eapply list_elem_of_lookup_2. exact Hk.
Qed.

Lemma is_u8_range (b : Z) : is_u8 b = true <-> 0 <= b < 256.
Proof. unfold is_u8. rewrite andb_true_iff, Z.leb_le, Z.ltb_lt. tauto. Qed.

Lemma is_u16_range (w : Z) : is_u16 w = true <-> 0 <= w < 65536.
Proof. unfold is_u16. rewrite andb_true_iff, Z.leb_le, Z.ltb_lt. tauto. Qed.

Variable c : Chip8.
Hypothesis Hwf : wf c.

Lemma wf_parts :
  (0 <= inst c < 65536)
  /\ length (memory c) = Z.to_nat memSize /\ forallb is_u8 (memory c) = true
  /\ length (v c) = 16%nat /\ forallb is_u8 (v c) = true
  /\ (0 <= index c < 65536)
  /\ (0 <= pc c < 65536)
  /\ length (gfx c) = Z.to_nat (64 * 32) /\ forallb is_u8 (gfx c) = true
  /\ (0 <= delayTimer c < 256)
  /\ (0 <= soundTimer c < 256)
  /\ length (stack c) = 16%nat /\ forallb is_u16 (stack c) = true
  /\ (0 <= sp c < 65536).
Proof.
  pose proof Hwf as W. unfold wf, wfb in W.
  repeat (apply andb_true_iff in W; destruct W as [W ?]).
  repeat match goal with
         | H : (_ =? _)%nat = true |- _ => apply Nat.eqb_eq in H
         | H : is_u8 _ = true |- _ => apply is_u8_range in H
         | H : is_u16 _ = true |- _ => apply is_u16_range in H
         | H : (_ <=? _) = true |- _ => apply Z.leb_le in H
         | H : (_ <? _) = true |- _ => apply Z.ltb_lt in H
         end.
  tauto.
Qed.

Lemma wf_memory_length : length (memory c) = 4096%nat.
Proof. pose proof wf_parts as P. change (Z.to_nat memSize) with 4096%nat in P. tauto. Qed.

Lemma wf_v_length : length (v c) = 16%nat.
Proof. pose proof wf_parts. tauto. Qed.

Lemma wf_gfx_length : length (gfx c) = 2048%nat.
Proof. pose proof wf_parts as P. change (Z.to_nat (64 * 32)) with 2048%nat in P. tauto. Qed.

Lemma wf_pc_range : 0 <= pc c < 65536.
Proof. pose proof wf_parts. tauto. Qed.

Lemma wf_index_range : 0 <= index c < 65536.
Proof. pose proof wf_parts. tauto. Qed.

Lemma wf_timers_range : 0 <= delayTimer c < 256 /\ 0 <= soundTimer c < 256.
Proof. pose proof wf_parts. tauto. Qed.

Lemma wf_v_byte (k : nat) (b : Z) : v c !! k = Some b -> 0 <= b < 256.
Proof.
  intros Hk. apply is_u8_range. eapply forallb_lookup; [|exact Hk].
  pose proof wf_parts. tauto.
Qed.

Lemma wf_memory_byte (k : nat) (b : Z) : memory c !! k = Some b -> 0 <= b < 256.
Proof.
  intros Hk. apply is_u8_range. eapply forallb_lookup; [|exact Hk].
  pose proof wf_parts. tauto.
Qed.

(** A register selected by a four-bit field is always there. *)
Lemma wf_reg (x : Z) :
  0 <= x < 16 -> exists a, at_index (v c) x = Ok a /\ v c !! Z.to_nat x = Some a.
Proof.
  intros Hx. destruct (at_index_in_range (v c) x) as [a Ha].
  - rewrite wf_v_length. lia.
  - exists a. split; [exact Ha | now apply at_index_Ok].
Qed.

End WellFormed.

(** ** Decoding and the frame of [dec_timers] *)

Section DecodeFacts.

Variables c d : Chip8.
Hypothesis Hwf : wf c.
Hypothesis Hdec : Decode c = Ok d.

(** A successful fetch reads two bytes inside the 4096 bytes of
    memory, and changes nothing but [inst]. *)
Lemma Decode_inv :
  exists hi lo,
    memory c !! Z.to_nat (pc c) = Some hi
    /\ memory c !! Z.to_nat (pc c + 1) = Some lo
    /\ d = with_inst c (Z.lor (RotateLeft16 hi 8) lo)
    /\ pc c + 1 < 4096.
Proof.
  pose proof (wf_pc_range c Hwf) as Hpc.
  pose proof (wf_memory_length c Hwf) as Hlen.
  unfold Decode in Hdec.
  apply obind_Ok in Hdec. destruct Hdec as (hi & Hhi & Hrest).
  apply obind_Ok in Hrest. destruct Hrest as (lo & Hlo & Heq).
  apply at_index_Ok in Hhi. apply at_index_Ok in Hlo.
  pose proof (lookup_lt_Some _ _ _ Hhi) as Hlt1.
  rewrite Hlen in Hlt1.
  assert (Hsmall : (pc c + 1) mod 65536 = pc c + 1)
    by (apply Z.mod_small; lia).
  rewrite Hsmall in Hlo.
  pose proof (lookup_lt_Some _ _ _ Hlo) as Hlt2.
  rewrite Hlen in Hlt2.
  exists hi, lo. repeat split; try assumption.
  - now inversion Heq.
  - lia.
Qed.

Lemma Decode_frame :
  memory d = memory c /\ v d = v c /\ index d = index c /\ pc d = pc c
  /\ gfx d = gfx c /\ delayTimer d = delayTimer c
  /\ soundTimer d = soundTimer c /\ stack d = stack c /\ sp d = sp c.
Proof.
  destruct Decode_inv as (hi & lo & _ & _ & -> & _). simpl. tauto.
Qed.

Lemma Decode_pc_bound : 0 <= pc d /\ pc d + 1 < 4096.
Proof.
  destruct Decode_inv as (hi & lo & _ & _ & -> & Hlt). simpl.
  pose proof (wf_pc_range c Hwf). lia.
Qed.

Lemma IncPC_after_Decode (e : Chip8) : pc e = pc c -> pc (IncPC e) = pc c + 2.
Proof.
  intros He. unfold IncPC. simpl. rewrite He.
  destruct Decode_pc_bound as [H0 H1].
  destruct Decode_frame as (_ & _ & _ & Hpc & _). rewrite Hpc in *.
  apply Z.mod_small. lia.
Qed.

Lemma IncPC_twice_after_Decode (e : Chip8) :
  pc e = pc c -> pc (IncPC (IncPC e)) = pc c + 4.
Proof.
  intros He. unfold IncPC. simpl. rewrite He.
  destruct Decode_pc_bound as [H0 H1].
  destruct Decode_frame as (_ & _ & _ & Hpc & _). rewrite Hpc in *.
  rewrite (Z.mod_small (pc c + 2)) by lia.
  rewrite Z.mod_small by lia. lia.
Qed.

(** The registers of the decoded machine selected by the two fields. *)
Lemma decoded_regs :
  exists a b,
    at_index (v d) (GetXReg d) = Ok a /\ at_index (v d) (GetYReg d) = Ok b
    /\ v c !! Z.to_nat (GetXReg d) = Some a
    /\ v c !! Z.to_nat (GetYReg d) = Some b.
Proof.
  destruct Decode_frame as (_ & Hv & _).
  destruct (wf_reg c Hwf (GetXReg d) (GetXReg_range d)) as (a & Ha & Ha').
  destruct (wf_reg c Hwf (GetYReg d) (GetYReg_range d)) as (b & Hb & Hb').
  exists a, b. rewrite Hv. tauto.
Qed.

(** A non-zero word goes through the dispatch and the timer update. *)
Lemma Execute_nonzero :
  inst d <> 0 -> Execute c = do c2 <- dispatch d; Ok (dec_timers c2).
Proof.
  intros Hnz. unfold Execute. rewrite Hdec. simpl.
  destruct (Z.eqb_spec (inst d) 0); [contradiction | reflexivity].
Qed.

Lemma Execute_zero : inst d = 0 -> Execute c = Ok d.
Proof. intros Hz. unfold Execute. rewrite Hdec. simpl. now rewrite Hz. Qed.

Lemma class_nonzero : topNibble (inst d) <> 0 -> inst d <> 0.
Proof. intros Hc Hz. apply Hc. now rewrite Hz. Qed.

End DecodeFacts.

Section TimerFrame.

Variable c : Chip8.

Lemma dec_timers_frame :
  inst (dec_timers c) = inst c /\ memory (dec_timers c) = memory c
  /\ v (dec_timers c) = v c /\ index (dec_timers c) = index c
  /\ pc (dec_timers c) = pc c /\ gfx (dec_timers c) = gfx c
  /\ stack (dec_timers c) = stack c /\ sp (dec_timers c) = sp c.
Proof.
  unfold dec_timers.
  destruct (0 <? delayTimer c); destruct (0 <? soundTimer _); simpl; tauto.
Qed.

Lemma dec_timers_delay :
  0 <= delayTimer c < 256 ->
  delayTimer (dec_timers c) = if 0 <? delayTimer c then delayTimer c - 1 else delayTimer c.
Proof.
  intros Hr. unfold dec_timers.
  destruct (Z.ltb_spec 0 (delayTimer c)); destruct (0 <? soundTimer _); simpl;
    try reflexivity; apply Z.mod_small; lia.
Qed.

Lemma dec_timers_sound :
  0 <= soundTimer c < 256 ->
  soundTimer (dec_timers c) = if 0 <? soundTimer c then soundTimer c - 1 else soundTimer c.
Proof.
  intros Hr. unfold dec_timers.
  destruct (0 <? delayTimer c); simpl;
    destruct (Z.ltb_spec 0 (soundTimer c)); simpl;
    try reflexivity; apply Z.mod_small; lia.
Qed.

End TimerFrame.

(** * The conditional skips *)

Section Skips.

Variables c d : Chip8.
Hypothesis Hwf : wf c.
Hypothesis Hdec : Decode c = Ok d.

(** What any of the four skip cases does, given the outcome [taken] of
    its test: the program counter moves, nothing else does. *)
Lemma skip_step (taken : bool) :
  inst d <> 0 ->
  dispatch d = Ok (if taken then IncPC (IncPC d) else IncPC d) ->
  exists c',
    Execute c = Ok c'
    /\ pc c' = pc c + (if taken then 4 else 2)
    /\ v c' = v c /\ memory c' = memory c /\ gfx c' = gfx c
    /\ index c' = index c /\ stack c' = stack c /\ sp c' = sp c.
Proof.
  intros Hnz Hdisp.
  destruct (Decode_frame c d Hwf Hdec) as (Hm & Hv & Hi & Hpc & Hg & _ & _ & Hst & Hsp).
  exists (dec_timers (if taken then IncPC (IncPC d) else IncPC d)).
  rewrite (Execute_nonzero c d Hdec Hnz), Hdisp. simpl.
  destruct (dec_timers_frame (if taken then IncPC (IncPC d) else IncPC d))
    as (_ & Tm & Tv & Ti & Tpc & Tg & Tst & Tsp).
  rewrite Tm, Tv, Ti, Tpc, Tg, Tst, Tsp.
  split; [reflexivity|].
  destruct taken.
  - rewrite (IncPC_twice_after_Decode c d Hwf Hdec d Hpc). simpl. tauto.
  - rewrite (IncPC_after_Decode c d Hwf Hdec d Hpc). simpl. tauto.
Qed.

End Skips.

(** C7.  For every register value and immediate, each conditional skip
    instruction (classes 0x3, 0x4, 0x5, 0x9) advances the program counter
    by exactly 4 when its condition holds (v[x] == imm, v[x] != imm,
    v[x] == v[y], v[x] != v[y] respectively) and by exactly 2 when it does
    not, and leaves the registers, the memory and the display unchanged. *)
Theorem skip_advances_pc (c d : Chip8) :
  wf c ->
  Decode c = Ok d ->
  topNibble (inst d) = 0x3 \/ topNibble (inst d) = 0x4
  \/ topNibble (inst d) = 0x5 \/ topNibble (inst d) = 0x9 ->
  exists c' vx vy,
    Execute c = Ok c'
    /\ v c !! Z.to_nat (GetXReg d) = Some vx
    /\ v c !! Z.to_nat (GetYReg d) = Some vy
    /\ pc c' = pc c + (if skip_condition (topNibble (inst d)) vx vy (bottomByte (inst d))
                       then 4 else 2)
    /\ v c' = v c /\ memory c' = memory c /\ gfx c' = gfx c.
Proof.
  intros Hwf Hdec Hclass.
  destruct (decoded_regs c d Hwf Hdec) as (vx & vy & Hx & Hy & Hx' & Hy').
  assert (Hnz : inst d <> 0).
  { apply class_nonzero. lia. }
  assert (Hstep : dispatch d =
                  Ok (if skip_condition (topNibble (inst d)) vx vy (bottomByte (inst d))
                      then IncPC (IncPC d) else IncPC d)).
  { unfold dispatch.
    destruct Hclass as [H | [H | [H | H]]]; rewrite H; cbn [skip_condition];
      rewrite ?GetImm_2; cbn [obind IncPC with_pc v];
      rewrite Hx; cbn [obind]; rewrite ?Hy; cbn [obind];
      rewrite 1?(Z.eqb_sym (bottomByte (inst d)) vx); reflexivity. }
  destruct (skip_step c d Hwf Hdec _ Hnz Hstep)
    as (c' & Hex & Hpc & Hv & Hm & Hg & _).
  exists c', vx, vy. tauto.
Qed.

(** * Bytes and words *)

Section Words.

Lemma small_high_bits (w x n : Z) :
  0 <= w -> 0 <= x < 2 ^ w -> w <= n -> Z.testbit x n = false.
Proof.
  intros Hw Hx Hn. rewrite <- (Z.mod_small x (2 ^ w)) by lia.
  apply Z.mod_pow2_bits_high. lia.
Qed.

Lemma high_bits_small (w x : Z) :
  0 <= w -> 0 <= x -> (forall n, w <= n -> Z.testbit x n = false) -> x < 2 ^ w.
Proof.
  intros Hw Hx Hbits.
  assert (Heq : x mod 2 ^ w = x).
  { apply Z.bits_inj'. intros n Hn.
    destruct (Z_lt_le_dec n w) as [Hlt | Hge].
    - now apply Z.mod_pow2_bits_low.
    - rewrite Z.mod_pow2_bits_high by lia. symmetry. now apply Hbits. }
  rewrite <- Heq. apply Z.mod_pos_bound. apply Z.pow_pos_nonneg; lia.
Qed.

Variables a b : Z.
Hypothesis Ha : 0 <= a < 256.
Hypothesis Hb : 0 <= b < 256.

Lemma lor_u8 : 0 <= Z.lor a b < 256.
Proof.
  split; [apply Z.lor_nonneg; lia|].
  apply (high_bits_small 8); [lia | apply Z.lor_nonneg; lia |].
  intros n Hn. rewrite Z.lor_spec.
  rewrite (small_high_bits 8 a n), (small_high_bits 8 b n); trivial; lia.
Qed.

Lemma land_u8 : 0 <= Z.land a b < 256.
Proof.
  split; [apply Z.land_nonneg; lia|].
  apply (high_bits_small 8); [lia | apply Z.land_nonneg; lia |].
  intros n Hn. rewrite Z.land_spec.
  rewrite (small_high_bits 8 a n); trivial; lia.
Qed.

Lemma lxor_u8 : 0 <= Z.lxor a b < 256.
Proof.
  split; [apply Z.lxor_nonneg; lia|].
  apply (high_bits_small 8); [lia | apply Z.lxor_nonneg; lia |].
  intros n Hn. rewrite Z.lxor_spec.
  rewrite (small_high_bits 8 a n), (small_high_bits 8 b n); trivial; lia.
Qed.

Lemma shiftr1_u8 : 0 <= Z.shiftr a 1 < 256.
Proof.
  rewrite Z.shiftr_div_pow2 by lia. change (2 ^ 1) with 2.
  split; [apply Z.div_pos; lia|]. apply Z.div_lt_upper_bound; lia.
Qed.

Lemma RotateLeft16_byte : RotateLeft16 a 8 = 256 * a.
Proof.
  unfold RotateLeft16. change (Z.land 8 15) with 8. change (16 - 8) with 8.
  rewrite Z.shiftl_mul_pow2, Z.shiftr_div_pow2 by lia. change (2 ^ 8) with 256.
  rewrite (Z.div_small a 256) by lia. rewrite Z.lor_0_r.
  rewrite Z.mod_small by lia. lia.
Qed.

(** The instruction word: first byte in the high-order position. *)
Lemma word_of_bytes : Z.lor (RotateLeft16 a 8) b = 256 * a + b.
Proof.
  rewrite RotateLeft16_byte. rewrite <- Z.add_lor_land.
  assert (Hz : Z.land (256 * a) b = 0).
  { apply Z.bits_inj'. intros n Hn. rewrite Z.land_spec, Z.bits_0.
    destruct (Z_lt_le_dec n 8) as [Hlt | Hge].
    - replace (256 * a) with (a * 2 ^ 8) by lia.
      now rewrite Z.mul_pow2_bits_low.
    - rewrite (small_high_bits 8 b n); [apply andb_false_r | lia | exact Hb | lia]. }
  rewrite Hz. lia.
Qed.

Lemma word_of_bytes_u16 : 0 <= Z.lor (RotateLeft16 a 8) b < 65536.
Proof. rewrite word_of_bytes. lia. Qed.

End Words.

(** ** Updates that keep a machine well formed *)

Section Preservation.

Lemma forallb_insert (p : Z -> bool) (l : list Z) (k : nat) (b : Z) :
  forallb p l = true -> p b = true -> forallb p (<[k := b]> l) = true.
Proof.
  revert k. induction l as [|a l IH]; intros k Hl Hb; [exact Hl|].
  simpl in Hl. apply andb_true_iff in Hl. destruct Hl as [Ha Hl].
  destruct k as [|k]; simpl; apply andb_true_iff; auto.
Qed.

Lemma forallb_replicate (p : Z -> bool) (n : nat) (b : Z) :
  p b = true -> forallb p (replicate n b) = true.
Proof. intros Hb. induction n as [|n IH]; simpl; [reflexivity|]. now rewrite Hb. Qed.

Lemma wf_iff (c : Chip8) :
  wf c <->
  (0 <= inst c < 65536)
  /\ length (memory c) = Z.to_nat memSize /\ forallb is_u8 (memory c) = true
  /\ length (v c) = 16%nat /\ forallb is_u8 (v c) = true
  /\ (0 <= index c < 65536)
  /\ (0 <= pc c < 65536)
  /\ length (gfx c) = Z.to_nat (64 * 32) /\ forallb is_u8 (gfx c) = true
  /\ (0 <= delayTimer c < 256)
  /\ (0 <= soundTimer c < 256)
  /\ length (stack c) = 16%nat /\ forallb is_u16 (stack c) = true
  /\ (0 <= sp c < 65536).
Proof.
  split; [apply wf_parts|]. intros P. unfold wf, wfb.
  rewrite !andb_true_iff, !Nat.eqb_eq, !is_u8_range, !is_u16_range. tauto.
Qed.

Variable c : Chip8.
Hypothesis Hwf : wf c.

Lemma wf_with_inst (i : Z) : 0 <= i < 65536 -> wf (with_inst c i).
Proof. intros Hi. apply wf_iff. apply wf_iff in Hwf. simpl. tauto. Qed.

Lemma wf_with_pc (p : Z) : 0 <= p < 65536 -> wf (with_pc c p).
Proof. intros Hp. apply wf_iff. apply wf_iff in Hwf. simpl. tauto. Qed.

Lemma wf_with_index (i : Z) : 0 <= i < 65536 -> wf (with_index c i).
Proof. intros Hi. apply wf_iff. apply wf_iff in Hwf. simpl. tauto. Qed.

Lemma wf_with_memory (m : list Z) :
  length m = length (memory c) -> forallb is_u8 m = true -> wf (with_memory c m).
Proof.
  intros Hl Hm. apply wf_iff. apply wf_iff in Hwf. simpl. rewrite Hl. tauto.
Qed.

Lemma wf_with_v (r : list Z) :
  length r = length (v c) -> forallb is_u8 r = true -> wf (with_v c r).
Proof.
  intros Hl Hr. apply wf_iff. apply wf_iff in Hwf. simpl. rewrite Hl. tauto.
Qed.

Lemma wf_with_gfx (g : list Z) :
  length g = length (gfx c) -> forallb is_u8 g = true -> wf (with_gfx c g).
Proof.
  intros Hl Hg. apply wf_iff. apply wf_iff in Hwf. simpl. rewrite Hl. tauto.
Qed.

Lemma wf_IncPC : wf (IncPC c).
Proof. apply wf_with_pc. apply Z.mod_pos_bound. lia. Qed.

Lemma wf_SetPC (i : Z) : wf (SetPC c (targetAddr i)).
Proof. apply wf_with_pc. pose proof (targetAddr_range i). lia. Qed.

Lemma wf_SetIndex : wf (SetIndex c).
Proof.
  apply wf_with_index. fold (targetAddr (inst c)).
  pose proof (targetAddr_range (inst c)). lia.
Qed.

Lemma wf_dec_timers : wf (dec_timers c).
Proof.
  destruct (dec_timers_frame c) as (Ti & Tm & Tv & Tx & Tpc & Tg & Tst & Tsp).
  destruct (wf_timers_range c Hwf) as [Hd Hs].
  apply wf_iff. apply wf_iff in Hwf.
  rewrite Ti, Tm, Tv, Tx, Tpc, Tg, Tst, Tsp.
  rewrite (dec_timers_delay c Hd), (dec_timers_sound c Hs).
  destruct (Z.ltb_spec 0 (delayTimer c)); destruct (Z.ltb_spec 0 (soundTimer c));
    intuition lia.
Qed.

Lemma wf_set_v (x b : Z) (c' : Chip8) :
  0 <= b < 256 -> set_v c x b = Ok c' -> wf c'.
Proof.
  intros Hb Hset. unfold set_v, store_at in Hset.
  destruct (Z.to_nat x <? length (v c))%nat; [|discriminate].
  simpl in Hset. inversion Hset; subst c'.
  apply wf_with_v.
  - apply length_insert.
  - apply forallb_insert; [|now apply is_u8_range].
    apply wf_iff in Hwf. tauto.
Qed.

Lemma wf_Decode (d : Chip8) : Decode c = Ok d -> wf d.
Proof.
  intros Hdec.
  destruct (Decode_inv c d Hwf Hdec) as (hi & lo & Hhi & Hlo & -> & _).
  apply wf_with_inst. apply word_of_bytes_u16.
  - exact (wf_memory_byte c Hwf _ _ Hhi).
  - exact (wf_memory_byte c Hwf _ _ Hlo).
Qed.

End Preservation.

(** * Store and read (0xFx55, 0xFx65) *)

Section StoreRead.

Variables c d : Chip8.
Hypothesis Hwf : wf c.
Hypothesis Hdec : Decode c = Ok d.
Hypothesis Hclass : topNibble (inst d) = 0xF.

Lemma store_step :
  bottomByte (inst d) = 0x55 -> index c < memSize ->
  exists a,
    v c !! Z.to_nat (GetXReg d) = Some a
    /\ Execute c = Ok (dec_timers (IncPC (with_memory d (<[Z.to_nat (index c) := a]> (memory c))))).
Proof.
  intros Hop Hidx.
  destruct (decoded_regs c d Hwf Hdec) as (a & _ & Ha & _ & Ha' & _).
  destruct (Decode_frame c d Hwf Hdec) as (Hm & _ & Hi & _).
  exists a. split; [exact Ha'|].
  rewrite (Execute_nonzero c d Hdec) by (apply class_nonzero; lia).
  unfold dispatch. rewrite Hclass, Hop. cbn [obind].
  rewrite Ha. cbn [obind]. rewrite Hm, Hi.
  rewrite store_at_in_range; [reflexivity|].
  rewrite (wf_memory_length c Hwf). pose proof (wf_index_range c Hwf).
  unfold memSize in Hidx. lia.
Qed.

Lemma read_step :
  bottomByte (inst d) = 0x65 -> index c < memSize ->
  exists b,
    memory c !! Z.to_nat (index c) = Some b
    /\ Execute c = Ok (dec_timers (IncPC (with_v d (<[Z.to_nat (GetXReg d) := b]> (v c))))).
Proof.
  intros Hop Hidx.
  destruct (Decode_frame c d Hwf Hdec) as (Hm & Hv & Hi & _).
  destruct (at_index_in_range (memory c) (index c)) as [b Hb].
  { rewrite (wf_memory_length c Hwf). pose proof (wf_index_range c Hwf).
    unfold memSize in Hidx. lia. }
  exists b. split; [now apply at_index_Ok|].
  rewrite (Execute_nonzero c d Hdec) by (apply class_nonzero; lia).
  unfold dispatch. rewrite Hclass, Hop. cbn [obind].
  rewrite Hm, Hi, Hb. cbn [obind]. unfold set_v. rewrite Hv.
  rewrite store_at_in_range; [reflexivity|].
  rewrite (wf_v_length c Hwf). pose proof (GetXReg_range d). lia.
Qed.

(** An index register that points outside the memory makes either
    instruction panic. *)
Lemma store_read_out_of_range :
  bottomByte (inst d) = 0x55 \/ bottomByte (inst d) = 0x65 ->
  memSize <= index c -> Execute c = Panic.
Proof.
  intros Hop Hidx.
  destruct (decoded_regs c d Hwf Hdec) as (a & _ & Ha & _).
  destruct (Decode_frame c d Hwf Hdec) as (Hm & _ & Hi & _).
  rewrite (Execute_nonzero c d Hdec) by (apply class_nonzero; lia).
  assert (Hlen : (length (memory c) <= Z.to_nat (index c))%nat).
  { rewrite (wf_memory_length c Hwf). unfold memSize in Hidx. lia. }
  unfold dispatch. rewrite Hclass.
  destruct Hop as [Hop | Hop]; rewrite Hop; cbn [obind].
  - rewrite Ha. cbn [obind]. rewrite Hm, Hi.
    now rewrite store_at_out_of_range.
  - rewrite Hm, Hi. now rewrite at_index_out_of_range.
Qed.

End StoreRead.

(** C9.  Store (0xFx55) and read (0xFx65) each transfer exactly one byte:
    store writes v[x] to memory[index] and to no other memory cell, and
    changes no register; read writes memory[index] to v[x] and to no other
    register, and changes no memory cell; the index register, the stack
    and the stack pointer are unchanged by both. *)
Theorem store_read_single_byte (c d : Chip8) :
  wf c ->
  Decode c = Ok d ->
  topNibble (inst d) = 0xF ->
  index c < memSize ->
  (bottomByte (inst d) = 0x55 ->
   exists c' a,
     Execute c = Ok c'
     /\ v c !! Z.to_nat (GetXReg d) = Some a
     /\ memory c' = <[Z.to_nat (index c) := a]> (memory c)
     /\ (forall k, k <> Z.to_nat (index c) -> memory c' !! k = memory c !! k)
     /\ v c' = v c
     /\ index c' = index c /\ stack c' = stack c /\ sp c' = sp c)
  /\
  (bottomByte (inst d) = 0x65 ->
   exists c' b,
     Execute c = Ok c'
     /\ memory c !! Z.to_nat (index c) = Some b
     /\ v c' = <[Z.to_nat (GetXReg d) := b]> (v c)
     /\ (forall k, k <> Z.to_nat (GetXReg d) -> v c' !! k = v c !! k)
     /\ memory c' = memory c
     /\ index c' = index c /\ stack c' = stack c /\ sp c' = sp c).
Proof.
  intros Hwf Hdec Hclass Hidx.
  destruct (Decode_frame c d Hwf Hdec) as (Hm & Hv & Hi & _ & _ & _ & _ & Hst & Hsp).
  split; intros Hop.
  - destruct (store_step c d Hwf Hdec Hclass Hop Hidx) as (a & Ha & Hex).
    eexists; exists a. split; [exact Hex|].
    match goal with |- context [dec_timers ?e] =>
      destruct (dec_timers_frame e) as (_ & Tm & Tv & Ti & _ & _ & Tst & Tsp) end.
    rewrite Tm, Tv, Ti, Tst, Tsp. simpl.
    repeat split; try assumption.
    intros k Hk. now apply list_lookup_insert_ne.
  - destruct (read_step c d Hwf Hdec Hclass Hop Hidx) as (b & Hb & Hex).
    eexists; exists b. split; [exact Hex|].
    match goal with |- context [dec_timers ?e] =>
      destruct (dec_timers_frame e) as (_ & Tm & Tv & Ti & _ & _ & Tst & Tsp) end.
    rewrite Tm, Tv, Ti, Tst, Tsp. simpl.
    repeat split; try assumption.
    intros k Hk. now apply list_lookup_insert_ne.
Qed.

(** C8.  Store/read round trip: executing the store opcode 0xFx55 and then
    the read opcode 0xFx65 for the same register, the index register being
    the same (no instruction in between changes it), leaves v[x] equal to
    its original value. *)
Theorem store_read_roundtrip (c d : Chip8) :
  wf c ->
  Decode c = Ok d ->
  topNibble (inst d) = 0xF ->
  bottomByte (inst d) = 0x55 ->
  index c < memSize ->
  exists c1 a,
    Execute c = Ok c1
    /\ v c !! Z.to_nat (GetXReg d) = Some a
    /\ memory c1 !! Z.to_nat (index c) = Some a
    /\ index c1 = index c
    /\ forall d1,
        Decode c1 = Ok d1 ->
        topNibble (inst d1) = 0xF ->
        bottomByte (inst d1) = 0x65 ->
        GetXReg d1 = GetXReg d ->
        exists c2,
          Execute c1 = Ok c2
          /\ v c2 !! Z.to_nat (GetXReg d) = Some a
          /\ v c2 = v c.
Proof.
  intros Hwf Hdec Hclass Hop Hidx.
  destruct (store_step c d Hwf Hdec Hclass Hop Hidx) as (a & Ha & Hex).
  destruct (Decode_frame c d Hwf Hdec) as (Hm & Hv & Hi & _).
  set (m1 := <[Z.to_nat (index c) := a]> (memory c)) in *.
  set (c1 := dec_timers (IncPC (with_memory d m1))) in *.
  assert (Hlt : (Z.to_nat (index c) < length (memory c))%nat).
  { rewrite (wf_memory_length c Hwf). pose proof (wf_index_range c Hwf).
    unfold memSize in Hidx. lia. }
  assert (Hwf1 : wf c1).
  { apply wf_dec_timers, wf_IncPC, wf_with_memory.
    - now apply (wf_Decode c).
    - unfold m1. rewrite length_insert. now rewrite Hm.
    - unfold m1. apply forallb_insert.
      + apply wf_iff in Hwf. tauto.
      + apply is_u8_range. exact (wf_v_byte c Hwf _ _ Ha). }
  destruct (dec_timers_frame (IncPC (with_memory d m1)))
    as (_ & Tm & Tv & Ti & _).
  fold c1 in Tm, Tv, Ti. simpl in Tm, Tv, Ti.
  assert (Hmem1 : memory c1 !! Z.to_nat (index c) = Some a).
  { rewrite Tm. unfold m1. now apply list_lookup_insert_eq. }
  exists c1, a. repeat split; try assumption.
  - now rewrite Ti.
  - intros d1 Hdec1 Hclass1 Hop1 Hx.
    assert (Hidx1 : index c1 < memSize) by (rewrite Ti, Hi; exact Hidx).
    destruct (read_step c1 d1 Hwf1 Hdec1 Hclass1 Hop1 Hidx1) as (b & Hb & Hex1).
    rewrite Ti, Hi, Hmem1 in Hb. inversion Hb; subst b.
    eexists. split; [exact Hex1|].
    match goal with |- context [dec_timers ?e] =>
      destruct (dec_timers_frame e) as (_ & _ & Tv2 & _) end.
    rewrite Tv2. simpl. rewrite Tv, Hv, Hx.
    assert (Hid : <[Z.to_nat (GetXReg d) := a]> (v c) = v c)
      by (now apply list_insert_id).
    rewrite Hid. split; [exact Ha | reflexivity].
Qed.

(** * Call and return *)

Section CallReturn.

Variables c d : Chip8.
Hypothesis Hwf : wf c.
Hypothesis Hdec : Decode c = Ok d.

(** [case 0x2] is the same statement as [case 0x1]: a jump. *)
Lemma call_step :
  topNibble (inst d) = 0x2 ->
  Execute c = Ok (dec_timers (SetPC d (targetAddr (inst d)))).
Proof.
  intros Hclass.
  rewrite (Execute_nonzero c d Hdec) by (apply class_nonzero; lia).
  unfold dispatch. rewrite Hclass. reflexivity.
Qed.

Lemma jump_step :
  topNibble (inst d) = 0x1 ->
  Execute c = Ok (dec_timers (SetPC d (targetAddr (inst d)))).
Proof.
  intros Hclass.
  rewrite (Execute_nonzero c d Hdec) by (apply class_nonzero; lia).
  unfold dispatch. rewrite Hclass. reflexivity.
Qed.

(** [case 0xE] of class 0x0 prints and falls through to [IncPC]. *)
Lemma ret_step : inst d = 0x00EE -> Execute c = Ok (dec_timers (IncPC d)).
Proof.
  intros Hinst.
  rewrite (Execute_nonzero c d Hdec) by (rewrite Hinst; discriminate).
  unfold dispatch. rewrite Hinst. reflexivity.
Qed.

End CallReturn.

(** C2, as the code has it.  A call instruction (class 0x2) sets the
    program counter to the 12-bit address and writes neither the stack nor
    the stack pointer; the return instruction 0x00EE advances the program
    counter by 2 and reads neither.  So a call followed at once by the
    return found at its target leaves the program counter at the target
    address plus 2, and the stack pointer at its value before the call. *)
Theorem call_then_return (c d : Chip8) :
  wf c ->
  Decode c = Ok d ->
  topNibble (inst d) = 0x2 ->
  exists c1,
    Execute c = Ok c1
    /\ pc c1 = targetAddr (inst d)
    /\ stack c1 = stack c /\ sp c1 = sp c
    /\ forall d1,
        Decode c1 = Ok d1 ->
        inst d1 = 0x00EE ->
        exists c2,
          Execute c1 = Ok c2
          /\ pc c2 = targetAddr (inst d) + 2
          /\ stack c2 = stack c /\ sp c2 = sp c.
Proof.
  intros Hwf Hdec Hclass.
  destruct (Decode_frame c d Hwf Hdec) as (_ & _ & _ & _ & _ & _ & _ & Hst & Hsp).
  set (c1 := dec_timers (SetPC d (targetAddr (inst d)))).
  destruct (dec_timers_frame (SetPC d (targetAddr (inst d))))
    as (_ & _ & _ & _ & Tpc & _ & Tst & Tsp).
  fold c1 in Tpc, Tst, Tsp. simpl in Tpc, Tst, Tsp.
  assert (Hwf1 : wf c1).
  { apply wf_dec_timers, wf_SetPC. now apply (wf_Decode c). }
  exists c1. split; [now apply call_step|].
  repeat split; try congruence.
  intros d1 Hdec1 Hret.
  destruct (Decode_frame c1 d1 Hwf1 Hdec1) as (_ & _ & _ & Hpc1 & _ & _ & _ & Hst1 & Hsp1).
  exists (dec_timers (IncPC d1)). split; [now apply ret_step|].
  destruct (dec_timers_frame (IncPC d1)) as (_ & _ & _ & _ & Upc & _ & Ust & Usp).
  rewrite Upc, Ust, Usp.
  rewrite (IncPC_after_Decode c1 d1 Hwf1 Hdec1 d1 Hpc1). simpl.
  repeat split; congruence.
Qed.

(** * The register-register instructions (class 0x8) *)

(** A four-bit field takes one of sixteen values. *)
Lemma nibble_cases (k : Z) :
  0 <= k < 16 ->
  k = 0x0 \/ k = 0x1 \/ k = 0x2 \/ k = 0x3 \/ k = 0x4 \/ k = 0x5 \/ k = 0x6 \/ k = 0x7
  \/ k = 0x8 \/ k = 0x9 \/ k = 0xA \/ k = 0xB \/ k = 0xC \/ k = 0xD \/ k = 0xE \/ k = 0xF.
Proof. lia. Qed.

(** The test [add > 255] is made on a [uint8] and never succeeds. *)
Lemma carry_test_false (a b : Z) : (255 <? (a + b) mod 256) = false.
Proof.
  apply Z.ltb_ge. pose proof (Z.mod_pos_bound (a + b) 256). lia.
Qed.

Lemma add_mask (a b : Z) : Z.land ((a + b) mod 256) 0xFF mod 256 = (a + b) mod 256.
Proof.
  change 0xFF with (Z.ones 8). rewrite Z.land_ones by lia.
  change (2 ^ 8) with 256. now rewrite !Z.mod_mod by lia.
Qed.

(** [Math8] writes [alu_result] to v[x], or nothing. *)
Lemma Math8_alu (c : Chip8) (a b : Z) :
  at_index (v c) (GetXReg c) = Ok a ->
  at_index (v c) (GetYReg c) = Ok b ->
  Math8 c = match alu_result (bottomNibble (inst c)) a b with
            | Some r => set_v c (GetXReg c) r
            | None => Ok c
            end.
Proof.
  intros Ha Hb. unfold Math8. rewrite Ha, Hb. cbn [obind].
  destruct (nibble_cases _ (bottomNibble_range (inst c)))
    as [H|[H|[H|[H|[H|[H|[H|[H|[H|[H|[H|[H|[H|[H|[H|H]]]]]]]]]]]]]]];
    rewrite H; cbn [alu_result];
    rewrite ?carry_test_false, ?add_mask; reflexivity.
Qed.

(** The value written is a byte again. *)
Lemma alu_result_u8 (sub a b r : Z) :
  0 <= a < 256 -> 0 <= b < 256 -> alu_result sub a b = Some r -> 0 <= r < 256.
Proof.
  intros Ha Hb Hres. unfold alu_result in Hres.
  destruct sub as [|p|p]; try discriminate;
    [| do 4 (try (destruct p as [p|p|]; try discriminate))];
    inversion Hres; subst r;
    auto using lor_u8, land_u8, lxor_u8, shiftr1_u8;
    apply Z.mod_pos_bound; lia.
Qed.

Section Alu.

Variables c d : Chip8.
Hypothesis Hwf : wf c.
Hypothesis Hdec : Decode c = Ok d.
Hypothesis Hclass : topNibble (inst d) = 0x8.

Lemma alu_step (r : Z) :
  forall a b,
    v c !! Z.to_nat (GetXReg d) = Some a ->
    v c !! Z.to_nat (GetYReg d) = Some b ->
    alu_result (bottomNibble (inst d)) a b = Some r ->
    Execute c = Ok (dec_timers (IncPC (with_v d (<[Z.to_nat (GetXReg d) := r]> (v c))))).
Proof.
  intros a b Ha Hb Hres.
  destruct (Decode_frame c d Hwf Hdec) as (_ & Hv & _).
  rewrite (Execute_nonzero c d Hdec) by (apply class_nonzero; lia).
  unfold dispatch. rewrite Hclass. cbv beta iota zeta.
  rewrite (Math8_alu d a b), Hres by (rewrite Hv; now apply at_index_Ok).
  unfold set_v. rewrite Hv. rewrite store_at_in_range; [reflexivity|].
  rewrite (wf_v_length c Hwf). pose proof (GetXReg_range d). lia.
Qed.

(** The sub-fields without a case leave the registers alone. *)
Lemma alu_no_case :
  (forall a b, alu_result (bottomNibble (inst d)) a b = None) ->
  Execute c = Ok (dec_timers (IncPC d)).
Proof.
  intros Hres.
  destruct (decoded_regs c d Hwf Hdec) as (a & b & Ha & Hb & _).
  rewrite (Execute_nonzero c d Hdec) by (apply class_nonzero; lia).
  unfold dispatch. rewrite Hclass. cbv beta iota zeta.
  rewrite (Math8_alu d a b Ha Hb), Hres. reflexivity.
Qed.

End Alu.

(** C4, as the code has it.  The two shift cases of [Math8] write the
    shifted value to v[x] and nothing else: 0x8xy6 sets v[x] to v[x] >> 1
    and 0x8xyE sets v[x] to (v[x] << 1) mod 256, whatever the other
    register holds; no register other than v[x] changes, so vF keeps its
    value (unless x is 0xF) and does not receive the bit shifted out. *)
Theorem shift_results (c d : Chip8) :
  wf c ->
  Decode c = Ok d ->
  topNibble (inst d) = 0x8 ->
  bottomNibble (inst d) = 0x6 \/ bottomNibble (inst d) = 0xE ->
  exists c' a,
    Execute c = Ok c'
    /\ v c !! Z.to_nat (GetXReg d) = Some a
    /\ v c' !! Z.to_nat (GetXReg d)
       = Some (if bottomNibble (inst d) =? 0x6 then Z.shiftr a 1 else Z.shiftl a 1 mod 256)
    /\ (forall k, k <> Z.to_nat (GetXReg d) -> v c' !! k = v c !! k)
    /\ pc c' = pc c + 2.
Proof.
  intros Hwf Hdec Hclass Hsub.
  destruct (decoded_regs c d Hwf Hdec) as (a & b & _ & _ & Ha & Hb).
  destruct (Decode_frame c d Hwf Hdec) as (_ & _ & _ & Hpc & _).
  set (r := if bottomNibble (inst d) =? 0x6 then Z.shiftr a 1 else Z.shiftl a 1 mod 256).
  assert (Hres : alu_result (bottomNibble (inst d)) a b = Some r).
  { unfold r. destruct Hsub as [H | H]; rewrite H; reflexivity. }
  pose proof (alu_step c d Hwf Hdec Hclass r a b Ha Hb Hres) as Hex.
  eexists; exists a. split; [exact Hex|].
  match goal with |- context [dec_timers ?e] =>
    destruct (dec_timers_frame e) as (_ & _ & Tv & _ & Tpc & _) end.
  rewrite Tv, Tpc. cbn [v with_v IncPC with_pc].
  repeat split.
  - exact Ha.
  - apply list_lookup_insert_eq. rewrite (wf_v_length c Hwf).
    pose proof (GetXReg_range d). lia.
  - intros k Hk. now apply list_lookup_insert_ne.
  - apply (IncPC_after_Decode c d Hwf Hdec (with_v d _)). exact Hpc.
Qed.

(** The add case, in general: v[x] receives the sum modulo 256 and no
    other register changes; the carry never reaches vF. *)
Lemma add_result (c d : Chip8) :
  wf c ->
  Decode c = Ok d ->
  topNibble (inst d) = 0x8 ->
  bottomNibble (inst d) = 0x4 ->
  exists c' a b,
    Execute c = Ok c'
    /\ v c !! Z.to_nat (GetXReg d) = Some a
    /\ v c !! Z.to_nat (GetYReg d) = Some b
    /\ v c' = <[Z.to_nat (GetXReg d) := (a + b) mod 256]> (v c).
Proof.
  intros Hwf Hdec Hclass Hsub.
  destruct (decoded_regs c d Hwf Hdec) as (a & b & _ & _ & Ha & Hb).
  assert (Hres : alu_result (bottomNibble (inst d)) a b = Some ((a + b) mod 256))
    by (rewrite Hsub; reflexivity).
  pose proof (alu_step c d Hwf Hdec Hclass _ a b Ha Hb Hres) as Hex.
  eexists; exists a, b. split; [exact Hex|].
  match goal with |- context [dec_timers ?e] =>
    destruct (dec_timers_frame e) as (_ & _ & Tv & _) end.
  rewrite Tv. simpl. tauto.
Qed.

(** * What no instruction touches *)

Lemma topNibble_range (i : Z) : 0 <= topNibble i < 16.
Proof. rewrite topNibble_div. apply Z.mod_pos_bound. lia. Qed.

(** The [switch bottom] of class 0xF has two cases. *)
Lemma switch_F_default {T : Type} (bb : Z) (A B C : T) :
  bb <> 0x55 -> bb <> 0x65 ->
  match bb with 0x55 => A | 0x65 => B | _ => C end = C.
Proof.
  intros H1 H2. destruct bb as [|p|p]; try reflexivity.
  do 7 (try (destruct p as [p|p|]; try reflexivity)); congruence.
Qed.

(** * The draw instruction (class 0xD) *)

Lemma mod256_shift_ne (a t : Z) : 0 < t < 256 -> a mod 256 <> (a + t) mod 256.
Proof. intros Ht. Z.div_mod_to_equations. lia. Qed.

Lemma target_lt (x y j : Z) : (gfx_target x y j < 256)%nat.
Proof.
  unfold gfx_target. pose proof (Z.mod_pos_bound (64 * x + y + j) 256). lia.
Qed.

(** Started at or past the bound, the loop does nothing. *)
Lemma draw_loop_skips (mem : list Z) (bound x y : Z) (fuel : nat) (i j : Z) (g : list Z) :
  bound <= i -> draw_loop fuel mem bound x y i j g = Ok g.
Proof.
  intros Hge. assert (Hdone : (i <? bound) = false) by (apply Z.ltb_ge; lia).
  destruct fuel; simpl; now rewrite Hdone.
Qed.

Section DrawLoop.

Variables (mem : list Z) (bound x y : Z).
Hypothesis Hbound : bound <= 256.
Hypothesis Hmem : (Z.to_nat bound <= length mem)%nat.


(** The loop runs [cnt = max 0 (bound - i)] times, never panics and never
    needs more fuel than that.  Step [t] copies [mem[i+t]] to the element
    [gfx_target x y (j+t)]; every other element keeps its value. *)
Lemma draw_loop_copies (cnt : nat) :
  forall (fuel : nat) (i j : Z) (g : list Z),
    Z.of_nat cnt = Z.max 0 (bound - i) ->
    (cnt <= fuel)%nat ->
    0 <= i -> 0 <= j -> j + Z.of_nat cnt < 256 ->
    (256 <= length g)%nat ->
    exists g',
      draw_loop fuel mem bound x y i j g = Ok g'
      /\ length g' = length g
      /\ (forall t, 0 <= t < Z.of_nat cnt ->
                    g' !! gfx_target x y (j + t) = mem !! Z.to_nat (i + t))
      /\ (forall k, (forall t, 0 <= t < Z.of_nat cnt -> k <> gfx_target x y (j + t)) ->
                    g' !! k = g !! k)
      /\ (forallb is_u8 mem = true -> forallb is_u8 g = true ->
          forallb is_u8 g' = true).
Proof.
  induction cnt as [|cnt IH]; intros fuel i j g Hcnt Hfuel Hi Hj Hjc Hg.
  - exists g.
    assert (Hdone : (i <? bound) = false) by (apply Z.ltb_ge; lia).
    destruct fuel; simpl; rewrite Hdone.
    all: repeat split; trivial; intros; lia.
  - destruct fuel as [|fuel]; [lia|].
    assert (Hgo : (i <? bound) = true) by (apply Z.ltb_lt; lia).
    simpl. rewrite Hgo.
    destruct (at_index_in_range mem i) as [b Hb]; [lia|].
    rewrite Hb. cbn [obind].
    rewrite store_at_in_range by (pose proof (target_lt x y j); unfold gfx_target in *; lia).
    cbn [obind]. fold (gfx_target x y j).
    rewrite (Z.mod_small (i + 1)) by lia.
    rewrite (Z.mod_small (j + 1)) by lia.
    destruct (IH fuel (i + 1) (j + 1) (<[gfx_target x y j := b]> g))
      as (g' & Hrun & Hlen & Hcopy & Hrest & Hbytes);
      try lia.
    { rewrite length_insert. exact Hg. }
    exists g'. split; [exact Hrun|].
    apply at_index_Ok in Hb.
    repeat split.
    + rewrite Hlen. apply length_insert.
    + intros t Ht. destruct (Z.eq_dec t 0) as [-> | Hne].
      * rewrite Z.add_0_r, Hrest.
        -- rewrite Z.add_0_r, Hb. apply list_lookup_insert_eq.
           pose proof (target_lt x y j). lia.
        -- intros t Ht' Heq. unfold gfx_target in Heq.
           apply Z2Nat.inj in Heq; try (apply Z.mod_pos_bound; lia).
           replace (64 * x + y + (j + 1 + t)) with (64 * x + y + j + (1 + t)) in Heq by lia.
           apply (mod256_shift_ne (64 * x + y + j) (1 + t)); [lia | exact Heq].
      * replace (j + t) with (j + 1 + (t - 1)) by lia.
        replace (i + t) with (i + 1 + (t - 1)) by lia.
        apply Hcopy. lia.
    + intros k Hk. rewrite Hrest.
      * apply list_lookup_insert_ne. specialize (Hk 0).
        rewrite Z.add_0_r in Hk. intros Heq. apply Hk; [lia | congruence].
      * intros t Ht. replace (j + 1 + t) with (j + (t + 1)) by lia.
        apply Hk. lia.
    + intros Hm Hgb. apply Hbytes; [exact Hm|].
      apply forallb_insert; [exact Hgb|].
      exact (forallb_lookup _ _ _ _ Hm Hb).
Qed.

End DrawLoop.

Section Draw.

Variables c d : Chip8.
Hypothesis Hwf : wf c.
Hypothesis Hdec : Decode c = Ok d.
Hypothesis Hclass : topNibble (inst d) = 0xD.

(** When the sprite lies below address 256 the loop bound is
    [index + n] and the loop copies the [n] sprite bytes. *)
Lemma draw_step :
  index c + bottomNibble (inst d) < 256 ->
  exists g vx vy,
    Execute c = Ok (dec_timers (IncPC (with_gfx d g)))
    /\ v c !! Z.to_nat (GetXReg d) = Some vx
    /\ v c !! Z.to_nat (GetYReg d) = Some vy
    /\ length g = length (gfx c)
    /\ (forall t, 0 <= t < bottomNibble (inst d) ->
                  g !! gfx_target vx vy t = memory c !! Z.to_nat (index c + t))
    /\ (forall k, (forall t, 0 <= t < bottomNibble (inst d) -> k <> gfx_target vx vy t) ->
                  g !! k = gfx c !! k)
    /\ forallb is_u8 g = true.
Proof.
  intros Hlow.
  destruct (decoded_regs c d Hwf Hdec) as (vx & vy & Hx & Hy & Hx' & Hy').
  destruct (Decode_frame c d Hwf Hdec) as (Hm & _ & Hi & _ & Hg & _).
  pose proof (bottomNibble_range (inst d)) as Hn.
  pose proof (wf_index_range c Hwf) as Hidx.
  set (n := bottomNibble (inst d)) in *.
  assert (Hb : (n + index c mod 256) mod 256 = index c + n).
  { rewrite (Z.mod_small (index c)) by lia. rewrite Z.mod_small by lia. lia. }
  assert (Hmemlen : (Z.to_nat (index c + n) <= length (memory c))%nat)
    by (rewrite (wf_memory_length c Hwf); lia).
  assert (Hgfxlen : (256 <= length (gfx c))%nat)
    by (rewrite (wf_gfx_length c Hwf); lia).
  destruct (draw_loop_copies (memory c) (index c + n) vx vy ltac:(lia) Hmemlen
              (Z.to_nat n) 256%nat (index c) 0 (gfx c))
    as (g & Hrun & Hlen & Hcopy & Hrest & Hbytes); try lia.
  exists g, vx, vy.
  rewrite Z2Nat.id in Hcopy, Hrest by lia.
  split.
  { rewrite (Execute_nonzero c d Hdec) by (apply class_nonzero; lia).
    unfold dispatch. rewrite Hclass. cbv beta iota zeta.
    unfold draw. rewrite Hx, Hy, GetImm_1. cbn [obind].
    fold n. rewrite Hi, Hm, Hg, Hb, Hrun. reflexivity. }
  split; [exact Hx'|]. split; [exact Hy'|]. split; [exact Hlen|].
  split; [|split].
  - intros t Ht. rewrite <- (Z.add_0_l t) at 1. now apply Hcopy.
  - intros k Hk. apply Hrest. intros t Ht. rewrite Z.add_0_l. now apply Hk.
  - apply Hbytes; apply wf_iff in Hwf; tauto.
Qed.

(** Otherwise the bound, a [uint8], is below the [uint16] start address
    and no byte is copied. *)
Lemma draw_skipped :
  256 <= index c + bottomNibble (inst d) ->
  Execute c = Ok (dec_timers (IncPC (with_gfx d (gfx c)))).
Proof.
  intros Hhigh.
  destruct (decoded_regs c d Hwf Hdec) as (vx & vy & Hx & Hy & _).
  destruct (Decode_frame c d Hwf Hdec) as (Hm & _ & Hi & _ & Hg & _).
  pose proof (bottomNibble_range (inst d)) as Hn.
  pose proof (wf_index_range c Hwf) as Hidx.
  rewrite (Execute_nonzero c d Hdec) by (apply class_nonzero; lia).
  unfold dispatch. rewrite Hclass. cbv beta iota zeta.
  unfold draw. rewrite Hx, Hy, GetImm_1. cbn [obind].
  rewrite Hi, Hm, Hg. rewrite draw_loop_skips; [reflexivity|].
  set (n := bottomNibble (inst d)) in *.
  Z.div_mod_to_equations. lia.
Qed.

End Draw.

(** C1, as the code has it.  For a draw instruction (class 0xD) with
    n = immNibble whose sprite lies below address 256 (index + n < 256),
    the executor copies the n bytes memory[index .. index+n) into the
    elements (64*v[x] + v[y] + j) mod 256, j = 0 .. n-1, of the display
    buffer, each byte replacing the element (no XOR, no coordinate
    wrap-around at 64 and 32); the other elements, every register (vF
    included) and the memory are unchanged, and the program counter
    advances by exactly 2. *)
Theorem draw_copies_sprite (c d : Chip8) :
  wf c ->
  Decode c = Ok d ->
  topNibble (inst d) = 0xD ->
  index c + bottomNibble (inst d) < 256 ->
  exists c' vx vy,
    Execute c = Ok c'
    /\ v c !! Z.to_nat (GetXReg d) = Some vx
    /\ v c !! Z.to_nat (GetYReg d) = Some vy
    /\ (forall j, 0 <= j < bottomNibble (inst d) ->
                  gfx c' !! gfx_target vx vy j = memory c !! Z.to_nat (index c + j))
    /\ (forall k, (forall j, 0 <= j < bottomNibble (inst d) -> k <> gfx_target vx vy j) ->
                  gfx c' !! k = gfx c !! k)
    /\ v c' = v c /\ memory c' = memory c
    /\ pc c' = pc c + 2.
Proof.
  intros Hwf Hdec Hclass Hlow.
  destruct (draw_step c d Hwf Hdec Hclass Hlow)
    as (g & vx & vy & Hex & Hx & Hy & _ & Hcopy & Hrest & _).
  destruct (Decode_frame c d Hwf Hdec) as (Hm & Hv & _ & Hpc & _).
  exists (dec_timers (IncPC (with_gfx d g))), vx, vy.
  destruct (dec_timers_frame (IncPC (with_gfx d g)))
    as (_ & Tm & Tv & _ & Tpc & Tg & _).
  rewrite Tm, Tv, Tpc, Tg. cbn [gfx memory v IncPC with_pc with_gfx].
  repeat split; trivial.
  apply (IncPC_after_Decode c d Hwf Hdec (with_gfx d g)). exact Hpc.
Qed.

(** * Every instruction: termination, invariant, frame *)

(** The draw case always returns, whatever the sprite address. *)
Lemma draw_outcome (d : Chip8) :
  wf d ->
  exists g,
    draw d = Ok (with_gfx d g)
    /\ length g = length (gfx d) /\ forallb is_u8 g = true.
Proof.
  intros Hwf.
  destruct (wf_reg d Hwf (GetXReg d) (GetXReg_range d)) as (vx & Hx & _).
  destruct (wf_reg d Hwf (GetYReg d) (GetYReg_range d)) as (vy & Hy & _).
  pose proof (bottomNibble_range (inst d)) as Hn.
  pose proof (wf_index_range d Hwf) as Hidx.
  unfold draw. rewrite Hx, Hy, GetImm_1. cbn [obind].
  set (n := bottomNibble (inst d)) in *.
  destruct (Z_lt_le_dec (index d + n) 256) as [Hlow | Hhigh].
  - assert (Hb : (n + index d mod 256) mod 256 = index d + n).
    { rewrite (Z.mod_small (index d)) by lia. rewrite Z.mod_small by lia. lia. }
    assert (Hmemlen : (Z.to_nat (index d + n) <= length (memory d))%nat)
      by (rewrite (wf_memory_length d Hwf); lia).
    destruct (draw_loop_copies (memory d) (index d + n) vx vy ltac:(lia) Hmemlen
                (Z.to_nat n) 256%nat (index d) 0 (gfx d))
      as (g & Hrun & Hlen & _ & _ & Hbytes); try lia.
    { rewrite (wf_gfx_length d Hwf). lia. }
    exists g. rewrite Hb, Hrun. cbn [obind].
    repeat split; trivial. apply Hbytes; apply wf_iff in Hwf; tauto.
  - exists (gfx d). rewrite draw_loop_skips.
    + repeat split; trivial. apply wf_iff in Hwf. tauto.
    + Z.div_mod_to_equations. lia.
Qed.

Lemma same_control_refl (d : Chip8) : same_control d d.
Proof. unfold same_control. tauto. Qed.

Section Dispatch.

Variable d : Chip8.
Hypothesis Hwf : wf d.

Lemma set_v_outcome (b : Z) :
  0 <= b < 256 ->
  exists e, set_v d (GetXReg d) b = Ok e /\ wf e /\ same_control d e
            /\ pc e = pc d.
Proof.
  intros Hb. unfold set_v.
  rewrite store_at_in_range
    by (rewrite (wf_v_length d Hwf); pose proof (GetXReg_range d); lia).
  eexists. split; [reflexivity|]. split.
  - apply (wf_set_v d Hwf (GetXReg d) b); [exact Hb|].
    unfold set_v. rewrite store_at_in_range; [reflexivity|].
    rewrite (wf_v_length d Hwf). pose proof (GetXReg_range d). lia.
  - unfold same_control. simpl. tauto.
Qed.

(** Every case of the dispatch returns a well-formed machine with the
    same timers, stack and stack pointer, except store and read with an
    index register outside the memory, which panic. *)
Lemma dispatch_outcome :
  (exists e, dispatch d = Ok e /\ wf e /\ same_control d e)
  \/ (dispatch d = Panic /\ memSize <= index d /\ topNibble (inst d) = 0xF
      /\ (bottomByte (inst d) = 0x55 \/ bottomByte (inst d) = 0x65)).
Proof.
  destruct (wf_reg d Hwf (GetXReg d) (GetXReg_range d)) as (a & Ha & Ha').
  destruct (wf_reg d Hwf (GetYReg d) (GetYReg_range d)) as (b & Hb & Hb').
  pose proof (wf_v_byte d Hwf _ _ Ha') as Ra.
  pose proof (wf_v_byte d Hwf _ _ Hb') as Rb.
  assert (Rimm : 0 <= bottomByte (inst d) < 256)
    by (rewrite bottomByte_mod; apply Z.mod_pos_bound; lia).
  unfold dispatch.
  destruct (nibble_cases _ (topNibble_range (inst d)))
    as [H|[H|[H|[H|[H|[H|[H|[H|[H|[H|[H|[H|[H|[H|[H|H]]]]]]]]]]]]]]];
    rewrite H; cbv beta iota zeta.
  - (* 0x0 *)
    left. eexists. split; [reflexivity|].
    destruct (nibble_cases _ (bottomNibble_range (inst d)))
      as [N|[N|[N|[N|[N|[N|[N|[N|[N|[N|[N|[N|[N|[N|[N|N]]]]]]]]]]]]]]];
      rewrite N; cbv beta iota; (split; [|unfold same_control; simpl; tauto]);
      try (now apply wf_IncPC).
    apply wf_IncPC, wf_with_gfx; [exact Hwf | apply length_replicate |].
    now apply forallb_replicate.
  - (* 0x1 *)
    left. eexists. split; [reflexivity|]. split; [now apply wf_SetPC|].
    unfold same_control. simpl. tauto.
  - (* 0x2 *)
    left. eexists. split; [reflexivity|]. split; [now apply wf_SetPC|].
    unfold same_control. simpl. tauto.
  - (* 0x3 *)
    left. rewrite GetImm_2. cbn [obind IncPC with_pc v]. rewrite Ha. cbn [obind].
    eexists. split; [reflexivity|].
    destruct (_ =? _); (split; [repeat apply wf_IncPC; exact Hwf|]);
      unfold same_control; simpl; tauto.
  - (* 0x4 *)
    left. rewrite GetImm_2. cbn [obind IncPC with_pc v]. rewrite Ha. cbn [obind].
    eexists. split; [reflexivity|].
    destruct (negb _); (split; [repeat apply wf_IncPC; exact Hwf|]);
      unfold same_control; simpl; tauto.
  - (* 0x5 *)
    left. cbn [obind IncPC with_pc v]. rewrite Ha, Hb. cbn [obind].
    eexists. split; [reflexivity|].
    destruct (_ =? _); (split; [repeat apply wf_IncPC; exact Hwf|]);
      unfold same_control; simpl; tauto.
  - (* 0x6 *)
    left. rewrite GetImm_2. cbn [obind].
    destruct (set_v_outcome _ Rimm) as (e & He & Hwfe & Hsame & _).
    rewrite He. cbn [obind]. eexists. split; [reflexivity|].
    split; [now apply wf_IncPC|]. unfold same_control in *. simpl. tauto.
  - (* 0x7 *)
    left. rewrite GetImm_2. cbn [obind]. rewrite Ha. cbn [obind].
    destruct (set_v_outcome ((a + bottomByte (inst d)) mod 256)) as (e & He & Hwfe & Hsame & _).
    { apply Z.mod_pos_bound. lia. }
    rewrite He. cbn [obind]. eexists. split; [reflexivity|].
    split; [now apply wf_IncPC|]. unfold same_control in *. simpl. tauto.
  - (* 0x8 *)
    left. rewrite (Math8_alu d a b Ha Hb).
    destruct (alu_result (bottomNibble (inst d)) a b) as [r|] eqn:Hres.
    + destruct (set_v_outcome r) as (e & He & Hwfe & Hsame & _).
      { exact (alu_result_u8 _ a b r Ra Rb Hres). }
      rewrite He. cbn [obind]. eexists. split; [reflexivity|].
      split; [now apply wf_IncPC|]. unfold same_control in *. simpl. tauto.
    + cbn [obind]. eexists. split; [reflexivity|].
      split; [now apply wf_IncPC|]. unfold same_control. simpl. tauto.
  - (* 0x9 *)
    left. cbn [obind IncPC with_pc v]. rewrite Ha, Hb. cbn [obind].
    eexists. split; [reflexivity|].
    destruct (negb _); (split; [repeat apply wf_IncPC; exact Hwf|]);
      unfold same_control; simpl; tauto.
  - (* 0xA *)
    left. eexists. split; [reflexivity|].
    split; [now apply wf_IncPC, wf_SetIndex|]. unfold same_control. simpl. tauto.
  - (* 0xB *)
    left. exists d. split; [reflexivity|]. split; [exact Hwf | apply same_control_refl].
  - (* 0xC *)
    left. exists d. split; [reflexivity|]. split; [exact Hwf | apply same_control_refl].
  - (* 0xD *)
    left. destruct (draw_outcome d Hwf) as (g & Hg & Hlen & Hbytes).
    rewrite Hg. cbn [obind]. eexists. split; [reflexivity|].
    split; [now apply wf_IncPC, wf_with_gfx|]. unfold same_control. simpl. tauto.
  - (* 0xE *)
    left. exists d. split; [reflexivity|]. split; [exact Hwf | apply same_control_refl].
  - (* 0xF *)
    pose proof (wf_index_range d Hwf) as Hidx.
    pose proof (wf_memory_length d Hwf) as Hlen.
    destruct (Z.eq_dec (bottomByte (inst d)) 0x55) as [B | B];
      [| destruct (Z.eq_dec (bottomByte (inst d)) 0x65) as [B' | B']].
    + rewrite B. cbv beta iota. rewrite Ha. cbn [obind].
      destruct (Z_lt_le_dec (index d) memSize) as [Hin | Hout]; unfold memSize in *.
      * left. rewrite store_at_in_range by lia. cbn [obind].
        eexists. split; [reflexivity|]. split.
        -- apply wf_IncPC, wf_with_memory; [exact Hwf | apply length_insert |].
           apply forallb_insert; [apply wf_iff in Hwf; tauto | now apply is_u8_range].
        -- unfold same_control. simpl. tauto.
      * right. rewrite store_at_out_of_range by lia. auto.
    + rewrite B'. cbv beta iota.
      destruct (Z_lt_le_dec (index d) memSize) as [Hin | Hout]; unfold memSize in *.
      * left. destruct (at_index_in_range (memory d) (index d)) as [m Hm]; [lia|].
        rewrite Hm. cbn [obind].
        destruct (set_v_outcome m) as (e & He & Hwfe & Hsame & _).
        { apply at_index_Ok in Hm. exact (wf_memory_byte d Hwf _ _ Hm). }
        rewrite He. cbn [obind]. eexists. split; [reflexivity|].
        split; [now apply wf_IncPC|]. unfold same_control in *. simpl. tauto.
      * right. rewrite at_index_out_of_range by lia. auto.
    + left. rewrite switch_F_default by assumption. exists d. split; [reflexivity|]. split; [exact Hwf | apply same_control_refl].
Qed.

End Dispatch.

Section Cycle.

Variable c : Chip8.
Hypothesis Hwf : wf c.

(** A cycle either returns a well-formed machine or panics; it neither
    ends the process nor exhausts the fuel of the draw loop. *)
Lemma Execute_outcome :
  (exists c', Execute c = Ok c' /\ wf c'
              /\ stack c' = stack c /\ sp c' = sp c
              /\ (index c' = index c \/ 0 <= index c' < memSize))
  \/ Execute c = Panic.
Proof.
  destruct (Decode c) as [d| | |] eqn:Hdec.
  - pose proof (wf_Decode c Hwf d Hdec) as Hwfd.
    destruct (Decode_frame c d Hwf Hdec) as (_ & _ & Hi & _ & _ & _ & _ & Hst & Hsp).
    destruct (Z.eq_dec (inst d) 0) as [Hz | Hnz].
    + left. exists d. rewrite (Execute_zero c d Hdec Hz). tauto.
    + rewrite (Execute_nonzero c d Hdec Hnz).
      destruct (dispatch_outcome d Hwfd)
        as [(e & He & Hwfe & _ & _ & _ & Est & Esp & Eidx) | (Hp & _)].
      * left. exists (dec_timers e). rewrite He. cbn [obind].
        destruct (dec_timers_frame e) as (_ & _ & _ & Ti & _ & _ & Tst & Tsp).
        rewrite Ti, Tst, Tsp.
        split; [reflexivity|]. split; [now apply wf_dec_timers|].
        repeat split; try congruence.
        destruct Eidx as [E | E]; [left; congruence | right].
        rewrite E. pose proof (targetAddr_range (inst d)). unfold memSize. lia.
      * right. now rewrite Hp.
  - right. unfold Execute. now rewrite Hdec.
  - exfalso. unfold Decode, at_index in Hdec.
    destruct (memory c !! _); [|discriminate]. cbn [obind] in Hdec.
    destruct (memory c !! _); discriminate.
  - exfalso. unfold Decode, at_index in Hdec.
    destruct (memory c !! _); [|discriminate]. cbn [obind] in Hdec.
    destruct (memory c !! _); discriminate.
Qed.

(** With the program counter and the index register inside the memory,
    a cycle returns. *)
Lemma Execute_returns (d : Chip8) :
  Decode c = Ok d -> index c < memSize ->
  exists c', Execute c = Ok c' /\ wf c' /\ index c' < memSize.
Proof.
  intros Hdec Hidx.
  pose proof (wf_Decode c Hwf d Hdec) as Hwfd.
  destruct (Decode_frame c d Hwf Hdec) as (_ & _ & Hi & _).
  destruct (Z.eq_dec (inst d) 0) as [Hz | Hnz].
  - exists d. rewrite (Execute_zero c d Hdec Hz). repeat split; trivial. congruence.
  - rewrite (Execute_nonzero c d Hdec Hnz).
    destruct (dispatch_outcome d Hwfd)
      as [(e & He & Hwfe & _ & _ & _ & _ & _ & Eidx) | (_ & Hout & _)]; [|lia].
    exists (dec_timers e). rewrite He. cbn [obind].
    destruct (dec_timers_frame e) as (_ & _ & _ & Ti & _).
    rewrite Ti. split; [reflexivity|]. split; [now apply wf_dec_timers|].
    destruct Eidx as [E | E]; [congruence|].
    rewrite E. pose proof (targetAddr_range (inst d)). unfold memSize. lia.
Qed.

(** The timers after a cycle on a non-zero word. *)
Lemma Execute_timers (d c' : Chip8) :
  Decode c = Ok d -> inst d <> 0 -> Execute c = Ok c' ->
  delayTimer c' = (if 0 <? delayTimer c then delayTimer c - 1 else delayTimer c)
  /\ soundTimer c' = (if 0 <? soundTimer c then soundTimer c - 1 else soundTimer c).
Proof.
  intros Hdec Hnz Hex.
  pose proof (wf_Decode c Hwf d Hdec) as Hwfd.
  destruct (Decode_frame c d Hwf Hdec) as (_ & _ & _ & _ & _ & Hdt & Hst & _).
  rewrite (Execute_nonzero c d Hdec Hnz) in Hex.
  destruct (dispatch_outcome d Hwfd)
    as [(e & He & Hwfe & _ & Edt & Est & _) | (Hp & _)];
    [| rewrite Hp in Hex; discriminate].
  rewrite He in Hex. cbn [obind] in Hex. inversion Hex; subst c'.
  destruct (wf_timers_range e Hwfe) as [Rd Rs].
  rewrite (dec_timers_delay e Rd), (dec_timers_sound e Rs).
  rewrite Edt, Est, Hdt, Hst. tauto.
Qed.

End Cycle.

(** X26.  The countdown that closes [Execute]: on every well-formed
    machine a cycle on a non-zero instruction word ends by decrementing
    delayTimer and soundTimer by one each when they are non-zero (a timer
    at 0 stays at 0), whatever the instruction; only the zero word, on
    which [Execute] returns early, skips the countdown.  No instruction
    sets a timer, so in runs from [NewChip] both are 0 and the countdown
    never fires (lemma [timers_stay_zero]). *)
Theorem timers_decremented_by_Execute (c d : Chip8) :
  wf c ->
  Decode c = Ok d ->
  (inst d = 0 ->
   Execute c = Ok d
   /\ delayTimer d = delayTimer c /\ soundTimer d = soundTimer c)
  /\
  (inst d <> 0 ->
   (index c < memSize -> exists c', Execute c = Ok c')
   /\ forall c',
       Execute c = Ok c' ->
       delayTimer c' = (if 0 <? delayTimer c then delayTimer c - 1 else delayTimer c)
       /\ soundTimer c' = (if 0 <? soundTimer c then soundTimer c - 1 else soundTimer c)).
Proof.
  intros Hwf Hdec. split.
  - intros Hz.
    destruct (Decode_frame c d Hwf Hdec) as (_ & _ & _ & _ & _ & Hdt & Hst & _).
    split; [now apply Execute_zero | tauto].
  - intros Hnz. split.
    + intros Hidx.
      destruct (Execute_returns c Hwf d Hdec Hidx) as (c' & Hex & _).
      now exists c'.
    + intros c' Hex. exact (Execute_timers c Hwf d c' Hdec Hnz Hex).
Qed.

(** Timers at zero stay at zero: from [Init] on, where both are zero and
    no instruction sets them, the decrement never fires. *)
Lemma timers_stay_zero (c c' : Chip8) :
  wf c -> delayTimer c = 0 -> soundTimer c = 0 -> Execute c = Ok c' ->
  delayTimer c' = 0 /\ soundTimer c' = 0.
Proof.
  intros Hwf Hd Hs Hex.
  destruct (Decode c) as [d| | |] eqn:Hdec;
    try (unfold Execute in Hex; rewrite Hdec in Hex; discriminate).
  destruct (Z.eq_dec (inst d) 0) as [Hz | Hnz].
  - rewrite (Execute_zero c d Hdec Hz) in Hex. inversion Hex; subst c'.
    destruct (Decode_frame c d Hwf Hdec) as (_ & _ & _ & _ & _ & Hdt & Hst & _).
    split; congruence.
  - destruct (Execute_timers c Hwf d c' Hdec Hnz Hex) as [Td Ts].
    rewrite Td, Ts, Hd, Hs. split; reflexivity.
Qed.

(** * Instructions without a case *)

(** The classes 0xB, 0xC and 0xE have no case in [switch top], and class
    0xF has cases for 0x55 and 0x65 only; [IncPC] is called inside the
    cases.  For such a word the cycle changes nothing but the timers: the
    program counter stays on the instruction. *)
Lemma no_case_ignored (c d : Chip8) :
  wf c ->
  Decode c = Ok d ->
  topNibble (inst d) = 0xB \/ topNibble (inst d) = 0xC \/ topNibble (inst d) = 0xE
  \/ (topNibble (inst d) = 0xF
      /\ bottomByte (inst d) <> 0x55 /\ bottomByte (inst d) <> 0x65) ->
  Execute c = Ok (dec_timers d)
  /\ pc (dec_timers d) = pc c
  /\ v (dec_timers d) = v c /\ memory (dec_timers d) = memory c
  /\ gfx (dec_timers d) = gfx c /\ index (dec_timers d) = index c.
Proof.
  intros Hwf Hdec Hcase.
  destruct (Decode_frame c d Hwf Hdec) as (Hm & Hv & Hi & Hpc & Hg & _).
  destruct (dec_timers_frame d) as (_ & Tm & Tv & Ti & Tpc & Tg & _).
  split; [| repeat split; congruence].
  rewrite (Execute_nonzero c d Hdec) by (apply class_nonzero; lia).
  unfold dispatch.
  destruct Hcase as [H | [H | [H | (H & B1 & B2)]]]; rewrite H;
    cbv beta iota zeta; rewrite ?switch_F_default by assumption; reflexivity.
Qed.

(** An unknown sub-field of class 0x0, in contrast, falls through to the
    [IncPC] after the inner switch: a no-op that advances the program
    counter by 2.  (Class 0x8 does the same, see [alu_no_case].) *)
Lemma class0_no_case_advances (c d : Chip8) :
  wf c ->
  Decode c = Ok d ->
  topNibble (inst d) = 0x0 -> inst d <> 0 ->
  bottomNibble (inst d) <> 0x0 ->
  Execute c = Ok (dec_timers (IncPC d)) /\ pc (dec_timers (IncPC d)) = pc c + 2.
Proof.
  intros Hwf Hdec Hclass Hnz Hsub.
  destruct (Decode_frame c d Hwf Hdec) as (_ & _ & _ & Hpc & _).
  destruct (dec_timers_frame (IncPC d)) as (_ & _ & _ & _ & Tpc & _).
  split; [| rewrite Tpc; now apply (IncPC_after_Decode c d Hwf Hdec)].
  rewrite (Execute_nonzero c d Hdec Hnz).
  unfold dispatch. rewrite Hclass. cbv beta iota zeta.
  destruct (nibble_cases _ (bottomNibble_range (inst d)))
    as [N|[N|[N|[N|[N|[N|[N|[N|[N|[N|[N|[N|[N|[N|[N|N]]]]]]]]]]]]]]];
    try contradiction; rewrite N; reflexivity.
Qed.

(** * Runs *)

(** Along any run that starts with both timers at zero, the machine
    stays well formed, the timers stay at zero, and the stack and the
    stack pointer are never written. *)
Lemma run_invariant (n : nat) :
  forall c c',
    wf c -> delayTimer c = 0 -> soundTimer c = 0 ->
    run n c = Ok c' ->
    wf c' /\ delayTimer c' = 0 /\ soundTimer c' = 0
    /\ stack c' = stack c /\ sp c' = sp c.
Proof.
  induction n as [|n IH]; intros c c' Hwf Hd Hs Hrun; simpl in Hrun.
  - inversion Hrun; subst c'. tauto.
  - apply obind_Ok in Hrun. destruct Hrun as (c1 & Hex & Hrun).
    destruct (timers_stay_zero c c1 Hwf Hd Hs Hex) as [Hd1 Hs1].
    destruct (Execute_outcome c Hwf)
      as [(c1' & Hex' & Hwf1 & Hst & Hsp & _) | Hp];
      [| rewrite Hp in Hex; discriminate].
    rewrite Hex in Hex'. inversion Hex'; subst c1'.
    destruct (IH c1 c' Hwf1 Hd1 Hs1 Hrun) as (W & D & S & St & Sp).
    repeat split; trivial; congruence.
Qed.

Lemma dec_timers_zero (c : Chip8) :
  delayTimer c = 0 -> soundTimer c = 0 -> dec_timers c = c.
Proof.
  intros Hd Hs. unfold dec_timers. rewrite Hd.
  change (0 <? 0) with false. cbv iota. rewrite Hs. reflexivity.
Qed.

Lemma Decode_again (c d : Chip8) : wf c -> Decode c = Ok d -> Decode d = Ok d.
Proof.
  intros Hwf Hdec.
  destruct (Decode_inv c d Hwf Hdec) as (hi & lo & Hhi & Hlo & -> & Hlt).
  pose proof (wf_pc_range c Hwf) as Hpc.
  unfold Decode. cbn [memory pc with_inst].
  rewrite (proj2 (at_index_Ok _ _ _) Hhi). cbn [obind].
  rewrite (Z.mod_small (pc c + 1)) by lia.
  rewrite (proj2 (at_index_Ok _ _ _) Hlo). reflexivity.
Qed.

(** On a word without a case the machine never leaves the instruction:
    every run of one cycle or more ends in the same state. *)
Lemma no_case_loops (c d : Chip8) :
  wf c ->
  Decode c = Ok d ->
  topNibble (inst d) = 0xB \/ topNibble (inst d) = 0xC \/ topNibble (inst d) = 0xE
  \/ (topNibble (inst d) = 0xF
      /\ bottomByte (inst d) <> 0x55 /\ bottomByte (inst d) <> 0x65) ->
  delayTimer c = 0 -> soundTimer c = 0 ->
  forall n, run (S n) c = Ok d /\ pc d = pc c.
Proof.
  intros Hwf Hdec Hcase Hd Hs.
  destruct (Decode_frame c d Hwf Hdec) as (_ & _ & _ & Hpc & _ & Hdt & Hst & _).
  assert (Hz : dec_timers d = d) by (apply dec_timers_zero; congruence).
  assert (Hfix : forall e, Decode e = Ok d -> wf e -> Execute e = Ok d).
  { intros e He Hwfe.
    destruct (no_case_ignored e d Hwfe He Hcase) as (Hex & _). now rewrite Hex, Hz. }
  assert (Hstay : forall n, run n d = Ok d).
  { induction n as [|n IH]; [reflexivity|]. simpl.
    rewrite (Hfix d (Decode_again c d Hwf Hdec) (wf_Decode c Hwf d Hdec)).
    exact IH. }
  intros n. split; [|exact Hpc]. simpl. rewrite (Hfix c Hdec Hwf). apply Hstay.
Qed.

(** * The revision in [main.go] *)

(** Apart from clear-screen and draw, the two revisions dispatch alike. *)
Lemma MainGo_dispatch_agrees (d : Chip8) :
  topNibble (inst d) <> 0xD ->
  (topNibble (inst d) = 0x0 -> bottomNibble (inst d) <> 0x0) ->
  MainGo.dispatch d = dispatch d.
Proof.
  intros HD H0. unfold MainGo.dispatch, dispatch.
  destruct (nibble_cases _ (topNibble_range (inst d)))
    as [H|[H|[H|[H|[H|[H|[H|[H|[H|[H|[H|[H|[H|[H|[H|H]]]]]]]]]]]]]]];
    try contradiction; rewrite H; try reflexivity.
  specialize (H0 H).
  destruct (nibble_cases _ (bottomNibble_range (inst d)))
    as [N|[N|[N|[N|[N|[N|[N|[N|[N|[N|[N|[N|[N|[N|[N|N]]]]]]]]]]]]]]];
    try contradiction; rewrite N; reflexivity.
Qed.

(** So on every other non-zero word a cycle of the later revision is a
    cycle of [main.go] followed by the timer update. *)
Lemma MainGo_Execute_agrees (c d : Chip8) :
  Decode c = Ok d ->
  inst d <> 0 ->
  topNibble (inst d) <> 0xD ->
  (topNibble (inst d) = 0x0 -> bottomNibble (inst d) <> 0x0) ->
  Execute c = do e <- MainGo.Execute c; Ok (dec_timers e).
Proof.
  intros Hdec Hnz HD H0.
  rewrite (Execute_nonzero c d Hdec Hnz).
  unfold MainGo.Execute. rewrite Hdec. cbn [obind].
  destruct (Z.eqb_spec (inst d) 0); [contradiction|].
  now rewrite MainGo_dispatch_agrees.
Qed.

Lemma MainGo_zero_exits (c d : Chip8) :
  Decode c = Ok d -> inst d = 0 -> MainGo.Execute c = Exit.
Proof.
  intros Hdec Hz. unfold MainGo.Execute. rewrite Hdec. cbn [obind].
  now rewrite Hz.
Qed.

(** [main.go] has no draw case: the word is skipped over without moving
    the program counter. *)
Lemma MainGo_draw_ignored (c d : Chip8) :
  Decode c = Ok d -> topNibble (inst d) = 0xD -> MainGo.Execute c = Ok d.
Proof.
  intros Hdec Hclass. unfold MainGo.Execute. rewrite Hdec. cbn [obind].
  destruct (Z.eqb_spec (inst d) 0) as [Hz | Hnz].
  - rewrite Hz in Hclass. discriminate.
  - unfold MainGo.dispatch. now rewrite Hclass.
Qed.

(** [main.go] never writes the timers. *)
Lemma MainGo_keeps_timers (c c' : Chip8) :
  wf c -> MainGo.Execute c = Ok c' ->
  delayTimer c' = delayTimer c /\ soundTimer c' = soundTimer c.
Proof.
  intros Hwf Hex. unfold MainGo.Execute in Hex.
  destruct (Decode c) as [d| | |] eqn:Hdec; try discriminate.
  cbn [obind] in Hex.
  destruct (Z.eqb_spec (inst d) 0) as [Hz | Hnz]; [discriminate|].
  destruct (Decode_frame c d Hwf Hdec) as (_ & _ & _ & _ & _ & Hdt & Hst & _).
  destruct (Z.eq_dec (topNibble (inst d)) 0xD) as [HD | HD].
  { unfold MainGo.dispatch in Hex. rewrite HD in Hex. inversion Hex; subst c'. tauto. }
  destruct (Z.eq_dec (topNibble (inst d)) 0x0) as [H0 | H0].
  { unfold MainGo.dispatch in Hex. rewrite H0 in Hex. cbv beta iota zeta in Hex.
    inversion Hex; subst c'.
    destruct (bottomNibble (inst d)) as [|p|p]; simpl; try tauto;
      do 4 (try (destruct p as [p|p|]; simpl; try tauto)). }
  rewrite MainGo_dispatch_agrees in Hex by (trivial; contradiction).
  destruct (dispatch_outcome d (wf_Decode c Hwf d Hdec))
    as [(e & He & _ & _ & Edt & Est & _) | (Hp & _)]; rewrite Hex in *.
  - inversion He; subst e. split; congruence.
  - discriminate.
Qed.

(** * Concrete runs *)

(** The two scenarios of the specification. *)
Example scenario_store :
  memory (after 3 (chip_of [0x60; 0xAB; 0xA0; 0x0A; 0xF0; 0x55])) !! 0x00A%nat = Some 0xAB.
Proof. vm_compute. reflexivity. Qed.

Example scenario_read :
  let c0 := chip_of [0xA0; 0x0A; 0x60; 0x00; 0xF0; 0x65] in
  let c := with_memory c0 (<[0x00A%nat := 0xAB]> (memory c0)) in
  v (after 3 c) !! 0%nat = Some 0xAB.
Proof. vm_compute. reflexivity. Qed.

(** The machines of [NewChip] are well formed and ready to run. *)
Example NewChip_wf :
  exists c, NewChip prog_store_read = Ok c /\ wf c /\ pc c = progStart /\ index c = 0.
Proof. eexists. split; [vm_compute; reflexivity|]. vm_compute. auto. Qed.

Lemma skip_advances_pc_witness :
  wf c_skip /\ Decode c_skip = Ok d_skip /\ topNibble (inst d_skip) = 0x3
  /\ exists c' vx vy,
      Execute c_skip = Ok c'
      /\ v c_skip !! Z.to_nat (GetXReg d_skip) = Some vx
      /\ v c_skip !! Z.to_nat (GetYReg d_skip) = Some vy
      /\ pc c' = pc c_skip
                 + (if skip_condition (topNibble (inst d_skip)) vx vy (bottomByte (inst d_skip))
                    then 4 else 2)
      /\ v c' = v c_skip /\ memory c' = memory c_skip /\ gfx c' = gfx c_skip.
Proof.
  assert (Hwf : wf c_skip) by (vm_compute; reflexivity).
  assert (Hdec : Decode c_skip = Ok d_skip) by (vm_compute; reflexivity).
  assert (Hclass : topNibble (inst d_skip) = 0x3) by reflexivity.
  repeat split; trivial.
  apply (skip_advances_pc c_skip d_skip Hwf Hdec). left. exact Hclass.
Defined.

Lemma store_read_single_byte_witness :
  wf c_store /\ Decode c_store = Ok d_store /\ topNibble (inst d_store) = 0xF
  /\ index c_store < memSize /\ bottomByte (inst d_store) = 0x55
  /\ exists c' a,
      Execute c_store = Ok c'
      /\ v c_store !! Z.to_nat (GetXReg d_store) = Some a
      /\ memory c' = <[Z.to_nat (index c_store) := a]> (memory c_store)
      /\ (forall k, k <> Z.to_nat (index c_store) -> memory c' !! k = memory c_store !! k)
      /\ v c' = v c_store
      /\ index c' = index c_store /\ stack c' = stack c_store /\ sp c' = sp c_store.
Proof.
  assert (Hwf : wf c_store) by (vm_compute; reflexivity).
  assert (Hdec : Decode c_store = Ok d_store) by (vm_compute; reflexivity).
  assert (Hclass : topNibble (inst d_store) = 0xF) by reflexivity.
  assert (Hidx : index c_store < memSize) by (vm_compute; reflexivity).
  assert (Hop : bottomByte (inst d_store) = 0x55) by reflexivity.
  repeat split; trivial.
  exact (proj1 (store_read_single_byte c_store d_store Hwf Hdec Hclass Hidx) Hop).
Defined.

Lemma store_read_roundtrip_witness :
  wf c_store /\ Decode c_store = Ok d_store /\ topNibble (inst d_store) = 0xF
  /\ bottomByte (inst d_store) = 0x55 /\ index c_store < memSize
  /\ exists c1 a,
      Execute c_store = Ok c1
      /\ v c_store !! Z.to_nat (GetXReg d_store) = Some a
      /\ memory c1 !! Z.to_nat (index c_store) = Some a
      /\ index c1 = index c_store
      /\ forall d1,
          Decode c1 = Ok d1 ->
          topNibble (inst d1) = 0xF ->
          bottomByte (inst d1) = 0x65 ->
          GetXReg d1 = GetXReg d_store ->
          exists c2,
            Execute c1 = Ok c2
            /\ v c2 !! Z.to_nat (GetXReg d_store) = Some a
            /\ v c2 = v c_store.
Proof.
  assert (Hwf : wf c_store) by (vm_compute; reflexivity).
  assert (Hdec : Decode c_store = Ok d_store) by (vm_compute; reflexivity).
  assert (Hclass : topNibble (inst d_store) = 0xF) by reflexivity.
  assert (Hop : bottomByte (inst d_store) = 0x55) by reflexivity.
  assert (Hidx : index c_store < memSize) by (vm_compute; reflexivity).
  repeat split; trivial.
  exact (store_read_roundtrip c_store d_store Hwf Hdec Hclass Hop Hidx).
Defined.

(** The read that follows the store in [prog_store_read] is the one the
    round trip speaks of, and the two cycles return 0xAB to v0. *)
Example store_then_read_runs :
  Execute c_store = Ok c_read
  /\ Decode c_read = Ok d_read
  /\ topNibble (inst d_read) = 0xF /\ bottomByte (inst d_read) = 0x65
  /\ GetXReg d_read = GetXReg d_store
  /\ v (after 1 c_read) !! 0%nat = Some 0xAB.
Proof. vm_compute. repeat split; reflexivity. Qed.

Lemma call_then_return_witness :
  wf c_call /\ Decode c_call = Ok d_call /\ topNibble (inst d_call) = 0x2
  /\ exists c1,
      Execute c_call = Ok c1
      /\ pc c1 = targetAddr (inst d_call)
      /\ stack c1 = stack c_call /\ sp c1 = sp c_call
      /\ forall d1,
          Decode c1 = Ok d1 ->
          inst d1 = 0x00EE ->
          exists c2,
            Execute c1 = Ok c2
            /\ pc c2 = targetAddr (inst d_call) + 2
            /\ stack c2 = stack c_call /\ sp c2 = sp c_call.
Proof.
  assert (Hwf : wf c_call) by (vm_compute; reflexivity).
  assert (Hdec : Decode c_call = Ok d_call) by (vm_compute; reflexivity).
  assert (Hclass : topNibble (inst d_call) = 0x2) by reflexivity.
  repeat split; trivial.
  exact (call_then_return c_call d_call Hwf Hdec Hclass).
Defined.

(** C2 fails as stated: the call at 0x200 pushes nothing and leaves the
    stack pointer at 0, and after the return at 0x208 the program counter
    is 0x20A, not the address 0x202 that follows the call. *)
Lemma call_return_counterexample :
  exists c1 c2,
    pc c_call = 0x200
    /\ Execute c_call = Ok c1 /\ inst c1 = 0x2208
    /\ Execute c1 = Ok c2 /\ inst c2 = 0x00EE
    /\ stack c1 !! Z.to_nat (sp c_call) <> Some (pc c_call + 2)
    /\ sp c1 <> sp c_call + 1
    /\ pc c2 = 0x20A
    /\ pc c2 <> pc c_call + 2.
Proof.
  exists (after 1 c_call), (after 2 c_call).
  vm_compute. repeat split; try reflexivity; discriminate.
Qed.

Lemma shift_results_witness :
  wf c_shr /\ Decode c_shr = Ok d_shr /\ topNibble (inst d_shr) = 0x8
  /\ bottomNibble (inst d_shr) = 0x6
  /\ exists c' a,
      Execute c_shr = Ok c'
      /\ v c_shr !! Z.to_nat (GetXReg d_shr) = Some a
      /\ v c' !! Z.to_nat (GetXReg d_shr)
         = Some (if bottomNibble (inst d_shr) =? 0x6
                 then Z.shiftr a 1 else Z.shiftl a 1 mod 256)
      /\ (forall k, k <> Z.to_nat (GetXReg d_shr) -> v c' !! k = v c_shr !! k)
      /\ pc c' = pc c_shr + 2.
Proof.
  assert (Hwf : wf c_shr) by (vm_compute; reflexivity).
  assert (Hdec : Decode c_shr = Ok d_shr) by (vm_compute; reflexivity).
  assert (Hclass : topNibble (inst d_shr) = 0x8) by reflexivity.
  assert (Hsub : bottomNibble (inst d_shr) = 0x6) by reflexivity.
  repeat split; trivial.
  apply (shift_results c_shr d_shr Hwf Hdec Hclass). left. exact Hsub.
Defined.

(** C4 fails as stated: shifting v0 = 3 right leaves vF at 0 although the
    bit shifted out is 1, and shifting v0 = 0x81 left leaves vF at 0
    although the bit shifted out is 1. *)
Lemma shift_flag_counterexample :
  exists c' c'',
    Execute c_shr = Ok c' /\ inst c' = 0x8006
    /\ v c_shr !! 0%nat = Some 3 /\ v c' !! 0%nat = Some 1
    /\ v c' !! 15%nat = Some 0
    /\ v c' !! 15%nat <> Some (Z.land 3 1)
    /\ Execute c_shl = Ok c'' /\ inst c'' = 0x800E
    /\ v c_shl !! 0%nat = Some 0x81 /\ v c'' !! 0%nat = Some 0x02
    /\ v c'' !! 15%nat = Some 0
    /\ v c'' !! 15%nat <> Some (Z.shiftr 0x81 7).
Proof.
  exists (after 1 c_shr), (after 1 c_shl).
  vm_compute. repeat split; try reflexivity; discriminate.
Qed.

(** C3 on the code: v0 = 200 plus v1 = 100 leaves 44 in v0, and vF at 0,
    not at 1, although the sum 300 exceeds 255. *)
Theorem add_carry_flag_lost :
  exists c',
    Execute c_add = Ok c' /\ inst c' = 0x8014
    /\ v c_add !! 0%nat = Some 200 /\ v c_add !! 1%nat = Some 100
    /\ v c' !! 0%nat = Some ((200 + 100) mod 256)
    /\ v c' !! 15%nat = Some 0.
Proof.
  exists (after 1 c_add). vm_compute. repeat split; reflexivity.
Qed.

Lemma timers_decremented_by_Execute_witness :
  wf c_timer /\ Decode c_timer = Ok d_timer
  /\ (inst d_timer = 0 ->
      Execute c_timer = Ok d_timer
      /\ delayTimer d_timer = delayTimer c_timer
      /\ soundTimer d_timer = soundTimer c_timer)
  /\ (inst d_timer <> 0 ->
      (index c_timer < memSize -> exists c', Execute c_timer = Ok c')
      /\ forall c',
          Execute c_timer = Ok c' ->
          delayTimer c'
          = (if 0 <? delayTimer c_timer then delayTimer c_timer - 1 else delayTimer c_timer)
          /\ soundTimer c'
             = (if 0 <? soundTimer c_timer then soundTimer c_timer - 1 else soundTimer c_timer)).
Proof.
  assert (Hwf : wf c_timer) by (vm_compute; reflexivity).
  assert (Hdec : Decode c_timer = Ok d_timer) by (vm_compute; reflexivity).
  split; [exact Hwf|]. split; [exact Hdec|].
  exact (timers_decremented_by_Execute c_timer d_timer Hwf Hdec).
Defined.

(** The countdown on timers set by hand: one cycle on the instruction
    0x6000 takes delayTimer from 5 to 4 and soundTimer from 3 to 2.  The
    machine is outside every run from [NewChip]. *)
Lemma countdown_on_running_timers :
  exists c',
    Execute c_timer = Ok c' /\ inst c' = 0x6000
    /\ delayTimer c_timer = 5 /\ delayTimer c' = 4
    /\ soundTimer c_timer = 3 /\ soundTimer c' = 2
    /\ delayTimer c' <> delayTimer c_timer
    /\ soundTimer c' <> soundTimer c_timer.
Proof.
  exists (after 1 c_timer).
  vm_compute. repeat split; try reflexivity; discriminate.
Qed.

(** C6 on the code: the word 0xB123 at 0x200 is executed without any
    signal, and the program counter is left on it; nothing but [inst]
    changed, so every later cycle does the same. *)
Theorem unknown_opcode_stuck :
  exists c',
    Execute c_nocase = Ok c'
    /\ c' = with_inst c_nocase 0xB123
    /\ pc c_nocase = 0x200 /\ pc c' = 0x200
    /\ Execute c' = Ok c'.
Proof.
  exists (after 1 c_nocase). vm_compute. repeat split; reflexivity.
Qed.

Lemma draw_copies_sprite_witness :
  wf c_glyph /\ Decode c_glyph = Ok d_glyph /\ topNibble (inst d_glyph) = 0xD
  /\ index c_glyph + bottomNibble (inst d_glyph) < 256
  /\ exists c' vx vy,
      Execute c_glyph = Ok c'
      /\ v c_glyph !! Z.to_nat (GetXReg d_glyph) = Some vx
      /\ v c_glyph !! Z.to_nat (GetYReg d_glyph) = Some vy
      /\ (forall j, 0 <= j < bottomNibble (inst d_glyph) ->
                    gfx c' !! gfx_target vx vy j
                    = memory c_glyph !! Z.to_nat (index c_glyph + j))
      /\ (forall k, (forall j, 0 <= j < bottomNibble (inst d_glyph) ->
                               k <> gfx_target vx vy j) ->
                    gfx c' !! k = gfx c_glyph !! k)
      /\ v c' = v c_glyph /\ memory c' = memory c_glyph
      /\ pc c' = pc c_glyph + 2.
Proof.
  assert (Hwf : wf c_glyph) by (vm_compute; reflexivity).
  assert (Hdec : Decode c_glyph = Ok d_glyph) by (vm_compute; reflexivity).
  assert (Hclass : topNibble (inst d_glyph) = 0xD) by reflexivity.
  assert (Hlow : index c_glyph + bottomNibble (inst d_glyph) < 256)
    by (vm_compute; reflexivity).
  repeat split; trivial.
  exact (draw_copies_sprite c_glyph d_glyph Hwf Hdec Hclass Hlow).
Defined.

(** C1 fails as stated: with cell (0,0) lit, drawing the row 0xF0 at
    (0,0) should clear that cell, light the three cells to its right and
    set vF to 1; the code overwrites gfx[0] with the byte 0xF0, touches
    no other element and leaves vF at 0. *)
Lemma draw_xor_counterexample :
  exists c' g flag,
    Execute c_redraw = Ok c' /\ inst c' = 0xD111
    /\ v c_redraw !! 1%nat = Some 0
    /\ memory c_redraw !! Z.to_nat (index c_redraw) = Some 0xF0
    /\ take 4 (gfx c_redraw) = [1; 0; 0; 0]
    /\ DrawSpec.draw (memory c_redraw) (gfx c_redraw) (index c_redraw) 0 0 1
       = Some (g, flag)
    /\ take 4 g = [0; 1; 1; 1] /\ flag = 1
    /\ take 4 (gfx c') = [0xF0; 0; 0; 0]
    /\ gfx c' <> g
    /\ v c' !! 15%nat = Some 0
    /\ v c' !! 15%nat <> Some flag.
Proof.
  exists (after 1 c_redraw).
  destruct (DrawSpec.draw (memory c_redraw) (gfx c_redraw) (index c_redraw) 0 0 1)
    as [[g flag]|] eqn:Hspec; [|vm_compute in Hspec; discriminate].
  exists g, flag.
  assert (Hg : take 4 g = [0; 1; 1; 1] /\ flag = 1).
  { vm_compute in Hspec. inversion Hspec. split; reflexivity. }
  destruct Hg as [Hg Hflag].
  assert (Hcode : take 4 (gfx (after 1 c_redraw)) = [0xF0; 0; 0; 0])
    by (vm_compute; reflexivity).
  split; [vm_compute; reflexivity|].
  split; [vm_compute; reflexivity|].
  split; [vm_compute; reflexivity|].
  split; [vm_compute; reflexivity|].
  split; [vm_compute; reflexivity|].
  split; [reflexivity|].
  split; [exact Hg|]. split; [exact Hflag|]. split; [exact Hcode|].
  split; [|split].
  - intros Heq. rewrite Heq, Hg in Hcode. discriminate Hcode.
  - vm_compute. reflexivity.
  - rewrite Hflag. vm_compute. intros Hv. discriminate Hv.
Qed.

(** * Further properties of the code *)

(** ** Fetching and decoding *)

Lemma Decode_in_range (c : Chip8) :
  wf c -> pc c + 1 < 4096 -> exists d, Decode c = Ok d.
Proof.
  intros Hwf Hpc. pose proof (wf_pc_range c Hwf) as Rpc.
  pose proof (wf_memory_length c Hwf) as Hlen.
  unfold Decode.
  destruct (at_index_in_range (memory c) (pc c)) as [hi Hhi]; [lia|].
  destruct (at_index_in_range (memory c) ((pc c + 1) mod 65536)) as [lo Hlo].
  { rewrite Z.mod_small by lia. lia. }
  rewrite Hhi. cbn [obind]. rewrite Hlo. cbn [obind]. eauto.
Qed.

Lemma Decode_out_of_range (c : Chip8) :
  wf c -> 4095 <= pc c -> Decode c = Panic.
Proof.
  intros Hwf Hpc. pose proof (wf_pc_range c Hwf) as Rpc.
  pose proof (wf_memory_length c Hwf) as Hlen.
  unfold Decode.
  destruct (Z.eq_dec (pc c) 4095) as [E | E].
  - destruct (at_index_in_range (memory c) (pc c)) as [hi Hhi]; [lia|].
    rewrite Hhi. cbn [obind].
    rewrite at_index_out_of_range; [reflexivity|].
    rewrite E. change ((4095 + 1) mod 65536) with 4096. lia.
  - rewrite at_index_out_of_range; [reflexivity | lia].
Qed.

(** X1.  The instruction word fetched at the program counter is
    256 * memory[pc] + memory[pc+1], the first byte in the high-order
    position, and the fetch changes no field but [inst]. *)
Theorem fetch_big_endian (c d : Chip8) :
  wf c ->
  Decode c = Ok d ->
  exists hi lo,
    memory c !! Z.to_nat (pc c) = Some hi
    /\ memory c !! Z.to_nat (pc c + 1) = Some lo
    /\ inst d = 256 * hi + lo
    /\ d = with_inst c (256 * hi + lo).
Proof.
  intros Hwf Hdec.
  destruct (Decode_inv c d Hwf Hdec) as (hi & lo & Hhi & Hlo & Hd & _).
  exists hi, lo.
  rewrite (word_of_bytes hi lo (wf_memory_byte c Hwf _ _ Hhi)
             (wf_memory_byte c Hwf _ _ Hlo)) in Hd.
  subst d. simpl. tauto.
Qed.

Lemma fetch_big_endian_witness :
  wf c_skip /\ Decode c_skip = Ok d_skip
  /\ exists hi lo,
      memory c_skip !! Z.to_nat (pc c_skip) = Some hi
      /\ memory c_skip !! Z.to_nat (pc c_skip + 1) = Some lo
      /\ inst d_skip = 256 * hi + lo
      /\ d_skip = with_inst c_skip (256 * hi + lo).
Proof.
  assert (Hwf : wf c_skip) by (vm_compute; reflexivity).
  assert (Hdec : Decode c_skip = Ok d_skip) by (vm_compute; reflexivity).
  split; [exact Hwf|]. split; [exact Hdec|].
  exact (fetch_big_endian c_skip d_skip Hwf Hdec).
Defined.

(** X2.  The field accessors undo the packing of an instruction word:
    for four nibbles a, x, y, n the word 4096a + 256x + 16y + n has
    class a, register fields x and y, low nibble n, low byte 16y + n and
    address 256x + 16y + n. *)
Theorem fields_of_word (c : Chip8) (a x y n : Z) :
  0 <= a < 16 -> 0 <= x < 16 -> 0 <= y < 16 -> 0 <= n < 16 ->
  inst c = 4096 * a + 256 * x + 16 * y + n ->
  topNibble (inst c) = a
  /\ GetXReg c = x /\ GetYReg c = y
  /\ bottomNibble (inst c) = n
  /\ bottomByte (inst c) = 16 * y + n
  /\ targetAddr (inst c) = 256 * x + 16 * y + n.
Proof.
  intros Ha Hx Hy Hn Hw. unfold GetXReg, GetYReg.
  rewrite topNibble_div, xreg_div, yreg_div, bottomNibble_mod, bottomByte_mod,
    targetAddr_mod, Hw.
  repeat split; Z.div_mod_to_equations; lia.
Qed.

Lemma fields_of_word_witness :
  topNibble (inst d_glyph) = 0xD
  /\ GetXReg d_glyph = 0 /\ GetYReg d_glyph = 1
  /\ bottomNibble (inst d_glyph) = 5
  /\ bottomByte (inst d_glyph) = 16 * 1 + 5
  /\ targetAddr (inst d_glyph) = 256 * 0 + 16 * 1 + 5.
Proof.
  apply (fields_of_word d_glyph 0xD 0 1 5); try lia. reflexivity.
Defined.

(** X3.  [GetImm] returns the low nibble for 1 and the low byte for 2;
    for 3 the conversion to [uint8] drops the top four of the twelve
    bits, so [GetImm(3)] returns the low byte as well; any other argument
    panics. *)
Theorem GetImm_cases (c : Chip8) :
  GetImm c 1 = Ok (inst c mod 16)
  /\ GetImm c 2 = Ok (inst c mod 256)
  /\ GetImm c 3 = Ok (inst c mod 256)
  /\ forall k, k <> 1 -> k <> 2 -> k <> 3 -> GetImm c k = Panic.
Proof.
  split; [now rewrite GetImm_1, bottomNibble_mod|].
  split; [now rewrite GetImm_2, bottomByte_mod|].
  split.
  - unfold GetImm. f_equal. fold (targetAddr (inst c)). rewrite targetAddr_mod.
    Z.div_mod_to_equations. lia.
  - intros k H1 H2 H3. unfold GetImm.
    destruct k as [|p|p]; try reflexivity.
    destruct p as [p|p|]; try contradiction;
      destruct p; try reflexivity; contradiction.
Qed.

(** ** What the remaining instructions do *)

Section Steps.

Variables c d : Chip8.
Hypothesis Hwf : wf c.
Hypothesis Hdec : Decode c = Ok d.

(** A case that ends in [IncPC]: the cycle returns the machine [e] the
    case built, one word further, with the timers counted down. *)
Lemma Execute_advances (e : Chip8) :
  inst d <> 0 ->
  dispatch d = Ok (IncPC e) ->
  pc e = pc d ->
  exists c',
    Execute c = Ok c'
    /\ pc c' = pc c + 2
    /\ v c' = v e /\ memory c' = memory e /\ gfx c' = gfx e
    /\ index c' = index e /\ stack c' = stack e /\ sp c' = sp e.
Proof.
  intros Hnz Hdisp Hpc.
  destruct (Decode_frame c d Hwf Hdec) as (_ & _ & _ & Hpcd & _).
  exists (dec_timers (IncPC e)).
  rewrite (Execute_nonzero c d Hdec Hnz), Hdisp. cbn [obind].
  destruct (dec_timers_frame (IncPC e)) as (_ & Tm & Tv & Ti & Tpc & Tg & Tst & Tsp).
  rewrite Tm, Tv, Ti, Tpc, Tg, Tst, Tsp.
  split; [reflexivity|]. split; [|simpl; tauto].
  apply (IncPC_after_Decode c d Hwf Hdec). congruence.
Qed.

(** Writing a register selected by the x field always succeeds. *)
Lemma set_v_x (b : Z) :
  set_v d (GetXReg d) b = Ok (with_v d (<[Z.to_nat (GetXReg d) := b]> (v c))).
Proof.
  destruct (Decode_frame c d Hwf Hdec) as (_ & Hv & _).
  unfold set_v. rewrite Hv. rewrite store_at_in_range; [reflexivity|].
  rewrite (wf_v_length c Hwf). pose proof (GetXReg_range d). lia.
Qed.

End Steps.

(** X4.  Load immediate (class 0x6) writes the low byte of the word to
    v[x] and advances the program counter by 2; no other register, no
    memory cell, no display element and not the index register change. *)
Theorem load_immediate (c d : Chip8) :
  wf c ->
  Decode c = Ok d ->
  topNibble (inst d) = 0x6 ->
  exists c',
    Execute c = Ok c'
    /\ v c' = <[Z.to_nat (GetXReg d) := bottomByte (inst d)]> (v c)
    /\ pc c' = pc c + 2
    /\ memory c' = memory c /\ gfx c' = gfx c /\ index c' = index c.
Proof.
  intros Hwf Hdec Hclass.
  destruct (Decode_frame c d Hwf Hdec) as (Hm & _ & Hi & _ & Hg & _).
  destruct (Execute_advances c d Hwf Hdec
              (with_v d (<[Z.to_nat (GetXReg d) := bottomByte (inst d)]> (v c))))
    as (c' & Hex & Hpc & Hv & Hm' & Hg' & Hi' & _).
  - apply class_nonzero. lia.
  - unfold dispatch. rewrite Hclass. cbv beta iota zeta.
    rewrite GetImm_2. cbn [obind]. now rewrite (set_v_x c d Hwf Hdec).
  - reflexivity.
  - exists c'. simpl in *. repeat split; congruence.
Qed.

Lemma load_immediate_witness :
  wf c_load /\ Decode c_load = Ok d_load /\ topNibble (inst d_load) = 0x6
  /\ exists c',
      Execute c_load = Ok c'
      /\ v c' = <[Z.to_nat (GetXReg d_load) := bottomByte (inst d_load)]> (v c_load)
      /\ pc c' = pc c_load + 2
      /\ memory c' = memory c_load /\ gfx c' = gfx c_load /\ index c' = index c_load.
Proof.
  assert (Hwf : wf c_load) by (vm_compute; reflexivity).
  assert (Hdec : Decode c_load = Ok d_load) by (vm_compute; reflexivity).
  assert (Hclass : topNibble (inst d_load) = 0x6) by reflexivity.
  split; [exact Hwf|]. split; [exact Hdec|]. split; [exact Hclass|].
  exact (load_immediate c_load d_load Hwf Hdec Hclass).
Defined.

(** X5.  Add immediate (class 0x7) replaces v[x] by (v[x] + low byte)
    mod 256 and advances the program counter by 2; it writes no flag: no
    other register changes, nor the memory, the display or the index
    register. *)
Theorem add_immediate (c d : Chip8) :
  wf c ->
  Decode c = Ok d ->
  topNibble (inst d) = 0x7 ->
  exists c' a,
    Execute c = Ok c'
    /\ v c !! Z.to_nat (GetXReg d) = Some a
    /\ v c' = <[Z.to_nat (GetXReg d) := (a + bottomByte (inst d)) mod 256]> (v c)
    /\ pc c' = pc c + 2
    /\ memory c' = memory c /\ gfx c' = gfx c /\ index c' = index c.
Proof.
  intros Hwf Hdec Hclass.
  destruct (Decode_frame c d Hwf Hdec) as (Hm & _ & Hi & _ & Hg & _).
  destruct (decoded_regs c d Hwf Hdec) as (a & _ & Ha & _ & Ha' & _).
  destruct (Execute_advances c d Hwf Hdec
              (with_v d (<[Z.to_nat (GetXReg d) := (a + bottomByte (inst d)) mod 256]> (v c))))
    as (c' & Hex & Hpc & Hv & Hm' & Hg' & Hi' & _).
  - apply class_nonzero. lia.
  - unfold dispatch. rewrite Hclass. cbv beta iota zeta.
    rewrite GetImm_2. cbn [obind]. rewrite Ha. cbn [obind].
    now rewrite (set_v_x c d Hwf Hdec).
  - reflexivity.
  - exists c', a. simpl in *. repeat split; congruence.
Qed.

Lemma add_immediate_witness :
  wf c_addi /\ Decode c_addi = Ok d_addi /\ topNibble (inst d_addi) = 0x7
  /\ exists c' a,
      Execute c_addi = Ok c'
      /\ v c_addi !! Z.to_nat (GetXReg d_addi) = Some a
      /\ v c' = <[Z.to_nat (GetXReg d_addi) := (a + bottomByte (inst d_addi)) mod 256]>
                  (v c_addi)
      /\ pc c' = pc c_addi + 2
      /\ memory c' = memory c_addi /\ gfx c' = gfx c_addi /\ index c' = index c_addi.
Proof.
  assert (Hwf : wf c_addi) by (vm_compute; reflexivity).
  assert (Hdec : Decode c_addi = Ok d_addi) by (vm_compute; reflexivity).
  assert (Hclass : topNibble (inst d_addi) = 0x7) by reflexivity.
  split; [exact Hwf|]. split; [exact Hdec|]. split; [exact Hclass|].
  exact (add_immediate c_addi d_addi Hwf Hdec Hclass).
Defined.

(** X6.  The register-register instructions 0x8xy0, 1, 2, 3, 5 and 7
    write v[y], v[x] | v[y], v[x] & v[y], v[x] ^ v[y], (v[x] - v[y]) mod
    256 and (v[y] - v[x]) mod 256 to v[x]; the result is a byte again, no
    other register is written (the subtractions set no borrow flag), and
    the program counter advances by 2. *)
Theorem alu_writes_vx (c d : Chip8) (a b r : Z) :
  wf c ->
  Decode c = Ok d ->
  topNibble (inst d) = 0x8 ->
  v c !! Z.to_nat (GetXReg d) = Some a ->
  v c !! Z.to_nat (GetYReg d) = Some b ->
  (bottomNibble (inst d) = 0x0 /\ r = b)
  \/ (bottomNibble (inst d) = 0x1 /\ r = Z.lor a b)
  \/ (bottomNibble (inst d) = 0x2 /\ r = Z.land a b)
  \/ (bottomNibble (inst d) = 0x3 /\ r = Z.lxor a b)
  \/ (bottomNibble (inst d) = 0x5 /\ r = (a - b) mod 256)
  \/ (bottomNibble (inst d) = 0x7 /\ r = (b - a) mod 256) ->
  exists c',
    Execute c = Ok c'
    /\ v c' = <[Z.to_nat (GetXReg d) := r]> (v c)
    /\ 0 <= r < 256
    /\ pc c' = pc c + 2
    /\ memory c' = memory c /\ gfx c' = gfx c /\ index c' = index c.
Proof.
  intros Hwf Hdec Hclass Ha' Hb' Hr.
  destruct (Decode_frame c d Hwf Hdec) as (Hm & Hv & Hi & Hpc & Hg & _).
  assert (Ha : at_index (v d) (GetXReg d) = Ok a) by (rewrite Hv; now apply at_index_Ok).
  assert (Hb : at_index (v d) (GetYReg d) = Ok b) by (rewrite Hv; now apply at_index_Ok).
  pose proof (wf_v_byte c Hwf _ _ Ha') as Ra.
  pose proof (wf_v_byte c Hwf _ _ Hb') as Rb.
  assert (Hres : alu_result (bottomNibble (inst d)) a b = Some r).
  { destruct Hr as [[N ->]|[[N ->]|[[N ->]|[[N ->]|[[N ->]|[N ->]]]]]];
      rewrite N; reflexivity. }
  destruct (Execute_advances c d Hwf Hdec
              (with_v d (<[Z.to_nat (GetXReg d) := r]> (v c))))
    as (c' & Hex & Hpc' & Hv' & Hm' & Hg' & Hi' & _).
  - apply class_nonzero. lia.
  - unfold dispatch. rewrite Hclass. cbv beta iota zeta.
    rewrite (Math8_alu d a b Ha Hb), Hres. now rewrite (set_v_x c d Hwf Hdec).
  - reflexivity.
  - exists c'. simpl in *.
    pose proof (alu_result_u8 _ a b r Ra Rb Hres).
    repeat split; try congruence; lia.
Qed.

Lemma alu_writes_vx_witness :
  wf c_xor /\ Decode c_xor = Ok d_xor /\ topNibble (inst d_xor) = 0x8
  /\ v c_xor !! Z.to_nat (GetXReg d_xor) = Some 0x0C
  /\ v c_xor !! Z.to_nat (GetYReg d_xor) = Some 0x0A
  /\ bottomNibble (inst d_xor) = 0x3
  /\ exists c',
      Execute c_xor = Ok c'
      /\ v c' = <[Z.to_nat (GetXReg d_xor) := Z.lxor 0x0C 0x0A]> (v c_xor)
      /\ 0 <= Z.lxor 0x0C 0x0A < 256
      /\ pc c' = pc c_xor + 2
      /\ memory c' = memory c_xor /\ gfx c' = gfx c_xor /\ index c' = index c_xor.
Proof.
  assert (Hwf : wf c_xor) by (vm_compute; reflexivity).
  assert (Hdec : Decode c_xor = Ok d_xor) by (vm_compute; reflexivity).
  assert (Hclass : topNibble (inst d_xor) = 0x8) by reflexivity.
  assert (Ha : v c_xor !! Z.to_nat (GetXReg d_xor) = Some 0x0C) by (vm_compute; reflexivity).
  assert (Hb : v c_xor !! Z.to_nat (GetYReg d_xor) = Some 0x0A) by (vm_compute; reflexivity).
  assert (Hsub : bottomNibble (inst d_xor) = 0x3) by reflexivity.
  split; [exact Hwf|]. split; [exact Hdec|]. split; [exact Hclass|].
  split; [exact Ha|]. split; [exact Hb|]. split; [exact Hsub|].
  apply (alu_writes_vx c_xor d_xor 0x0C 0x0A (Z.lxor 0x0C 0x0A) Hwf Hdec Hclass Ha Hb).
  right. right. right. left. split; [exact Hsub | reflexivity].
Defined.

(** X7.  A word of class 0x0 with a low nibble other than 0 (the return
    0x00EE among them) and a word of class 0x8 with sub-field 0x8 to 0xD
    or 0xF have no effect of their own: the cycle only advances the
    program counter by 2. *)
Theorem no_effect_words_advance (c d : Chip8) :
  wf c ->
  Decode c = Ok d ->
  (topNibble (inst d) = 0x0 /\ bottomNibble (inst d) <> 0x0)
  \/ (topNibble (inst d) = 0x8
      /\ (8 <= bottomNibble (inst d) <= 0xD \/ bottomNibble (inst d) = 0xF)) ->
  exists c',
    Execute c = Ok c'
    /\ pc c' = pc c + 2
    /\ v c' = v c /\ memory c' = memory c /\ gfx c' = gfx c
    /\ index c' = index c /\ stack c' = stack c /\ sp c' = sp c.
Proof.
  intros Hwf Hdec Hcase.
  destruct (Decode_frame c d Hwf Hdec) as (Hm & Hv & Hi & Hpc & Hg & _ & _ & Hst & Hsp).
  assert (Hstep : inst d <> 0 /\ dispatch d = Ok (IncPC d)).
  { destruct Hcase as [[Hclass Hsub] | [Hclass Hsub]].
    - assert (Hnz : inst d <> 0).
      { intros Hz. apply Hsub. now rewrite Hz. }
      split; [exact Hnz|].
      unfold dispatch. rewrite Hclass. cbv beta iota zeta.
      destruct (nibble_cases _ (bottomNibble_range (inst d)))
        as [N|[N|[N|[N|[N|[N|[N|[N|[N|[N|[N|[N|[N|[N|[N|N]]]]]]]]]]]]]]];
        try contradiction; rewrite N; reflexivity.
    - split; [apply class_nonzero; lia|].
      destruct (decoded_regs c d Hwf Hdec) as (a & b & Ha & Hb & _).
      unfold dispatch. rewrite Hclass. cbv beta iota zeta.
      rewrite (Math8_alu d a b Ha Hb).
      destruct (nibble_cases _ (bottomNibble_range (inst d)))
        as [N|[N|[N|[N|[N|[N|[N|[N|[N|[N|[N|[N|[N|[N|[N|N]]]]]]]]]]]]]]];
        rewrite N in Hsub |- *; try lia; reflexivity. }
  destruct Hstep as [Hnz Hdisp].
  destruct (Execute_advances c d Hwf Hdec d Hnz Hdisp eq_refl)
    as (c' & Hex & Hpc' & Hv' & Hm' & Hg' & Hi' & Hst' & Hsp').
  exists c'. repeat split; congruence.
Qed.

Lemma no_effect_words_advance_witness :
  wf c_alu8 /\ Decode c_alu8 = Ok d_alu8
  /\ topNibble (inst d_alu8) = 0x8 /\ bottomNibble (inst d_alu8) = 8
  /\ exists c',
      Execute c_alu8 = Ok c'
      /\ pc c' = pc c_alu8 + 2
      /\ v c' = v c_alu8 /\ memory c' = memory c_alu8 /\ gfx c' = gfx c_alu8
      /\ index c' = index c_alu8 /\ stack c' = stack c_alu8 /\ sp c' = sp c_alu8.
Proof.
  assert (Hwf : wf c_alu8) by (vm_compute; reflexivity).
  assert (Hdec : Decode c_alu8 = Ok d_alu8) by (vm_compute; reflexivity).
  assert (Hclass : topNibble (inst d_alu8) = 0x8) by reflexivity.
  assert (Hsub : bottomNibble (inst d_alu8) = 8) by reflexivity.
  split; [exact Hwf|]. split; [exact Hdec|]. split; [exact Hclass|]. split; [exact Hsub|].
  apply (no_effect_words_advance c_alu8 d_alu8 Hwf Hdec).
  right. split; [exact Hclass|]. left. rewrite Hsub. lia.
Defined.

(** X8.  A jump (class 0x1) sets the program counter to the low twelve
    bits of the word, a value below 4096, and changes neither registers,
    memory, display, index register, stack nor stack pointer. *)
Theorem jump_sets_pc (c d : Chip8) :
  wf c ->
  Decode c = Ok d ->
  topNibble (inst d) = 0x1 ->
  exists c',
    Execute c = Ok c'
    /\ pc c' = inst d mod 4096
    /\ v c' = v c /\ memory c' = memory c /\ gfx c' = gfx c
    /\ index c' = index c /\ stack c' = stack c /\ sp c' = sp c.
Proof.
  intros Hwf Hdec Hclass.
  destruct (Decode_frame c d Hwf Hdec) as (Hm & Hv & Hi & Hpc & Hg & _ & _ & Hst & Hsp).
  exists (dec_timers (SetPC d (targetAddr (inst d)))).
  split; [now apply jump_step|].
  destruct (dec_timers_frame (SetPC d (targetAddr (inst d))))
    as (_ & Tm & Tv & Ti & Tpc & Tg & Tst & Tsp).
  rewrite Tm, Tv, Ti, Tpc, Tg, Tst, Tsp. simpl. rewrite targetAddr_mod.
  repeat split; congruence.
Qed.

Lemma jump_sets_pc_witness :
  wf c_jump /\ Decode c_jump = Ok d_jump /\ topNibble (inst d_jump) = 0x1
  /\ exists c',
      Execute c_jump = Ok c'
      /\ pc c' = inst d_jump mod 4096
      /\ v c' = v c_jump /\ memory c' = memory c_jump /\ gfx c' = gfx c_jump
      /\ index c' = index c_jump /\ stack c' = stack c_jump /\ sp c' = sp c_jump.
Proof.
  assert (Hwf : wf c_jump) by (vm_compute; reflexivity).
  assert (Hdec : Decode c_jump = Ok d_jump) by (vm_compute; reflexivity).
  assert (Hclass : topNibble (inst d_jump) = 0x1) by reflexivity.
  split; [exact Hwf|]. split; [exact Hdec|]. split; [exact Hclass|].
  exact (jump_sets_pc c_jump d_jump Hwf Hdec Hclass).
Defined.

(** X9.  Load index (class 0xA) sets the index register to the low
    twelve bits of the word, so the index register then lies inside the
    memory, and advances the program counter by 2; registers, memory and
    display are unchanged. *)
Theorem load_index (c d : Chip8) :
  wf c ->
  Decode c = Ok d ->
  topNibble (inst d) = 0xA ->
  exists c',
    Execute c = Ok c'
    /\ index c' = inst d mod 4096
    /\ 0 <= index c' < memSize
    /\ pc c' = pc c + 2
    /\ v c' = v c /\ memory c' = memory c /\ gfx c' = gfx c.
Proof.
  intros Hwf Hdec Hclass.
  destruct (Decode_frame c d Hwf Hdec) as (Hm & Hv & Hi & Hpc & Hg & _).
  destruct (Execute_advances c d Hwf Hdec (SetIndex d))
    as (c' & Hex & Hpc' & Hv' & Hm' & Hg' & Hi' & _).
  - apply class_nonzero. lia.
  - unfold dispatch. now rewrite Hclass.
  - reflexivity.
  - exists c'. simpl in *. fold (targetAddr (inst d)) in Hi'.
    rewrite targetAddr_mod in Hi'.
    pose proof (Z.mod_pos_bound (inst d) 4096). unfold memSize.
    repeat split; try congruence; lia.
Qed.

Lemma load_index_witness :
  wf c_loadi /\ Decode c_loadi = Ok d_loadi /\ topNibble (inst d_loadi) = 0xA
  /\ exists c',
      Execute c_loadi = Ok c'
      /\ index c' = inst d_loadi mod 4096
      /\ 0 <= index c' < memSize
      /\ pc c' = pc c_loadi + 2
      /\ v c' = v c_loadi /\ memory c' = memory c_loadi /\ gfx c' = gfx c_loadi.
Proof.
  assert (Hwf : wf c_loadi) by (vm_compute; reflexivity).
  assert (Hdec : Decode c_loadi = Ok d_loadi) by (vm_compute; reflexivity).
  assert (Hclass : topNibble (inst d_loadi) = 0xA) by reflexivity.
  split; [exact Hwf|]. split; [exact Hdec|]. split; [exact Hclass|].
  exact (load_index c_loadi d_loadi Hwf Hdec Hclass).
Defined.

(** X10.  Every non-zero word of class 0x0 whose low nibble is 0 (0x00E0
    and, as only the low nibble is tested, words such as 0x0010 too)
    clears the screen: all 2048 elements of the display buffer become 0;
    the program counter advances by 2 and registers and memory are
    unchanged. *)
Theorem clear_screen (c d : Chip8) :
  wf c ->
  Decode c = Ok d ->
  inst d <> 0 ->
  topNibble (inst d) = 0x0 ->
  bottomNibble (inst d) = 0x0 ->
  exists c',
    Execute c = Ok c'
    /\ gfx c' = replicate 2048 0
    /\ pc c' = pc c + 2
    /\ v c' = v c /\ memory c' = memory c /\ index c' = index c.
Proof.
  intros Hwf Hdec Hnz Hclass Hsub.
  destruct (Decode_frame c d Hwf Hdec) as (Hm & Hv & Hi & Hpc & Hg & _).
  destruct (Execute_advances c d Hwf Hdec (with_gfx d (clear (gfx d))) Hnz)
    as (c' & Hex & Hpc' & Hv' & Hm' & Hg' & Hi' & _).
  - unfold dispatch. rewrite Hclass. cbv beta iota zeta. now rewrite Hsub.
  - reflexivity.
  - exists c'. cbn [v memory gfx index with_gfx] in *. unfold clear in Hg'.
    rewrite Hg, (wf_gfx_length c Hwf) in Hg'.
    repeat split; congruence.
Qed.

Lemma clear_screen_witness :
  wf c_clear /\ Decode c_clear = Ok d_clear /\ inst d_clear <> 0
  /\ topNibble (inst d_clear) = 0x0 /\ bottomNibble (inst d_clear) = 0x0
  /\ take 5 (gfx c_clear) = [0xF0; 0x90; 0x90; 0x90; 0xF0]
  /\ exists c',
      Execute c_clear = Ok c'
      /\ gfx c' = replicate 2048 0
      /\ pc c' = pc c_clear + 2
      /\ v c' = v c_clear /\ memory c' = memory c_clear /\ index c' = index c_clear.
Proof.
  assert (Hwf : wf c_clear) by (vm_compute; reflexivity).
  assert (Hdec : Decode c_clear = Ok d_clear) by (vm_compute; reflexivity).
  assert (Hnz : inst d_clear <> 0) by (intros H; discriminate H).
  assert (Hclass : topNibble (inst d_clear) = 0x0) by reflexivity.
  assert (Hsub : bottomNibble (inst d_clear) = 0x0) by reflexivity.
  split; [exact Hwf|]. split; [exact Hdec|]. split; [exact Hnz|].
  split; [exact Hclass|]. split; [exact Hsub|].
  split; [vm_compute; reflexivity|].
  exact (clear_screen c_clear d_clear Hwf Hdec Hnz Hclass Hsub).
Defined.

(** X11.  On the zero word [Execute] returns before the dispatch: the
    program counter is not advanced and the timers are not counted down,
    so the machine stays on that word for every further cycle.  The
    revision in [main.go] ends the process instead. *)
Theorem zero_word_halts (c d : Chip8) :
  wf c ->
  Decode c = Ok d ->
  inst d = 0 ->
  (forall n, run (S n) c = Ok d)
  /\ d = with_inst c 0
  /\ MainGo.Execute c = Exit.
Proof.
  intros Hwf Hdec Hz.
  assert (Hfix : forall e, Decode e = Ok d -> Execute e = Ok d)
    by (intros e He; now apply Execute_zero).
  assert (Hstay : forall n, run n d = Ok d).
  { induction n as [|n IH]; [reflexivity|]. simpl.
    rewrite (Hfix d (Decode_again c d Hwf Hdec)). exact IH. }
  split; [|split].
  - intros n. simpl. rewrite (Hfix c Hdec). apply Hstay.
  - destruct (Decode_inv c d Hwf Hdec) as (hi & lo & _ & _ & Hd & _).
    rewrite Hd in Hz |- *. simpl in Hz. now rewrite Hz.
  - now apply (MainGo_zero_exits c d).
Qed.

Lemma zero_word_halts_witness :
  wf c_zero /\ Decode c_zero = Ok d_zero /\ inst d_zero = 0
  /\ (forall n, run (S n) c_zero = Ok d_zero)
  /\ d_zero = with_inst c_zero 0
  /\ MainGo.Execute c_zero = Exit.
Proof.
  assert (Hwf : wf c_zero) by (vm_compute; reflexivity).
  assert (Hdec : Decode c_zero = Ok d_zero) by (vm_compute; reflexivity).
  assert (Hz : inst d_zero = 0) by reflexivity.
  split; [exact Hwf|]. split; [exact Hdec|]. split; [exact Hz|].
  exact (zero_word_halts c_zero d_zero Hwf Hdec Hz).
Defined.

(** ** Cycles in general *)

(** X12.  Every cycle that returns keeps the machine well formed (all
    fields within their Go types, memory of 4096 bytes, display of 2048
    bytes, 16 registers) and never writes the stack or the stack
    pointer. *)
Theorem Execute_keeps_wf (c c' : Chip8) :
  wf c ->
  Execute c = Ok c' ->
  wf c' /\ stack c' = stack c /\ sp c' = sp c.
Proof.
  intros Hwf Hex.
  destruct (Execute_outcome c Hwf) as [(e & He & Hwfe & Hst & Hsp & _) | Hp].
  - rewrite Hex in He. inversion He; subst e. tauto.
  - rewrite Hp in Hex. discriminate Hex.
Qed.

Lemma Execute_keeps_wf_witness :
  wf c_store /\ Execute c_store = Ok c_read
  /\ wf c_read /\ stack c_read = stack c_store /\ sp c_read = sp c_store.
Proof.
  assert (Hwf : wf c_store) by (vm_compute; reflexivity).
  assert (Hex : Execute c_store = Ok c_read) by (vm_compute; reflexivity).
  split; [exact Hwf|]. split; [exact Hex|].
  exact (Execute_keeps_wf c_store c_read Hwf Hex).
Defined.

(** When a cycle panics. *)
Lemma panic_cases (c : Chip8) :
  wf c ->
  (Execute c = Panic
   <-> 4095 <= pc c
       \/ exists d, Decode c = Ok d /\ topNibble (inst d) = 0xF
                    /\ (bottomByte (inst d) = 0x55 \/ bottomByte (inst d) = 0x65)
                    /\ memSize <= index c)
  /\ (Execute c = Panic \/ exists c', Execute c = Ok c').
Proof.
  intros Hwf.
  pose proof (wf_pc_range c Hwf) as Rpc.
  destruct (Z_lt_le_dec (pc c + 1) 4096) as [Hin | Hout].
  - destruct (Decode_in_range c Hwf Hin) as [d Hdec].
    pose proof (wf_Decode c Hwf d Hdec) as Hwfd.
    destruct (Decode_frame c d Hwf Hdec) as (_ & _ & Hi & _).
    destruct (Z.eq_dec (inst d) 0) as [Hz | Hnz].
    + rewrite (Execute_zero c d Hdec Hz). split; [|right; eauto].
      split; [intros H; discriminate H|].
      intros [Hpc | (d' & Hd' & Hc & _)]; [lia|].
      rewrite Hdec in Hd'. inversion Hd'; subst d'. rewrite Hz in Hc. discriminate Hc.
    + rewrite (Execute_nonzero c d Hdec Hnz).
      destruct (dispatch_outcome d Hwfd) as [(e & He & _) | (Hp & Hidx & Hc & Hb)].
      * rewrite He. cbn [obind]. split; [|right; eauto].
        split; [intros H; discriminate H|].
        intros [Hpc | (d' & Hd' & Hc & Hb & Hidx)]; [lia|].
        rewrite Hdec in Hd'. inversion Hd'; subst d'.
        exfalso.
        pose proof (store_read_out_of_range c d Hwf Hdec Hc Hb Hidx) as Hp.
        rewrite (Execute_nonzero c d Hdec Hnz), He in Hp. discriminate Hp.
      * rewrite Hp. cbn [obind]. split; [|left; reflexivity].
        split; [|reflexivity]. intros _. right. exists d.
        rewrite <- Hi. tauto.
  - assert (Hp : Execute c = Panic).
    { unfold Execute. rewrite (Decode_out_of_range c Hwf) by lia. reflexivity. }
    rewrite Hp. split; [|left; reflexivity].
    split; [intros _; left; lia | reflexivity].
Qed.

(** X13.  A cycle panics in exactly two situations: the fetch reads
    past the end of the memory (program counter at 4095 or beyond), or
    the word is a store or read (0xFx55, 0xFx65) and the index register
    is 4096 or more.  In every other case it returns. *)
Theorem Execute_panics_iff (c : Chip8) :
  wf c ->
  (Execute c = Panic
   <-> 4095 <= pc c
       \/ exists d, Decode c = Ok d /\ topNibble (inst d) = 0xF
                    /\ (bottomByte (inst d) = 0x55 \/ bottomByte (inst d) = 0x65)
                    /\ memSize <= index c)
  /\ (Execute c = Panic \/ exists c', Execute c = Ok c').
Proof. exact (panic_cases c). Qed.

Lemma Execute_panics_iff_witness :
  wf c_end /\ pc c_end = 4095 /\ Execute c_end = Panic.
Proof.
  assert (Hwf : wf c_end) by (vm_compute; reflexivity).
  assert (Hpc : pc c_end = 4095) by (vm_compute; reflexivity).
  split; [exact Hwf|]. split; [exact Hpc|].
  apply (proj1 (Execute_panics_iff c_end Hwf)). left. rewrite Hpc. lia.
Defined.

(** ** More on the draw instruction *)

(** X14.  A draw whose sprite does not lie entirely below address 256
    (index + n >= 256) draws nothing: the loop bound is computed in
    [uint8] and is then below the start address.  The display, the
    registers and the memory are unchanged and the program counter
    advances by 2.  In particular a sprite stored with the program, at
    0x200 or above, is never drawn. *)
Theorem draw_high_sprite_ignored (c d : Chip8) :
  wf c ->
  Decode c = Ok d ->
  topNibble (inst d) = 0xD ->
  256 <= index c + bottomNibble (inst d) ->
  exists c',
    Execute c = Ok c'
    /\ gfx c' = gfx c
    /\ v c' = v c /\ memory c' = memory c
    /\ pc c' = pc c + 2.
Proof.
  intros Hwf Hdec Hclass Hhigh.
  destruct (Decode_frame c d Hwf Hdec) as (Hm & Hv & _ & Hpc & Hg & _).
  exists (dec_timers (IncPC (with_gfx d (gfx c)))).
  split; [now apply draw_skipped|].
  destruct (dec_timers_frame (IncPC (with_gfx d (gfx c))))
    as (_ & Tm & Tv & _ & Tpc & Tg & _).
  rewrite Tm, Tv, Tpc, Tg. cbn [gfx memory v IncPC with_pc with_gfx].
  repeat split; trivial.
  apply (IncPC_after_Decode c d Hwf Hdec (with_gfx d (gfx c))). exact Hpc.
Qed.

Lemma draw_high_sprite_ignored_witness :
  wf c_sprite /\ Decode c_sprite = Ok d_sprite /\ topNibble (inst d_sprite) = 0xD
  /\ 256 <= index c_sprite + bottomNibble (inst d_sprite)
  /\ memory c_sprite !! Z.to_nat (index c_sprite) = Some 0xFF
  /\ exists c',
      Execute c_sprite = Ok c'
      /\ gfx c' = gfx c_sprite
      /\ v c' = v c_sprite /\ memory c' = memory c_sprite
      /\ pc c' = pc c_sprite + 2.
Proof.
  assert (Hwf : wf c_sprite) by (vm_compute; reflexivity).
  assert (Hdec : Decode c_sprite = Ok d_sprite) by (vm_compute; reflexivity).
  assert (Hclass : topNibble (inst d_sprite) = 0xD) by reflexivity.
  assert (Hhigh : 256 <= index c_sprite + bottomNibble (inst d_sprite))
    by (vm_compute; intros H; discriminate H).
  split; [exact Hwf|]. split; [exact Hdec|]. split; [exact Hclass|].
  split; [exact Hhigh|]. split; [vm_compute; reflexivity|].
  exact (draw_high_sprite_ignored c_sprite d_sprite Hwf Hdec Hclass Hhigh).
Defined.

(** Whether an element of the display buffer is one the loop writes. *)
Lemma target_or_not (vx vy : Z) (k : nat) (n : nat) :
  (exists t, 0 <= t < Z.of_nat n /\ k = gfx_target vx vy t)
  \/ (forall t, 0 <= t < Z.of_nat n -> k <> gfx_target vx vy t).
Proof.
  induction n as [|n [(t & Ht & Hk) | Hnone]].
  - right. intros t Ht. lia.
  - left. exists t. split; [lia | exact Hk].
  - destruct (Nat.eq_dec k (gfx_target vx vy (Z.of_nat n))) as [E | E].
    + left. exists (Z.of_nat n). split; [lia | exact E].
    + right. intros t Ht. destruct (Z.eq_dec t (Z.of_nat n)) as [-> | Hne];
        [exact E | apply Hnone; lia].
Qed.

(** X15.  Drawing overwrites: a second draw of the same sprite at the
    same place (same word, registers, index register and memory) leaves
    the display exactly as the first draw left it; it does not erase the
    sprite. *)
Theorem draw_twice_same (c d c1 c' d' : Chip8) :
  wf c ->
  Decode c = Ok d ->
  topNibble (inst d) = 0xD ->
  index c + bottomNibble (inst d) < 256 ->
  Execute c = Ok c1 ->
  wf c' ->
  Decode c' = Ok d' ->
  inst d' = inst d ->
  v c' = v c -> index c' = index c -> memory c' = memory c ->
  gfx c' = gfx c1 ->
  exists c2, Execute c' = Ok c2 /\ gfx c2 = gfx c1.
Proof.
  intros Hwf Hdec Hclass Hlow Hex Hwf' Hdec' Hinst Hv Hi Hm Hg.
  destruct (draw_step c d Hwf Hdec Hclass Hlow)
    as (g & vx & vy & Hex1 & Hx & Hy & Hlen & Hcopy & Hrest & _).
  rewrite Hex in Hex1. inversion Hex1; subst c1. clear Hex1.
  destruct (dec_timers_frame (IncPC (with_gfx d g))) as (_ & _ & _ & _ & _ & Tg & _).
  rewrite Tg in Hg |- *. cbn [gfx IncPC with_pc with_gfx] in Hg |- *.
  assert (Hclass' : topNibble (inst d') = 0xD) by congruence.
  assert (Hlow' : index c' + bottomNibble (inst d') < 256) by congruence.
  destruct (draw_step c' d' Hwf' Hdec' Hclass' Hlow')
    as (g2 & vx' & vy' & Hex2 & Hx' & Hy' & Hlen2 & Hcopy2 & Hrest2 & _).
  assert (Hxy : GetXReg d' = GetXReg d /\ GetYReg d' = GetYReg d)
    by (unfold GetXReg, GetYReg; rewrite Hinst; tauto).
  destruct Hxy as [Ex Ey].
  rewrite Hv, Ex, Hx in Hx'. rewrite Hv, Ey, Hy in Hy'.
  inversion Hx'; subst vx'. inversion Hy'; subst vy'.
  rewrite Hinst, Hi, Hm in Hcopy2. rewrite Hinst, Hg in Hrest2.
  eexists. split; [exact Hex2|].
  match goal with |- context [dec_timers ?e] =>
    destruct (dec_timers_frame e) as (_ & _ & _ & _ & _ & Tg2 & _) end.
  rewrite Tg2. cbn [gfx IncPC with_pc with_gfx].
  apply list_eq. intros k.
  pose proof (bottomNibble_range (inst d)) as Hn.
  destruct (target_or_not vx vy k (Z.to_nat (bottomNibble (inst d))))
    as [(t & Ht & ->) | Hnone]; rewrite Z2Nat.id in * by lia.
  - now rewrite Hcopy2, Hcopy.
  - now apply Hrest2.
Qed.

Lemma draw_twice_same_witness :
  wf c_glyph1 /\ Decode c_glyph1 = Ok d_glyph1 /\ topNibble (inst d_glyph1) = 0xD
  /\ index c_glyph1 + bottomNibble (inst d_glyph1) < 256
  /\ Execute c_glyph1 = Ok c_glyph2
  /\ wf c_glyph2 /\ Decode c_glyph2 = Ok d_glyph2
  /\ take 5 (gfx c_glyph2) = [0xF0; 0x90; 0x90; 0x90; 0xF0]
  /\ exists c2, Execute c_glyph2 = Ok c2 /\ gfx c2 = gfx c_glyph2.
Proof.
  assert (Hwf : wf c_glyph1) by (vm_compute; reflexivity).
  assert (Hdec : Decode c_glyph1 = Ok d_glyph1) by (vm_compute; reflexivity).
  assert (Hclass : topNibble (inst d_glyph1) = 0xD) by reflexivity.
  assert (Hlow : index c_glyph1 + bottomNibble (inst d_glyph1) < 256)
    by (vm_compute; reflexivity).
  assert (Hex : Execute c_glyph1 = Ok c_glyph2) by (vm_compute; reflexivity).
  assert (Hwf' : wf c_glyph2) by (vm_compute; reflexivity).
  assert (Hdec' : Decode c_glyph2 = Ok d_glyph2) by (vm_compute; reflexivity).
  split; [exact Hwf|]. split; [exact Hdec|]. split; [exact Hclass|].
  split; [exact Hlow|]. split; [exact Hex|]. split; [exact Hwf'|].
  split; [exact Hdec'|]. split; [vm_compute; reflexivity|].
  apply (draw_twice_same c_glyph1 d_glyph1 c_glyph2 c_glyph2 d_glyph2
           Hwf Hdec Hclass Hlow Hex Hwf' Hdec');
    vm_compute; reflexivity.
Defined.

(** ** Creating a machine *)

(** The machine [Init] returns. *)
Lemma Init_value (c : Chip8) :
  Init c = Ok (mkChip8 0 (replicate 0x50 0 ++ fontSet ++ replicate 3936 0) (v c)
                       0 progStart (replicate 2048 0) 0 0 (stack c) 0).
Proof.
  assert (Hfont : copy_font fontSet 0 (replicate (Z.to_nat memSize) 0)
                  = Ok (replicate 0x50 0 ++ fontSet ++ replicate 3936 0))
    by (vm_compute; reflexivity).
  unfold Init. cbn [memory with_memory with_gfx]. rewrite Hfont. reflexivity.
Qed.

(** X16.  [Init] sets the program counter to 0x200, zeroes [inst], the
    index register, the stack pointer and both timers, allocates a memory
    of 4096 zero bytes holding the 80 font bytes at 0x50 to 0x9F, and a
    display of 2048 zero bytes.  It does not touch the registers or the
    stack: they keep whatever they held. *)
Theorem Init_result (c : Chip8) :
  exists c',
    Init c = Ok c'
    /\ memory c' = replicate 0x50 0 ++ fontSet ++ replicate 3936 0
    /\ gfx c' = replicate 2048 0
    /\ pc c' = progStart
    /\ inst c' = 0 /\ index c' = 0 /\ sp c' = 0
    /\ delayTimer c' = 0 /\ soundTimer c' = 0
    /\ v c' = v c /\ stack c' = stack c.
Proof.
  eexists. split; [apply Init_value|]. cbn. repeat split; reflexivity.
Qed.

Lemma forallb_take (p : Z -> bool) (l : list Z) (n : nat) :
  forallb p l = true -> forallb p (take n l) = true.
Proof.
  revert n. induction l as [|a l IH]; intros [|n] Hl; try reflexivity.
  simpl in *. apply andb_true_iff in Hl. destruct Hl as [Ha Hl].
  rewrite Ha. now apply IH.
Qed.

Lemma forallb_drop (p : Z -> bool) (l : list Z) (n : nat) :
  forallb p l = true -> forallb p (drop n l) = true.
Proof.
  revert n. induction l as [|a l IH]; intros [|n] Hl; try reflexivity; try exact Hl.
  simpl in *. apply andb_true_iff in Hl. destruct Hl as [Ha Hl]. now apply IH.
Qed.

(** Overwriting a stretch of a list: what [LoadProgram] builds. *)
Section Splice.

Variables (m bs : list Z) (p n : nat).
Hypothesis Hn : (n <= length bs)%nat.
Hypothesis Hfit : (p + n <= length m)%nat.

Lemma splice_length : length (take p m ++ take n bs ++ drop (p + n) m) = length m.
Proof. rewrite !length_app, !length_take, length_drop. lia. Qed.

Lemma splice_inside (i : nat) :
  (i < n)%nat -> (take p m ++ take n bs ++ drop (p + n) m) !! (p + i)%nat = bs !! i.
Proof.
  intros Hi. rewrite lookup_app_r by (rewrite length_take; lia).
  rewrite length_take. replace (p + i - Nat.min p (length m))%nat with i by lia.
  rewrite lookup_app_l by (rewrite length_take; lia).
  now apply lookup_take_lt.
Qed.

Lemma splice_outside (k : nat) :
  (k < p \/ p + n <= k)%nat ->
  (take p m ++ take n bs ++ drop (p + n) m) !! k = m !! k.
Proof.
  intros [Hk | Hk].
  - rewrite lookup_app_l by (rewrite length_take; lia). now apply lookup_take_lt.
  - rewrite lookup_app_r by (rewrite length_take; lia).
    rewrite lookup_app_r by (rewrite !length_take; lia).
    rewrite !length_take, lookup_drop. f_equal. lia.
Qed.

End Splice.

(** The machine [LoadProgram] returns for a non-empty file. *)
Lemma LoadProgram_value (bytes : list Z) (c : Chip8) :
  length (memory c) = Z.to_nat memSize ->
  bytes <> [] ->
  LoadProgram bytes c
  = Ok (with_memory c (take 512 (memory c)
                         ++ take (Nat.min (length bytes) 3584) bytes
                         ++ drop (512 + Nat.min (length bytes) 3584) (memory c))).
Proof.
  intros Hlen Hne. change (Z.to_nat memSize) with 4096%nat in *.
  unfold LoadProgram. change (Z.to_nat progStart) with 512%nat.
  rewrite Hlen. change (4096 <? 512)%nat with false. cbv iota.
  change (4096 - 512)%nat with 3584%nat. cbv zeta.
  destruct bytes; [contradiction | reflexivity].
Qed.

(** X17.  [LoadProgram] copies the file into the memory from address
    0x200 on and changes nothing else: byte i of the file is at
    0x200 + i, every address below 0x200 and after the file keeps its
    content, and the memory keeps its length.  A file longer than the
    3584 bytes of room is cut off there without an error. *)
Theorem LoadProgram_copies (bytes : list Z) (c : Chip8) :
  length (memory c) = Z.to_nat memSize ->
  bytes <> [] ->
  exists c',
    LoadProgram bytes c = Ok c'
    /\ c' = with_memory c (memory c')
    /\ length (memory c') = Z.to_nat memSize
    /\ (forall i, (i < Nat.min (length bytes) 3584)%nat ->
                  memory c' !! (512 + i)%nat = bytes !! i)
    /\ (forall k, (k < 512 \/ 512 + length bytes <= k)%nat ->
                  memory c' !! k = memory c !! k).
Proof.
  intros Hlen Hne.
  eexists. split; [now apply LoadProgram_value|].
  change (Z.to_nat memSize) with 4096%nat in *.
  set (n := Nat.min (length bytes) 3584).
  assert (Hn : (n <= length bytes)%nat) by (unfold n; lia).
  assert (Hfit : (512 + n <= length (memory c))%nat) by (unfold n; lia).
  cbn [memory with_memory].
  split; [reflexivity|].
  split; [rewrite splice_length by assumption; exact Hlen|].
  split.
  - intros i Hi. now apply splice_inside.
  - intros k Hk. apply splice_outside; trivial. unfold n. lia.
Qed.

Lemma LoadProgram_copies_witness :
  exists c0,
    Init new_Chip8 = Ok c0
    /\ length (memory c0) = Z.to_nat memSize
    /\ prog_store_read <> []
    /\ exists c',
        LoadProgram prog_store_read c0 = Ok c'
        /\ c' = with_memory c0 (memory c')
        /\ length (memory c') = Z.to_nat memSize
        /\ (forall i, (i < Nat.min (length prog_store_read) 3584)%nat ->
                      memory c' !! (512 + i)%nat = prog_store_read !! i)
        /\ (forall k, (k < 512 \/ 512 + length prog_store_read <= k)%nat ->
                      memory c' !! k = memory c0 !! k).
Proof.
  destruct (Init new_Chip8) as [c0| | |] eqn:Hinit;
    try (vm_compute in Hinit; discriminate Hinit).
  assert (Hlen : length (memory c0) = Z.to_nat memSize)
    by (vm_compute in Hinit; inversion Hinit; reflexivity).
  assert (Hne : prog_store_read <> []) by (intros H; discriminate H).
  exists c0. split; [reflexivity|]. split; [exact Hlen|]. split; [exact Hne|].
  exact (LoadProgram_copies prog_store_read c0 Hlen Hne).
Defined.


(** The machine [NewChip] returns for a non-empty file of bytes. *)
Lemma NewChip_value (bytes : list Z) :
  bytes <> [] ->
  forallb is_u8 bytes = true ->
  exists c,
    NewChip bytes = Ok c
    /\ wf c
    /\ pc c = progStart /\ inst c = 0 /\ index c = 0 /\ sp c = 0
    /\ delayTimer c = 0 /\ soundTimer c = 0
    /\ v c = replicate 16 0 /\ stack c = replicate 16 0
    /\ gfx c = replicate 2048 0
    /\ memory c = take 512 (replicate 0x50 0 ++ fontSet ++ replicate 3936 0)
                    ++ take (Nat.min (length bytes) 3584) bytes
                    ++ drop (512 + Nat.min (length bytes) 3584)
                            (replicate 0x50 0 ++ fontSet ++ replicate 3936 0).
Proof.
  intros Hne Hbytes. unfold NewChip. rewrite Init_value. cbn [obind].
  set (c0 := mkChip8 0 (replicate 0x50 0 ++ fontSet ++ replicate 3936 0) (v new_Chip8)
                     0 progStart (replicate 2048 0) 0 0 (stack new_Chip8) 0).
  assert (Hwf0 : wf c0) by (vm_compute; reflexivity).
  assert (Hlen0 : length (memory c0) = Z.to_nat memSize) by (vm_compute; reflexivity).
  rewrite (LoadProgram_value bytes c0 Hlen0 Hne).
  eexists. split; [reflexivity|]. split.
  - apply (wf_with_memory c0 Hwf0).
    + rewrite splice_length; [reflexivity | lia |].
      change (length (memory c0)) with 4096%nat. lia.
    + rewrite !forallb_app. apply wf_iff in Hwf0.
      rewrite forallb_take, forallb_take, forallb_drop by tauto. reflexivity.
  - cbn. repeat split; reflexivity.
Qed.

(** X19.  [NewChip] on a non-empty file of bytes returns a well-formed
    machine: program counter 0x200, registers, stack, timers, index
    register and display all zero, the font at 0x50 to 0x9F, and the file
    at 0x200. *)
Theorem NewChip_ready (bytes : list Z) :
  bytes <> [] ->
  forallb is_u8 bytes = true ->
  exists c,
    NewChip bytes = Ok c
    /\ wf c
    /\ pc c = progStart /\ index c = 0 /\ sp c = 0
    /\ delayTimer c = 0 /\ soundTimer c = 0
    /\ v c = replicate 16 0 /\ stack c = replicate 16 0
    /\ gfx c = replicate 2048 0
    /\ (forall i, (i < 80)%nat -> memory c !! (80 + i)%nat = fontSet !! i)
    /\ (forall i, (i < Nat.min (length bytes) 3584)%nat ->
                  memory c !! (512 + i)%nat = bytes !! i).
Proof.
  intros Hne Hbytes.
  destruct (NewChip_value bytes Hne Hbytes)
    as (c & Hnew & Hwf & Hpc & _ & Hi & Hsp & Hd & Hs & Hv & Hst & Hg & Hm).
  exists c. repeat split; trivial.
  - intros i Hi80. rewrite Hm. rewrite splice_outside.
    + rewrite lookup_app_r by (rewrite length_replicate; lia).
      rewrite length_replicate. replace (80 + i - 80)%nat with i by lia.
      apply lookup_app_l. change (length fontSet) with 80%nat. lia.
    + lia.
    + change (length (replicate 0x50 0 ++ fontSet ++ replicate 3936 0)) with 4096%nat. lia.
    + lia.
  - intros i Hlt. rewrite Hm. apply splice_inside; [lia | | exact Hlt].
    change (length (replicate 0x50 0 ++ fontSet ++ replicate 3936 0)) with 4096%nat. lia.
Qed.

Lemma NewChip_ready_witness :
  prog_store_read <> [] /\ forallb is_u8 prog_store_read = true
  /\ exists c,
      NewChip prog_store_read = Ok c
      /\ wf c
      /\ pc c = progStart /\ index c = 0 /\ sp c = 0
      /\ delayTimer c = 0 /\ soundTimer c = 0
      /\ v c = replicate 16 0 /\ stack c = replicate 16 0
      /\ gfx c = replicate 2048 0
      /\ (forall i, (i < 80)%nat -> memory c !! (80 + i)%nat = fontSet !! i)
      /\ (forall i, (i < Nat.min (length prog_store_read) 3584)%nat ->
                    memory c !! (512 + i)%nat = prog_store_read !! i).
Proof.
  assert (Hne : prog_store_read <> []) by (intros H; discriminate H).
  assert (Hb : forallb is_u8 prog_store_read = true) by reflexivity.
  split; [exact Hne|]. split; [exact Hb|].
  exact (NewChip_ready prog_store_read Hne Hb).
Defined.

(** ** Runs from a fresh machine *)

Lemma run_index (n : nat) :
  forall c c',
    wf c -> 0 <= index c < memSize -> run n c = Ok c' -> 0 <= index c' < memSize.
Proof.
  induction n as [|n IH]; intros c c' Hwf Hidx Hrun; simpl in Hrun.
  - inversion Hrun; subst c'. exact Hidx.
  - apply obind_Ok in Hrun. destruct Hrun as (c1 & Hex & Hrun).
    destruct (Execute_outcome c Hwf) as [(e & He & Hwfe & _ & _ & Hi) | Hp];
      [| rewrite Hp in Hex; discriminate Hex].
    rewrite Hex in He. inversion He; subst e.
    apply (IH c1 c' Hwfe); [|exact Hrun].
    destruct Hi as [E | E]; [rewrite E; exact Hidx | exact E].
Qed.

(** X20.  In every state a run from [NewChip] reaches, the machine is
    well formed, both timers are 0 (no instruction starts them, so the
    sound is never on), the stack is all zero and the stack pointer 0 (no
    instruction uses them), and the index register is below 4096; so the
    next cycle panics only if the program counter has reached the end of
    the memory. *)
Theorem run_from_NewChip (bytes : list Z) (c0 c : Chip8) (n : nat) :
  forallb is_u8 bytes = true ->
  NewChip bytes = Ok c0 ->
  run n c0 = Ok c ->
  wf c
  /\ delayTimer c = 0 /\ soundTimer c = 0
  /\ sp c = 0 /\ stack c = replicate 16 0
  /\ 0 <= index c < memSize
  /\ (Execute c = Panic <-> 4095 <= pc c).
Proof.
  intros Hbytes Hnew Hrun.
  assert (Hne : bytes <> []).
  { intros ->. vm_compute in Hnew. discriminate Hnew. }
  destruct (NewChip_value bytes Hne Hbytes)
    as (c0' & Hnew' & Hwf0 & _ & _ & Hi0 & Hsp0 & Hd0 & Hs0 & _ & Hst0 & _).
  rewrite Hnew in Hnew'. inversion Hnew'; subst c0'.
  destruct (run_invariant n c0 c Hwf0 Hd0 Hs0 Hrun) as (Hwf & Hd & Hs & Hst & Hsp).
  assert (Hidx : 0 <= index c < memSize).
  { apply (run_index n c0 c Hwf0); [rewrite Hi0; unfold memSize; lia | exact Hrun]. }
  repeat split; try congruence; try lia.
  - intros Hp. apply (proj1 (panic_cases c Hwf)) in Hp.
    destruct Hp as [Hp | (d & _ & _ & _ & Hout)]; [exact Hp | lia].
  - intros Hpc. apply (proj1 (panic_cases c Hwf)). now left.
Qed.

Lemma run_from_NewChip_witness :
  forallb is_u8 prog_store_read = true
  /\ NewChip prog_store_read = Ok (chip_of prog_store_read)
  /\ run 3 (chip_of prog_store_read) = Ok c_read
  /\ wf c_read
  /\ delayTimer c_read = 0 /\ soundTimer c_read = 0
  /\ sp c_read = 0 /\ stack c_read = replicate 16 0
  /\ 0 <= index c_read < memSize
  /\ (Execute c_read = Panic <-> 4095 <= pc c_read).
Proof.
  assert (Hb : forallb is_u8 prog_store_read = true) by reflexivity.
  assert (Hnew : NewChip prog_store_read = Ok (chip_of prog_store_read))
    by (vm_compute; reflexivity).
  assert (Hrun : run 3 (chip_of prog_store_read) = Ok c_read)
    by (vm_compute; reflexivity).
  split; [exact Hb|]. split; [exact Hnew|]. split; [exact Hrun|].
  exact (run_from_NewChip prog_store_read (chip_of prog_store_read) c_read 3
           Hb Hnew Hrun).
Defined.



(** The machine with running timers is outside every run from [NewChip]. *)
Lemma c_timer_not_reached (bytes : list Z) (c0 : Chip8) (n : nat) :
  forallb is_u8 bytes = true ->
  NewChip bytes = Ok c0 ->
  run n c0 <> Ok c_timer.
Proof.
  intros Hbytes Hnew Hrun.
  assert (Hne : bytes <> []).
  { intros ->. vm_compute in Hnew. discriminate Hnew. }
  destruct (NewChip_value bytes Hne Hbytes)
    as (c0' & Hnew' & Hwf0 & _ & _ & _ & _ & Hd0 & Hs0 & _).
  rewrite Hnew in Hnew'. inversion Hnew'; subst c0'.
  destruct (run_invariant n c0 c_timer Hwf0 Hd0 Hs0 Hrun) as (_ & Hd & _).
  vm_compute in Hd. discriminate Hd.
Qed.

(** ** The two revisions *)

(** X21.  On every non-zero word other than a draw (class 0xD) and a
    clear-screen (class 0x0, low nibble 0), a cycle of the later revision
    is a cycle of [main.go] followed by the timer countdown: both return
    or both panic, and the machines returned differ in the timers only. *)
Theorem revisions_agree (c d : Chip8) :
  Decode c = Ok d ->
  inst d <> 0 ->
  topNibble (inst d) <> 0xD ->
  (topNibble (inst d) = 0x0 -> bottomNibble (inst d) <> 0x0) ->
  (forall e, MainGo.Execute c = Ok e -> Execute c = Ok (dec_timers e))
  /\ (forall c', Execute c = Ok c' ->
                 exists e, MainGo.Execute c = Ok e /\ c' = dec_timers e)
  /\ (MainGo.Execute c = Panic <-> Execute c = Panic).
Proof.
  intros Hdec Hnz HD H0.
  rewrite (MainGo_Execute_agrees c d Hdec Hnz HD H0).
  destruct (MainGo.Execute c) as [e0| | |]; cbn [obind].
  - split; [|split].
    + intros e He. inversion He. reflexivity.
    + intros c' Hc'. inversion Hc'. eauto.
    + split; intros H; discriminate H.
  - split; [|split].
    + intros e H. discriminate H.
    + intros c' H. discriminate H.
    + tauto.
  - split; [|split].
    + intros e H. discriminate H.
    + intros c' H. discriminate H.
    + split; intros H; discriminate H.
  - split; [|split].
    + intros e H. discriminate H.
    + intros c' H. discriminate H.
    + split; intros H; discriminate H.
Qed.

Lemma revisions_agree_witness :
  Decode c_store = Ok d_store /\ inst d_store <> 0
  /\ MainGo.Execute c_store = Ok c_read
  /\ (forall e, MainGo.Execute c_store = Ok e -> Execute c_store = Ok (dec_timers e))
  /\ (forall c', Execute c_store = Ok c' ->
                 exists e, MainGo.Execute c_store = Ok e /\ c' = dec_timers e)
  /\ (MainGo.Execute c_store = Panic <-> Execute c_store = Panic).
Proof.
  assert (Hdec : Decode c_store = Ok d_store) by (vm_compute; reflexivity).
  assert (Hnz : inst d_store <> 0) by (intros H; discriminate H).
  assert (HD : topNibble (inst d_store) <> 0xD) by (intros H; discriminate H).
  assert (H0 : topNibble (inst d_store) = 0x0 -> bottomNibble (inst d_store) <> 0x0)
    by (intros H; discriminate H).
  split; [exact Hdec|]. split; [exact Hnz|]. split; [vm_compute; reflexivity|].
  exact (revisions_agree c_store d_store Hdec Hnz HD H0).
Defined.

(** X22.  The revision in [main.go] never writes the timers: every
    cycle that returns leaves delayTimer and soundTimer as they were. *)
Theorem maingo_timers_untouched (c c' : Chip8) :
  wf c ->
  MainGo.Execute c = Ok c' ->
  delayTimer c' = delayTimer c /\ soundTimer c' = soundTimer c.
Proof. intros Hwf Hex. exact (MainGo_keeps_timers c c' Hwf Hex). Qed.

Lemma maingo_timers_untouched_witness :
  wf c_timer /\ delayTimer c_timer = 5 /\ soundTimer c_timer = 3
  /\ exists c',
      MainGo.Execute c_timer = Ok c'
      /\ delayTimer c' = delayTimer c_timer /\ soundTimer c' = soundTimer c_timer.
Proof.
  assert (Hwf : wf c_timer) by (vm_compute; reflexivity).
  split; [exact Hwf|]. split; [reflexivity|]. split; [reflexivity|].
  destruct (MainGo.Execute c_timer) as [c'| | |] eqn:Hex;
    try (vm_compute in Hex; discriminate Hex).
  exists c'. split; [reflexivity|].
  exact (maingo_timers_untouched c_timer c' Hwf Hex).
Defined.

(** X23.  The revision in [main.go] has no case for a draw word (class
    0xD): the cycle returns with nothing changed but [inst], the program
    counter still on the word, so the next cycle does the same. *)
Theorem maingo_draw_stuck (c d : Chip8) :
  wf c ->
  Decode c = Ok d ->
  topNibble (inst d) = 0xD ->
  MainGo.Execute c = Ok d
  /\ d = with_inst c (inst d)
  /\ MainGo.Execute d = Ok d.
Proof.
  intros Hwf Hdec Hclass.
  split; [now apply MainGo_draw_ignored|]. split.
  - destruct (Decode_inv c d Hwf Hdec) as (hi & lo & _ & _ & -> & _). reflexivity.
  - apply MainGo_draw_ignored; [|exact Hclass]. now apply (Decode_again c d).
Qed.

Lemma maingo_draw_stuck_witness :
  wf c_glyph /\ Decode c_glyph = Ok d_glyph /\ topNibble (inst d_glyph) = 0xD
  /\ MainGo.Execute c_glyph = Ok d_glyph
  /\ d_glyph = with_inst c_glyph (inst d_glyph)
  /\ MainGo.Execute d_glyph = Ok d_glyph.
Proof.
  assert (Hwf : wf c_glyph) by (vm_compute; reflexivity).
  assert (Hdec : Decode c_glyph = Ok d_glyph) by (vm_compute; reflexivity).
  assert (Hclass : topNibble (inst d_glyph) = 0xD) by reflexivity.
  split; [exact Hwf|]. split; [exact Hdec|]. split; [exact Hclass|].
  exact (maingo_draw_stuck c_glyph d_glyph Hwf Hdec Hclass).
Defined.

(** ** Presentation *)

(** The pixel of column [j] is bit [7 - j] of the row's byte: the most
    significant bit is the leftmost pixel. *)
Lemma pixel_is_bit (b j : Z) :
  0 <= b < 256 -> 0 <= j < 8 ->
  pixelVal (Reverse8 b) j = Z.b2z (Z.testbit b (7 - j)).
Proof.
  intros Hb Hj.
  assert (Hall : forallb (fun b' =>
                    forallb (fun j' =>
                       pixelVal (Reverse8 (Z.of_nat b')) (Z.of_nat j')
                       =? Z.b2z (Z.testbit (Z.of_nat b') (7 - Z.of_nat j')))
                      (seq 0 8)) (seq 0 256) = true)
    by (vm_compute; reflexivity).
  rewrite forallb_forall in Hall.
  assert (Hinb : In (Z.to_nat b) (seq 0 256)) by (apply in_seq; lia).
  assert (Hinj : In (Z.to_nat j) (seq 0 8)) by (apply in_seq; lia).
  pose proof (Hall (Z.to_nat b) Hinb) as Hrow.
  rewrite forallb_forall in Hrow.
  pose proof (Hrow (Z.to_nat j) Hinj) as Hcell.
  rewrite !Z2Nat.id in Hcell by lia.
  now apply Z.eqb_eq.
Qed.

Lemma pixel_row_length (rect_of : Z -> Sdl.Rect) (b : Z) :
  length (pixel_row rect_of b) = 8%nat.
Proof. reflexivity. Qed.

Lemma pixel_row_lookup (rect_of : Z -> Sdl.Rect) (b : Z) (j : nat) :
  0 <= b < 256 -> (j < 8)%nat ->
  pixel_row rect_of b !! j
  = Some (rect_of (Z.of_nat j),
          if Z.testbit b (7 - Z.of_nat j) then white else black).
Proof.
  intros Hb Hj. unfold pixel_row.
  assert (Hpix : forall j', 0 <= j' < 8 ->
            (if pixelVal (Reverse8 b) j' =? 1 then white else black)
            = (if Z.testbit b (7 - j') then white else black)).
  { intros j' Hj'. rewrite (pixel_is_bit b j' Hb Hj').
    now destruct (Z.testbit b (7 - j')). }
  do 8 (destruct j as [|j]; [cbn; rewrite Hpix by lia; reflexivity|]). lia.
Qed.

Lemma int32_small (n : Z) : - 2 ^ 31 <= n < 2 ^ 31 -> int32 n = n.
Proof. intros Hn. unfold int32. rewrite Z.mod_small; lia. Qed.

Lemma drawMemory_rows_length (g : list Z) :
  forall i, length (drawMemory_rows i g) = (8 * length g)%nat.
Proof.
  induction g as [|b g IH]; intros i; [reflexivity|].
  cbn [drawMemory_rows]. rewrite length_app, pixel_row_length, IH. simpl. lia.
Qed.

Lemma drawMemory_rows_lookup (g : list Z) :
  forall (i : Z) (k j : nat) (b : Z),
    g !! k = Some b -> (j < 8)%nat ->
    drawMemory_rows i g !! (8 * k + j)%nat
    = pixel_row (fun j' => Sdl.mkRect (int32 (j' * 10)) (int32 ((i + Z.of_nat k) * 10)) 10 10)
                b !! j.
Proof.
  induction g as [|a g IH]; intros i k j b Hk Hj; [discriminate Hk|].
  cbn [drawMemory_rows]. destruct k as [|k].
  - inversion Hk; subst a. rewrite lookup_app_l by (rewrite pixel_row_length; lia).
    replace (8 * 0 + j)%nat with j by lia. now rewrite Z.add_0_r.
  - rewrite lookup_app_r by (rewrite pixel_row_length; lia).
    rewrite pixel_row_length. replace (8 * S k + j - 8)%nat with (8 * k + j)%nat by lia.
    rewrite (IH (i + 1) k j b Hk Hj).
    replace (i + 1 + Z.of_nat k) with (i + Z.of_nat (S k)) by lia. reflexivity.
Qed.

(** X24.  [drawMemory] paints the display buffer as a picture 8 pixels
    wide with one byte per row: for row k and column j it fills the 10 by
    10 square at (10j, 10k), white if bit 7 - j of gfx[k] is set (most
    significant bit leftmost) and black otherwise, row after row, 8
    squares per byte. *)
Theorem drawMemory_pixels (c : Chip8) (k j : nat) (b : Z) :
  wf c ->
  gfx c !! k = Some b ->
  (j < 8)%nat ->
  drawMemory c !! (8 * k + j)%nat
  = Some (Sdl.mkRect (10 * Z.of_nat j) (10 * Z.of_nat k) 10 10,
          if Z.testbit b (7 - Z.of_nat j) then white else black)
  /\ length (drawMemory c) = (8 * 2048)%nat.
Proof.
  intros Hwf Hk Hj. split.
  - unfold drawMemory. rewrite (drawMemory_rows_lookup (gfx c) 0 k j b Hk Hj).
    assert (Hb : 0 <= b < 256).
    { apply is_u8_range. eapply forallb_lookup; [|exact Hk]. apply wf_iff in Hwf. tauto. }
    pose proof (lookup_lt_Some _ _ _ Hk) as Hlt. rewrite (wf_gfx_length c Hwf) in Hlt.
    rewrite (pixel_row_lookup _ b j Hb Hj).
    rewrite !int32_small by lia. do 3 f_equal; lia.
  - unfold drawMemory. rewrite drawMemory_rows_length. now rewrite (wf_gfx_length c Hwf).
Qed.

Lemma drawMemory_pixels_witness :
  wf c_glyph2 /\ gfx c_glyph2 !! 1%nat = Some 0x90 /\ (3 < 8)%nat
  /\ drawMemory c_glyph2 !! (8 * 1 + 3)%nat
     = Some (Sdl.mkRect (10 * Z.of_nat 3) (10 * Z.of_nat 1) 10 10,
             if Z.testbit 0x90 (7 - Z.of_nat 3) then white else black)
  /\ length (drawMemory c_glyph2) = (8 * 2048)%nat.
Proof.
  assert (Hwf : wf c_glyph2) by (vm_compute; reflexivity).
  assert (Hk : gfx c_glyph2 !! 1%nat = Some 0x90) by (vm_compute; reflexivity).
  assert (Hj : (3 < 8)%nat) by lia.
  split; [exact Hwf|]. split; [exact Hk|]. split; [exact Hj|].
  exact (drawMemory_pixels c_glyph2 1 3 0x90 Hwf Hk Hj).
Defined.

Lemma drawLetter_rows_ok (mem : list Z) (offset x y : Z) (k : nat) :
  forall i,
    0 <= offset + i -> (Z.to_nat (offset + i) + k <= length mem)%nat ->
    exists calls,
      drawLetter_rows k i mem offset x y = Ok calls
      /\ length calls = (8 * k)%nat
      /\ forall (r j : nat) (b : Z),
          (r < k)%nat -> (j < 8)%nat ->
          mem !! Z.to_nat (offset + i + Z.of_nat r) = Some b ->
          calls !! (8 * r + j)%nat
          = pixel_row (fun j' => Sdl.mkRect (int32 (j' * 10 + x))
                                           (int32 ((i + Z.of_nat r) * 10 + y)) 10 10)
                      b !! j.
Proof.
  induction k as [|k IH]; intros i Hpos Hfit.
  - exists []. repeat split. intros r j b Hr. lia.
  - cbn [drawLetter_rows]. unfold at_int.
    destruct (Z.ltb_spec (offset + i) 0) as [|_]; [lia|].
    destruct (at_index_in_range mem (offset + i)) as [b0 Hb0]; [lia|].
    rewrite Hb0. cbn [obind].
    destruct (IH (i + 1)) as (rest & Hrest & Hlen & Hlook); [lia | lia |].
    rewrite Hrest. cbn [obind]. eexists. split; [reflexivity|]. split.
    + rewrite length_app, pixel_row_length, Hlen. lia.
    + intros r j b Hr Hj Hb. destruct r as [|r].
      * rewrite lookup_app_l by (rewrite pixel_row_length; lia).
        replace (8 * 0 + j)%nat with j by lia.
        apply at_index_Ok in Hb0.
        replace (offset + i + Z.of_nat 0) with (offset + i) in Hb by lia.
        rewrite Hb0 in Hb. inversion Hb; subst b0.
        now rewrite Z.add_0_r.
      * rewrite lookup_app_r by (rewrite pixel_row_length; lia).
        rewrite pixel_row_length.
        replace (8 * S r + j - 8)%nat with (8 * r + j)%nat by lia.
        rewrite (Hlook r j b) by
          (try lia; replace (offset + (i + 1) + Z.of_nat r)
             with (offset + i + Z.of_nat (S r)) by lia; exact Hb).
        replace (i + 1 + Z.of_nat r) with (i + Z.of_nat (S r)) by lia. reflexivity.
Qed.

(** X25.  [drawLetter] paints the five bytes memory[offset .. offset+5)
    as five rows of eight 10 by 10 squares with the top left corner at
    (x, y), most significant bit leftmost; it panics when the five bytes
    do not lie inside the memory. *)
Theorem drawLetter_pixels (c : Chip8) (offset x y : Z) :
  wf c ->
  (0 <= offset /\ offset + 5 <= memSize ->
   exists calls,
     drawLetter c offset x y = Ok calls
     /\ length calls = 40%nat
     /\ forall (r j : nat) (b : Z),
         (r < 5)%nat -> (j < 8)%nat ->
         memory c !! Z.to_nat (offset + Z.of_nat r) = Some b ->
         calls !! (8 * r + j)%nat
         = Some (Sdl.mkRect (int32 (Z.of_nat j * 10 + x)) (int32 (Z.of_nat r * 10 + y)) 10 10,
                 if Z.testbit b (7 - Z.of_nat j) then white else black))
  /\ (offset < 0 \/ memSize < offset + 5 -> drawLetter c offset x y = Panic).
Proof.
  intros Hwf. pose proof (wf_memory_length c Hwf) as Hlen. unfold memSize. split.
  - intros [Hpos Hfit]. unfold drawLetter.
    destruct (drawLetter_rows_ok (memory c) offset x y 5 0)
      as (calls & Hrun & Hl & Hlook); [lia | lia |].
    exists calls. split; [exact Hrun|]. split; [exact Hl|].
    intros r j b Hr Hj Hb.
    rewrite (Hlook r j b Hr Hj) by (rewrite Z.add_0_r; exact Hb).
    rewrite pixel_row_lookup; [reflexivity | | exact Hj].
    exact (wf_memory_byte c Hwf _ _ Hb).
  - intros Hbad. unfold drawLetter.
    assert (Hrows : forall k i, (0 < k)%nat ->
              offset + i < 0 \/ 4096 < offset + i + Z.of_nat k ->
              drawLetter_rows k i (memory c) offset x y = Panic).
    { induction k as [|k IH]; intros i Hk Hi; [lia|].
      cbn [drawLetter_rows]. unfold at_int.
      destruct (Z.ltb_spec (offset + i) 0) as [|Hge]; [reflexivity|].
      unfold at_index.
      destruct (memory c !! Z.to_nat (offset + i)) as [b|] eqn:Hb; [|reflexivity].
      cbn [obind]. apply lookup_lt_Some in Hb. rewrite Hlen in Hb.
      rewrite IH; [reflexivity | lia | lia]. }
    apply Hrows; lia.
Qed.

Lemma drawLetter_pixels_witness :
  wf c_glyph /\ 0 <= FONT_OFFSET /\ FONT_OFFSET + 5 <= memSize
  /\ exists calls,
      drawLetter c_glyph FONT_OFFSET 40 50 = Ok calls
      /\ length calls = 40%nat
      /\ forall (r j : nat) (b : Z),
          (r < 5)%nat -> (j < 8)%nat ->
          memory c_glyph !! Z.to_nat (FONT_OFFSET + Z.of_nat r) = Some b ->
          calls !! (8 * r + j)%nat
          = Some (Sdl.mkRect (int32 (Z.of_nat j * 10 + 40)) (int32 (Z.of_nat r * 10 + 50)) 10 10,
                  if Z.testbit b (7 - Z.of_nat j) then white else black).
Proof.
  assert (Hwf : wf c_glyph) by (vm_compute; reflexivity).
  assert (H0 : 0 <= FONT_OFFSET) by (vm_compute; intros H; discriminate H).
  assert (H5 : FONT_OFFSET + 5 <= memSize) by (vm_compute; intros H; discriminate H).
  split; [exact Hwf|]. split; [exact H0|]. split; [exact H5|].
  exact (proj1 (drawLetter_pixels c_glyph FONT_OFFSET 40 50 Hwf) (conj H0 H5)).
Defined.
